(** * SkiaCanvas: partial saves and clip replay

    A shallow embedding of the save/restore bookkeeping of
    [libs/hwui/SkiaCanvas.cpp]: the stack of partial-save records
    ([mSaveStack]), the log of clips issued inside clip-preserving frames
    ([mClipStack]) and the operations that maintain them ([save], [restore],
    [restoreToCount], [saveLayer], [saveLayerAlpha], [recordPartialSave],
    [recordClip], [applyPersistentClips], [clipRect], [clipPath],
    [setBitmap], [reset]).

    The rendering backend ([SkCanvas]) is an external collaborator.  Its
    geometry (matrices, shapes, clip regions, paints, bitmaps) is kept
    abstract in the class [Skia]; its save stack is modelled explicitly.
    Draw calls do not touch the matrix, the clip, the save depth or the
    bookkeeping; of them, what [drawPoints], [drawLines], [drawBitmap] with
    a matrix and [drawBitmapMesh] prepare for the backend is modelled
    further down, the drawing itself is not. *)

From Stdlib Require Import ZArith List Bool Lia.
Import ListNotations.
Open Scope Z_scope.

Set Implicit Arguments.

(** ** SaveFlags *)

(** Modelled from the spec: the [SaveFlags] constants are declared in
    [SaveFlags.h], which is not part of the sources at hand.  The spec speaks
    of a flag set with a matrix bit and a clip bit; the values are the ones of
    the public Canvas API that the header mirrors. *)
Module SaveFlags.
Definition Matrix : Z := 1.
Definition Clip : Z := 2.
Definition HasAlphaLayer : Z := 4.
Definition ClipToLayer : Z := 16.
Definition MatrixClip : Z := Z.lor Matrix Clip.
End SaveFlags.

(** [flags & bit] read as a C condition. *)
Definition hasFlag (flags bit : Z) : bool := negb (Z.land flags bit =? 0).

(** ** The backend's geometry *)

(** The three shapes a clip call can carry. *)
Inductive Shape (R RR P : Type) : Type :=
| ShapeRect (r : R)
| ShapeRRect (rr : RR)
| ShapePath (p : P).

Arguments ShapeRect {R RR P} r.
Arguments ShapeRRect {R RR P} rr.
Arguments ShapePath {R RR P} p.

(** Modelled from the spec: the types and primitives of the rendering backend
    (Skia) are not part of the sources at hand.  The contract of section 6 of
    the spec is taken as an interface: clip primitives combine a shape, under
    a transform, with a clip region; [region_elements] is the visitor hook
    that enumerates the active clip operations of a region. *)
Class Skia : Type := {
  Scalar : Type;
  SkMatrix : Type;
  SkRect : Type;
  SkRRect : Type;
  SkPath : Type;
  SkClipOp : Type;
  SkPaint : Type;
  SkBitmap : Type;
  ClipRegion : Type;
  SkRect_MakeLTRB : Scalar -> Scalar -> Scalar -> Scalar -> SkRect;
  SkRRect_MakeRect : SkRect -> SkRRect;
  SkRRect_rect : SkRRect -> SkRect;
  SkPath_isRRect : SkPath -> option SkRRect;
  SkMatrix_I : SkMatrix;
  SkMatrix_concat : SkMatrix -> SkMatrix -> SkMatrix;
  SkMatrix_rotate : Scalar -> SkMatrix;
  SkMatrix_scale : Scalar -> Scalar -> SkMatrix;
  SkMatrix_skew : Scalar -> Scalar -> SkMatrix;
  SkMatrix_translate : Scalar -> Scalar -> SkMatrix;
  SkPaint_default : SkPaint;
  SkPaint_setAlpha : Z -> SkPaint -> SkPaint;
  SkBitmap_isNull : SkBitmap -> bool;
  region_of_bitmap : SkBitmap -> ClipRegion;
  region_clipRect : SkMatrix -> SkRect -> SkClipOp -> bool -> ClipRegion -> ClipRegion;
  region_clipRRect : SkMatrix -> SkRRect -> SkClipOp -> bool -> ClipRegion -> ClipRegion;
  region_clipPath : SkMatrix -> SkPath -> SkClipOp -> bool -> ClipRegion -> ClipRegion;
  region_layer : SkMatrix -> SkRect -> Z -> ClipRegion -> ClipRegion;
  region_isEmpty : ClipRegion -> bool;
  region_elements : ClipRegion -> list (Shape SkRect SkRRect SkPath * SkClipOp * bool)
}.

(** ** Results of operations that carry a debug assertion *)

Inductive Failure : Type :=
| AssertSaveCount   (* SkASSERT(!rec || currentSaveCount >= rec->saveCount) *)
| AssertClipIndex.  (* SkASSERT(clipStartIndex <= mClipStack.size()) *)

Inductive Result (A : Type) : Type :=
| Ok (a : A)
| Fatal (f : Failure)
| OutOfFuel.

Arguments Ok {A} a.
Arguments Fatal {A} f.
Arguments OutOfFuel {A}.

Definition bind {A B : Type} (m : Result A) (k : A -> Result B) : Result B :=
  match m with
  | Ok a => k a
  | Fatal f => Fatal f
  | OutOfFuel => OutOfFuel
  end.

Notation "x <- m ;; k" := (bind m (fun x => k))
  (at level 61, m at next level, right associativity).

Section Canvas.

Context {sk : Skia}.

(** ** The backend canvas *)

Definition ClipShape : Type := Shape SkRect SkRRect SkPath.

(** [SkCanvas::SaveLayerRec]: bounds, optional paint, layer flags. *)
Record SaveLayerRec : Type := mkSaveLayerRec {
  fBounds : SkRect;
  fPaint : option SkPaint;
  fSaveLayerFlags : Z
}.

(** One frame of the backend's save stack. *)
Record MCRec : Type := mkMCRec {
  fMatrix : SkMatrix;
  fClip : ClipRegion;
  fLayer : option SaveLayerRec
}.

(** Modelled from the spec: [SkCanvas] is not part of the sources at hand.
    It is the stack machine of sections 1, 2 and 6 of the spec: a live frame
    and the frames captured by the saves still open; [save] captures the
    transform and the clip together and [restore] rolls both back. *)
Record SkCanvas : Type := mkSkCanvas {
  fTop : MCRec;
  fSaved : list MCRec
}.

Definition sk_new (bitmap : SkBitmap) : SkCanvas :=
  mkSkCanvas (mkMCRec SkMatrix_I (region_of_bitmap bitmap) None) [].

(** The depth is one more than the number of open saves.  The source keeps
    it in an [int]; it stays far from the bound of that type. *)
Definition sk_getSaveCount (c : SkCanvas) : Z :=
  1 + Z.of_nat (length (fSaved c)).

Definition sk_getTotalMatrix (c : SkCanvas) : SkMatrix := fMatrix (fTop c).

Definition sk_getClip (c : SkCanvas) : ClipRegion := fClip (fTop c).

Definition sk_setMatrix (m : SkMatrix) (c : SkCanvas) : SkCanvas :=
  mkSkCanvas (mkMCRec m (fClip (fTop c)) (fLayer (fTop c))) (fSaved c).

Definition sk_concat (m : SkMatrix) (c : SkCanvas) : SkCanvas :=
  sk_setMatrix (SkMatrix_concat (sk_getTotalMatrix c) m) c.

Definition sk_setClip (r : ClipRegion) (c : SkCanvas) : SkCanvas :=
  mkSkCanvas (mkMCRec (fMatrix (fTop c)) r (fLayer (fTop c))) (fSaved c).

(** [save] returns the depth before the save. *)
Definition sk_save (c : SkCanvas) : Z * SkCanvas :=
  (sk_getSaveCount c,
   mkSkCanvas (mkMCRec (fMatrix (fTop c)) (fClip (fTop c)) None)
              (fTop c :: fSaved c)).

Definition sk_saveLayer (layer : SaveLayerRec) (c : SkCanvas) : Z * SkCanvas :=
  (sk_getSaveCount c,
   mkSkCanvas (mkMCRec (fMatrix (fTop c))
                 (region_layer (fMatrix (fTop c)) (fBounds layer)
                    (fSaveLayerFlags layer) (fClip (fTop c)))
                 (Some layer))
              (fTop c :: fSaved c)).

(** [restore] at the bottom of the stack does nothing. *)
Definition sk_restore (c : SkCanvas) : SkCanvas :=
  match fSaved c with
  | [] => c
  | r :: rest => mkSkCanvas r rest
  end.

Definition sk_clipRect (rect : SkRect) (op : SkClipOp) (aa : bool)
    (c : SkCanvas) : SkCanvas :=
  sk_setClip (region_clipRect (sk_getTotalMatrix c) rect op aa (sk_getClip c)) c.

Definition sk_clipRRect (rrect : SkRRect) (op : SkClipOp) (aa : bool)
    (c : SkCanvas) : SkCanvas :=
  sk_setClip (region_clipRRect (sk_getTotalMatrix c) rrect op aa (sk_getClip c)) c.

Definition sk_clipPath (path : SkPath) (op : SkClipOp) (aa : bool)
    (c : SkCanvas) : SkCanvas :=
  sk_setClip (region_clipPath (sk_getTotalMatrix c) path op aa (sk_getClip c)) c.

Definition sk_isClipEmpty (c : SkCanvas) : bool := region_isEmpty (sk_getClip c).

(** ** Replace bitmap *)

(** [ClipCopier]: forwards one visited clip to the destination canvas. *)
Definition ClipCopier_visit (dst : SkCanvas)
    (e : ClipShape * SkClipOp * bool) : SkCanvas :=
  match e with
  | (ShapeRect rect, op, aa) => sk_clipRect rect op aa dst
  | (ShapeRRect rrect, op, aa) => sk_clipRRect rrect op aa dst
  | (ShapePath path, op, aa) => sk_clipPath path op aa dst
  end.

(** [src->replayClips(&copier)] with a copier onto [dst]. *)
Definition sk_replayClips (src dst : SkCanvas) : SkCanvas :=
  fold_left ClipCopier_visit (region_elements (sk_getClip src)) dst.

(** ** The engine's bookkeeping *)

Record SaveRec : Type := mkSaveRec {
  saveCount : Z;
  saveFlags : Z;
  clipIndex : nat
}.

(** [SkiaCanvas::Clip]; the source stores the path and the rounded rectangle
    side by side and notes that they are logically a union. *)
Inductive Clip : Type :=
| ClipRect (mRRect : SkRRect) (mOp : SkClipOp) (mMatrix : SkMatrix)
| ClipRRect (mRRect : SkRRect) (mOp : SkClipOp) (mMatrix : SkMatrix)
| ClipPath (mPath : SkPath) (mOp : SkClipOp) (mMatrix : SkMatrix).

(** The three constructors of [Clip]. *)
Definition Clip_new (shape : ClipShape) (op : SkClipOp) (m : SkMatrix) : Clip :=
  match shape with
  | ShapeRect rect => ClipRect (SkRRect_MakeRect rect) op m
  | ShapeRRect rrect => ClipRRect rrect op m
  | ShapePath path => ClipPath path op m
  end.

Definition Clip_matrix (c : Clip) : SkMatrix :=
  match c with
  | ClipRect _ _ m | ClipRRect _ _ m | ClipPath _ _ m => m
  end.

Definition Clip_apply (clip : Clip) (canvas : SkCanvas) : SkCanvas :=
  let canvas := sk_setMatrix (Clip_matrix clip) canvas in
  match clip with
  | ClipRect rr op _ => sk_clipRect (SkRRect_rect rr) op false canvas
  | ClipRRect rr op _ => sk_clipRRect rr op false canvas
  | ClipPath p op _ => sk_clipPath p op false canvas
  end.

(** The engine: the backend it draws on, the stack of partial-save records
    (a nullable deque, most recent record first here) and the clip log. *)
Record SkiaCanvas : Type := mkSkiaCanvas {
  mCanvas : SkCanvas;
  mSaveStack : option (list SaveRec);
  mClipStack : list Clip;
  mHighContrastText : bool
}.

Definition set_mCanvas (c : SkCanvas) (s : SkiaCanvas) : SkiaCanvas :=
  mkSkiaCanvas c (mSaveStack s) (mClipStack s) (mHighContrastText s).

Definition set_mSaveStack (st : option (list SaveRec)) (s : SkiaCanvas) : SkiaCanvas :=
  mkSkiaCanvas (mCanvas s) st (mClipStack s) (mHighContrastText s).

Definition set_mClipStack (l : list Clip) (s : SkiaCanvas) : SkiaCanvas :=
  mkSkiaCanvas (mCanvas s) (mSaveStack s) l (mHighContrastText s).

(** The records of the stack, none when the deque was never allocated. *)
Definition saveRecords (s : SkiaCanvas) : list SaveRec :=
  match mSaveStack s with
  | Some l => l
  | None => []
  end.

(** The constructor from a backend canvas and the one from a bitmap. *)
Definition SkiaCanvas_new (canvas : SkCanvas) : SkiaCanvas :=
  mkSkiaCanvas canvas None [] false.

Definition SkiaCanvas_of_bitmap (bitmap : SkBitmap) : SkiaCanvas :=
  SkiaCanvas_new (sk_new bitmap).

Definition reset (skiaCanvas : SkCanvas) (s : SkiaCanvas) : SkiaCanvas :=
  mkSkiaCanvas skiaCanvas None (mClipStack s) false.

Definition setBitmap (bitmap : SkBitmap) (s : SkiaCanvas) : SkiaCanvas :=
  let newCanvas := sk_new bitmap in
  let newCanvas :=
    if negb (SkBitmap_isNull bitmap)
    then sk_replayClips (mCanvas s)
           (sk_setMatrix (sk_getTotalMatrix (mCanvas s)) newCanvas)
    else newCanvas in
  set_mSaveStack None (set_mCanvas newCanvas s).

(** ** Save and restore *)

Definition getSaveCount (s : SkiaCanvas) : Z := sk_getSaveCount (mCanvas s).

Definition preserveMatrix (r : SaveRec) : bool :=
  negb (hasFlag (saveFlags r) SaveFlags.Matrix).

Definition preserveClip (r : SaveRec) : bool :=
  negb (hasFlag (saveFlags r) SaveFlags.Clip).

Definition currentSaveRec (s : SkiaCanvas) : Result (option SaveRec) :=
  let top := match mSaveStack s with
             | Some st => hd_error st
             | None => None
             end in
  let currentSaveCount := sk_getSaveCount (mCanvas s) in
  match top with
  | None => Ok None
  | Some r =>
      if currentSaveCount >=? saveCount r
      then Ok (if saveCount r =? currentSaveCount then Some r else None)
      else Fatal AssertSaveCount
  end.

Definition recordPartialSave (flags : Z) (s : SkiaCanvas) : SkiaCanvas :=
  let flags := Z.land flags SaveFlags.MatrixClip in
  if flags =? SaveFlags.MatrixClip then s
  else
    let r := mkSaveRec (sk_getSaveCount (mCanvas s)) flags
                 (length (mClipStack s)) in
    set_mSaveStack (Some (r :: saveRecords s)) s.

Definition save (flags : Z) (s : SkiaCanvas) : Z * SkiaCanvas :=
  let (count, canvas) := sk_save (mCanvas s) in
  (count, recordPartialSave flags (set_mCanvas canvas s)).

Definition recordClip (clip : ClipShape) (op : SkClipOp) (s : SkiaCanvas)
    : Result SkiaCanvas :=
  cur <- currentSaveRec s ;;
  match cur with
  | Some r =>
      if negb (hasFlag (saveFlags r) SaveFlags.Clip)
      then Ok (set_mClipStack
                 (mClipStack s ++ [Clip_new clip op (sk_getTotalMatrix (mCanvas s))])
                 s)
      else Ok s
  | None => Ok s
  end.

Definition applyPersistentClips (clipStartIndex : nat) (s : SkiaCanvas)
    : Result SkiaCanvas :=
  if (clipStartIndex <=? length (mClipStack s))%nat then
    let saveMatrix := sk_getTotalMatrix (mCanvas s) in
    let canvas :=
      fold_left (fun c clip => Clip_apply clip c)
        (skipn clipStartIndex (mClipStack s)) (mCanvas s) in
    let s := set_mCanvas (sk_setMatrix saveMatrix canvas) s in
    cur <- currentSaveRec s ;;
    match cur with
    | Some r =>
        if hasFlag (saveFlags r) SaveFlags.Clip
        then Ok (set_mClipStack (firstn clipStartIndex (mClipStack s)) s)
        else Ok s
    | None => Ok (set_mClipStack (firstn clipStartIndex (mClipStack s)) s)
    end
  else Fatal AssertClipIndex.

Definition restore (s : SkiaCanvas) : Result SkiaCanvas :=
  cur <- currentSaveRec s ;;
  match cur with
  | None => Ok (set_mCanvas (sk_restore (mCanvas s)) s)
  | Some r =>
      let preserveMatrix := negb (hasFlag (saveFlags r) SaveFlags.Matrix) in
      let preserveClip := negb (hasFlag (saveFlags r) SaveFlags.Clip) in
      let savedMatrix := sk_getTotalMatrix (mCanvas s) in
      let clipIndex := clipIndex r in
      let s := set_mCanvas (sk_restore (mCanvas s)) s in
      let s := set_mSaveStack (Some (tl (saveRecords s))) s in
      let s := if preserveMatrix
               then set_mCanvas (sk_setMatrix savedMatrix (mCanvas s)) s
               else s in
      if preserveClip then applyPersistentClips clipIndex s else Ok s
  end.

(** The [while] loop of [restoreToCount], bounded by [fuel] iterations. *)
Fixpoint restoreToCount (fuel : nat) (restoreCount : Z) (s : SkiaCanvas)
    : Result SkiaCanvas :=
  if sk_getSaveCount (mCanvas s) >? restoreCount then
    match fuel with
    | O => OutOfFuel
    | S fuel' => s' <- restore s ;; restoreToCount fuel' restoreCount s'
    end
  else Ok s.

(** ** Layers *)

(** Modelled from the spec: the value of
    [SkCanvas::kDontClipToLayer_Legacy_SaveLayerFlag] is declared by the
    backend's headers, not by the sources at hand. *)
Definition kDontClipToLayer_Legacy_SaveLayerFlag : Z := Z.shiftl 1 31.

Definition layerFlags (flags : Z) : Z :=
  if negb (hasFlag flags SaveFlags.ClipToLayer)
  then Z.lor 0 kDontClipToLayer_Legacy_SaveLayerFlag
  else 0.

Definition saveLayer (left top right bottom : Scalar) (paint : option SkPaint)
    (flags : Z) (s : SkiaCanvas) : Z * SkiaCanvas :=
  let bounds := SkRect_MakeLTRB left top right bottom in
  let layer := mkSaveLayerRec bounds paint (layerFlags flags) in
  let (count, canvas) := sk_saveLayer layer (mCanvas s) in
  (count, set_mCanvas canvas s).

(** [static_cast<unsigned>(alpha)] for a 32-bit [int]. *)
Definition to_unsigned (alpha : Z) : Z := alpha mod 2 ^ 32.

Definition saveLayerAlpha (left top right bottom : Scalar) (alpha : Z)
    (flags : Z) (s : SkiaCanvas) : Z * SkiaCanvas :=
  if to_unsigned alpha <? 255 then
    let alphaPaint := SkPaint_setAlpha alpha SkPaint_default in
    saveLayer left top right bottom (Some alphaPaint) flags s
  else saveLayer left top right bottom None flags s.

(** ** Matrix *)

Definition getMatrix (s : SkiaCanvas) : SkMatrix := sk_getTotalMatrix (mCanvas s).

Definition setMatrix (matrix : SkMatrix) (s : SkiaCanvas) : SkiaCanvas :=
  set_mCanvas (sk_setMatrix matrix (mCanvas s)) s.

Definition concat (matrix : SkMatrix) (s : SkiaCanvas) : SkiaCanvas :=
  set_mCanvas (sk_concat matrix (mCanvas s)) s.

Definition rotate (degrees : Scalar) (s : SkiaCanvas) : SkiaCanvas :=
  set_mCanvas (sk_concat (SkMatrix_rotate degrees) (mCanvas s)) s.

Definition scale (sx sy : Scalar) (s : SkiaCanvas) : SkiaCanvas :=
  set_mCanvas (sk_concat (SkMatrix_scale sx sy) (mCanvas s)) s.

Definition skew (sx sy : Scalar) (s : SkiaCanvas) : SkiaCanvas :=
  set_mCanvas (sk_concat (SkMatrix_skew sx sy) (mCanvas s)) s.

Definition translate (dx dy : Scalar) (s : SkiaCanvas) : SkiaCanvas :=
  set_mCanvas (sk_concat (SkMatrix_translate dx dy) (mCanvas s)) s.

(** ** Clips *)

Definition clipRect (left top right bottom : Scalar) (op : SkClipOp)
    (s : SkiaCanvas) : Result (bool * SkiaCanvas) :=
  let rect := SkRect_MakeLTRB left top right bottom in
  s <- recordClip (ShapeRect rect) op s ;;
  let s := set_mCanvas (sk_clipRect rect op false (mCanvas s)) s in
  Ok (negb (sk_isClipEmpty (mCanvas s)), s).

Definition clipPath (path : SkPath) (op : SkClipOp) (s : SkiaCanvas)
    : Result (bool * SkiaCanvas) :=
  match SkPath_isRRect path with
  | Some roundRect =>
      s <- recordClip (ShapeRRect roundRect) op s ;;
      let s := set_mCanvas (sk_clipRRect roundRect op false (mCanvas s)) s in
      Ok (negb (sk_isClipEmpty (mCanvas s)), s)
  | None =>
      s <- recordClip (ShapePath path) op s ;;
      let s := set_mCanvas (sk_clipPath path op false (mCanvas s)) s in
      Ok (negb (sk_isClipEmpty (mCanvas s)), s)
  end.

(** ** The engine as a state machine *)

(** The state-changing entry points of the engine. *)
Inductive Op : Type :=
| OpSave (flags : Z)
| OpRestore
| OpRestoreToCount (fuel : nat) (restoreCount : Z)
| OpSaveLayer (left top right bottom : Scalar) (paint : option SkPaint) (flags : Z)
| OpSaveLayerAlpha (left top right bottom : Scalar) (alpha : Z) (flags : Z)
| OpSetMatrix (matrix : SkMatrix)
| OpConcat (matrix : SkMatrix)
| OpRotate (degrees : Scalar)
| OpScale (sx sy : Scalar)
| OpSkew (sx sy : Scalar)
| OpTranslate (dx dy : Scalar)
| OpClipRect (left top right bottom : Scalar) (op : SkClipOp)
| OpClipPath (path : SkPath) (op : SkClipOp)
| OpSetBitmap (bitmap : SkBitmap)
| OpReset (skiaCanvas : SkCanvas).

Definition exec (o : Op) (s : SkiaCanvas) : Result SkiaCanvas :=
  match o with
  | OpSave flags => Ok (snd (save flags s))
  | OpRestore => restore s
  | OpRestoreToCount fuel n => restoreToCount fuel n s
  | OpSaveLayer l t r b paint flags => Ok (snd (saveLayer l t r b paint flags s))
  | OpSaveLayerAlpha l t r b alpha flags =>
      Ok (snd (saveLayerAlpha l t r b alpha flags s))
  | OpSetMatrix m => Ok (setMatrix m s)
  | OpConcat m => Ok (concat m s)
  | OpRotate d => Ok (rotate d s)
  | OpScale sx sy => Ok (scale sx sy s)
  | OpSkew sx sy => Ok (skew sx sy s)
  | OpTranslate dx dy => Ok (translate dx dy s)
  | OpClipRect l t r b op => p <- clipRect l t r b op s ;; Ok (snd p)
  | OpClipPath path op => p <- clipPath path op s ;; Ok (snd p)
  | OpSetBitmap bitmap => Ok (setBitmap bitmap s)
  | OpReset c => Ok (reset c s)
  end.

(** A sequence of calls, stopping at the first one that does not return. *)
Fixpoint run (ops : list Op) (s : SkiaCanvas) : Result SkiaCanvas :=
  match ops with
  | [] => Ok s
  | o :: rest => s' <- exec o s ;; run rest s'
  end.

(** The states the engine can be in: a freshly constructed engine on any
    backend canvas, and whatever a returning call makes of a reachable
    state. *)
Inductive reachable : SkiaCanvas -> Prop :=
| reachable_new : forall canvas, reachable (SkiaCanvas_new canvas)
| reachable_step : forall s o s',
    reachable s -> exec o s = Ok s' -> reachable s'.

(** [restore] called [k] times in a row. *)
Fixpoint restores (k : nat) (s : SkiaCanvas) : Result SkiaCanvas :=
  match k with
  | O => Ok s
  | S k' => s' <- restore s ;; restores k' s'
  end.

(** ** Well-formed bookkeeping *)

(** Going down the record stack from the top, save counts decrease strictly
    from at most [count] and stay above the backend's bottom frame, and clip
    indices do not increase from at most [len]. *)
Fixpoint recs_ok (count : Z) (len : nat) (st : list SaveRec) : bool :=
  match st with
  | [] => true
  | r :: rest =>
      (2 <=? saveCount r) && (saveCount r <=? count)
      && (clipIndex r <=? len)%nat
      && recs_ok (saveCount r - 1) (clipIndex r) rest
  end.

Definition wf (s : SkiaCanvas) : bool :=
  recs_ok (sk_getSaveCount (mCanvas s)) (length (mClipStack s)) (saveRecords s).

(** What one logged clip does to a clip region on replay. *)
Definition Clip_region (clip : Clip) (reg : ClipRegion) : ClipRegion :=
  match clip with
  | ClipRect rr op m => region_clipRect m (SkRRect_rect rr) op false reg
  | ClipRRect rr op m => region_clipRRect m rr op false reg
  | ClipPath p op m => region_clipPath m p op false reg
  end.

(** ** States named in the properties *)

(** The log a clip call leaves, given the current record. *)
Definition log_after_clip (s : SkiaCanvas) (cur : option SaveRec)
    (shape : ClipShape) (op : SkClipOp) : list Clip :=
  match cur with
  | Some r =>
      if preserveClip r
      then mClipStack s ++ [Clip_new shape op (getMatrix s)]
      else mClipStack s
  | None => mClipStack s
  end.

(** The state [applyPersistentClips] returns, given the current record. *)
Definition replayed (clipStartIndex : nat) (s : SkiaCanvas) : SkiaCanvas :=
  set_mCanvas
    (sk_setMatrix (getMatrix s)
       (fold_left (fun c clip => Clip_apply clip c)
          (skipn clipStartIndex (mClipStack s)) (mCanvas s)))
    s.

(** The state of a [restore] that found a current record [r], after the
    backend's restore, the pop and the transform put back, and before any
    clip replay. *)
Definition popped (s : SkiaCanvas) (r : SaveRec) : SkiaCanvas :=
  let s1 := set_mSaveStack (Some (tl (saveRecords s)))
              (set_mCanvas (sk_restore (mCanvas s)) s) in
  if preserveMatrix r
  then set_mCanvas (sk_setMatrix (getMatrix s) (mCanvas s1)) s1
  else s1.

(** The state a clip call leaves: the log as [recordClip] left it and the
    backend after the forwarded primitive. *)
Definition clipped (s : SkiaCanvas) (cur : option SaveRec)
    (shape : ClipShape) (op : SkClipOp) (canvas : SkCanvas) : SkiaCanvas :=
  set_mCanvas canvas (set_mClipStack (log_after_clip s cur shape op) s).

(** What one visited clip element does to a region under transform [m]. *)
Definition element_region (m : SkMatrix) (reg : ClipRegion)
    (e : ClipShape * SkClipOp * bool) : ClipRegion :=
  match e with
  | (ShapeRect rect, op, aa) => region_clipRect m rect op aa reg
  | (ShapeRRect rrect, op, aa) => region_clipRRect m rrect op aa reg
  | (ShapePath path, op, aa) => region_clipPath m path op aa reg
  end.

(** The log a replay from [clipStartIndex] leaves, given the record that
    is current after the pop. *)
Definition log_after_replay (clipStartIndex : nat) (s : SkiaCanvas)
    (cur : option SaveRec) : list Clip :=
  match cur with
  | Some r =>
      if preserveClip r then mClipStack s
      else firstn clipStartIndex (mClipStack s)
  | None => firstn clipStartIndex (mClipStack s)
  end.

(** ** Calls made inside a frame *)

(** The calls that change the transform or the clip and nothing else. *)
Definition flat (o : Op) : bool :=
  match o with
  | OpSetMatrix _ | OpConcat _ | OpRotate _ | OpScale _ _ | OpSkew _ _
  | OpTranslate _ _ | OpClipRect _ _ _ _ _ | OpClipPath _ _ => true
  | _ => false
  end.

(** What such a call asks of the backend. *)
Definition sk_flat (o : Op) (c : SkCanvas) : SkCanvas :=
  match o with
  | OpSetMatrix m => sk_setMatrix m c
  | OpConcat m => sk_concat m c
  | OpRotate d => sk_concat (SkMatrix_rotate d) c
  | OpScale sx sy => sk_concat (SkMatrix_scale sx sy) c
  | OpSkew sx sy => sk_concat (SkMatrix_skew sx sy) c
  | OpTranslate dx dy => sk_concat (SkMatrix_translate dx dy) c
  | OpClipRect l t r b op => sk_clipRect (SkRect_MakeLTRB l t r b) op false c
  | OpClipPath path op =>
      match SkPath_isRRect path with
      | Some rr => sk_clipRRect rr op false c
      | None => sk_clipPath path op false c
      end
  | _ => c
  end.

(** The shape a clip call logs: a round-rect path is logged as its round
    rectangle. *)
Definition clip_shape (o : Op) : option (ClipShape * SkClipOp) :=
  match o with
  | OpClipRect l t r b op => Some (ShapeRect (SkRect_MakeLTRB l t r b), op)
  | OpClipPath path op =>
      Some (match SkPath_isRRect path with
            | Some rr => ShapeRRect rr
            | None => ShapePath path
            end, op)
  | _ => None
  end.

(** The entries a run of such calls logs in a clip-preserving frame, each
    with the transform the backend has when the call is made. *)
Fixpoint flat_log (ops : list Op) (c : SkCanvas) : list Clip :=
  match ops with
  | [] => []
  | o :: rest =>
      match clip_shape o with
      | Some (shape, op) => [Clip_new shape op (sk_getTotalMatrix c)]
      | None => []
      end ++ flat_log rest (sk_flat o c)
  end.

(** Whether clip calls are logged under the current record [cur]. *)
Definition logging (cur : option SaveRec) : bool :=
  match cur with
  | Some r => preserveClip r
  | None => false
  end.

(** The state a run of such calls leaves. *)
Definition flat_state (ops : list Op) (cur : option SaveRec) (s : SkiaCanvas)
    : SkiaCanvas :=
  set_mCanvas (fold_left (fun c o => sk_flat o c) ops (mCanvas s))
    (set_mClipStack
       (mClipStack s ++ (if logging cur then flat_log ops (mCanvas s) else []))
       s).

(** The calls that open a frame the backend restores whole. *)
Definition opens_full_frame (o : Op) : bool :=
  match o with
  | OpSave flags => Z.land flags SaveFlags.MatrixClip =? SaveFlags.MatrixClip
  | OpSaveLayer _ _ _ _ _ _ | OpSaveLayerAlpha _ _ _ _ _ _ => true
  | _ => false
  end.

(** The calls that replace the backend surface. *)
Definition swaps_surface (o : Op) : bool :=
  match o with
  | OpSetBitmap _ | OpReset _ => true
  | _ => false
  end.

(** The states reached on the surface the engine was constructed on. *)
Inductive reachable_on_surface : SkiaCanvas -> Prop :=
| on_surface_new : forall canvas, reachable_on_surface (SkiaCanvas_new canvas)
| on_surface_step : forall s o s',
    reachable_on_surface s -> swaps_surface o = false ->
    exec o s = Ok s' -> reachable_on_surface s'.

(** Whoever holds entries in the clip log: the log is empty, or some record
    on the stack preserves the clip and has the whole log in its range. *)
Definition log_owned (s : SkiaCanvas) : Prop :=
  mClipStack s = []
  \/ exists r, In r (saveRecords s) /\ preserveClip r = true
               /\ clipIndex r = O.


(** ** What the log holds for each open record *)

(** The backend's frames, the live one first. *)
Definition frames_of (c : SkCanvas) : list MCRec := fTop c :: fSaved c.

(** The entries of the log from index [lo] up to index [hi]. *)
Definition segment (log : list Clip) (lo hi : nat) : list Clip :=
  firstn (hi - lo) (skipn lo log).

(** Going down the backend's frames and the records together, [hi] being
    the clip index of the record above (the length of the log at the top):
    a record that preserves the clip has, from its clip index up to [hi],
    the entries that rebuild its frame's clip from the clip of the frame
    below; a record that does not has no entries of its own. *)
Fixpoint replay_inv (recs : list SaveRec) (frames : list MCRec) (hi : nat)
    (log : list Clip) : Prop :=
  match frames with
  | [] => True
  | f :: below =>
      match recs with
      | [] => True
      | r :: rest =>
          if saveCount r =? Z.of_nat (length frames)
          then (if preserveClip r
                then match below with
                     | b :: _ =>
                         fold_left (fun reg clip => Clip_region clip reg)
                           (segment log (clipIndex r) hi) (fClip b)
                         = fClip f
                     | [] => True
                     end
                else hi = clipIndex r)
               /\ replay_inv rest below (clipIndex r) log
          else replay_inv recs below hi log
      end
  end.

Definition replay_ok (s : SkiaCanvas) : Prop :=
  replay_inv (saveRecords s) (frames_of (mCanvas s))
    (length (mClipStack s)) (mClipStack s).


(** The first [n] entries of the log are [base] and no record reaches
    below them. *)
Definition base_kept (n : nat) (base : list Clip) (s : SkiaCanvas) : Prop :=
  firstn n (mClipStack s) = base
  /\ length base = n
  /\ forall r, In r (saveRecords s) -> (n <= clipIndex r)%nat.


(** Whether the engine is right inside a clip-preserving frame: a record
    is on top of the stack, the save count it holds is the backend's live
    save count (the record is "current"), and it preserves the clip. *)
Definition in_clip_preserving_frame (s : SkiaCanvas) : bool :=
  match hd_error (saveRecords s) with
  | Some r => (saveCount r =? sk_getSaveCount (mCanvas s)) && preserveClip r
  | None => false
  end.

End Canvas.

(** * Draw calls that prepare their arguments

    The backend's drawing itself is outside the model; what is modelled is
    the argument a draw call hands to the backend, or that it hands none. *)

Section Drawing.

Context {sk : Skia}.

(** [SkPaint::nothingToDraw], a query of the backend's paint. *)
Variable nothingToDraw : SkPaint -> bool.

(** Arithmetic of the backend's scalars, left abstract. *)
Variable SkIntToScalar : Z -> Scalar.
Variable scalar_zero : Scalar.
Variable scalar_add : Scalar -> Scalar -> Scalar.
Variable scalar_div : Scalar -> Scalar -> Scalar.

Definition SkPoint : Type := (Scalar * Scalar)%type.

Inductive PointMode : Type :=
| kPoints_PointMode
| kLines_PointMode
| kPolygon_PointMode.

(** What a draw call comes to: nothing issued, one backend call, or a read
    past the end of the caller's array. *)
Inductive Drawn (A : Type) : Type :=
| Skipped
| Issued (call : A)
| BadRead.

Arguments Skipped {A}.
Arguments Issued {A} call.
Arguments BadRead {A}.

(** The conversion loop of [drawPoints]: [count] points, each read from two
    consecutive floats of what is left of the array. *)
Fixpoint read_points (count : nat) (points : list Scalar)
    : option (list SkPoint) :=
  match count with
  | O => Some []
  | S n =>
      match points with
      | x :: y :: rest =>
          match read_points n rest with
          | Some pts => Some ((x, y) :: pts)
          | None => None
          end
      | _ => None
      end
  end.

(** [drawPoints] with a point mode: the call issued carries the mode, the
    number of points, the points and the paint. *)
Definition drawPoints_mode (points : list Scalar) (count : Z) (paint : SkPaint)
    (mode : PointMode) : Drawn (PointMode * Z * list SkPoint * SkPaint) :=
  if (count <? 2) || nothingToDraw paint then Skipped
  else
    let count := Z.shiftr count 1 in
    match read_points (Z.to_nat count) points with
    | Some pts => Issued (mode, count, pts, paint)
    | None => BadRead
    end.

Definition drawPoints (points : list Scalar) (count : Z) (paint : SkPaint)
    : Drawn (PointMode * Z * list SkPoint * SkPaint) :=
  drawPoints_mode points count paint kPoints_PointMode.

Definition drawLines (points : list Scalar) (count : Z) (paint : SkPaint)
    : Drawn (PointMode * Z * list SkPoint * SkPaint) :=
  if (count <? 4) || nothingToDraw paint then Skipped
  else drawPoints_mode points count paint kLines_PointMode.

(** The floats of a list of points, in order. *)
Definition point_floats (pts : list SkPoint) : list Scalar :=
  flat_map (fun p => [fst p; snd p]) pts.

(** ** The mesh of [drawBitmapMesh] *)

(** An [int] stored into a [uint16_t]. *)
Definition to_uint16 (z : Z) : Z := z mod 2 ^ 16.

Definition mesh_ptCount (meshWidth meshHeight : Z) : Z :=
  (meshWidth + 1) * (meshHeight + 1).

Definition mesh_indexCount (meshWidth meshHeight : Z) : Z :=
  meshWidth * meshHeight * 6.

(** The inner loop over the columns of one row of texture coordinates. *)
Fixpoint mesh_tex_row (n : nat) (x y dx : Scalar) : list SkPoint :=
  match n with
  | O => []
  | S n' => (x, y) :: mesh_tex_row n' (scalar_add x dx) y dx
  end.

(** The outer loop, [n] rows still to write, at row [i]. *)
Fixpoint mesh_tex_rows (n : nat) (i meshWidth meshHeight : Z)
    (w h dx dy y : Scalar) : list SkPoint :=
  match n with
  | O => []
  | S n' =>
      let y := if i =? meshHeight then h else y in
      mesh_tex_row (Z.to_nat meshWidth) scalar_zero y dx
      ++ (w, y)
      :: mesh_tex_rows n' (i + 1) meshWidth meshHeight w h dx dy
           (scalar_add y dy)
  end.

Definition mesh_texs (bitmapWidth bitmapHeight meshWidth meshHeight : Z)
    : list SkPoint :=
  let w := SkIntToScalar bitmapWidth in
  let h := SkIntToScalar bitmapHeight in
  let dx := scalar_div w (SkIntToScalar meshWidth) in
  let dy := scalar_div h (SkIntToScalar meshHeight) in
  mesh_tex_rows (Z.to_nat (meshHeight + 1)) 0 meshWidth meshHeight
    w h dx dy scalar_zero.

(** The six indices of the cell whose lower-left vertex is [index]. *)
Definition mesh_cell (index meshWidth : Z) : list Z :=
  [index; index + meshWidth + 1; index + meshWidth + 2;
   index; index + meshWidth + 2; index + 1].

(** The inner loop over the cells of one row; also gives the running
    index it ends with. *)
Fixpoint mesh_index_row (n : nat) (index meshWidth : Z) : list Z * Z :=
  match n with
  | O => ([], index)
  | S n' =>
      let (rest, index') := mesh_index_row n' (index + 1) meshWidth in
      (map to_uint16 (mesh_cell index meshWidth) ++ rest, index')
  end.

(** The outer loop over the rows of cells. *)
Fixpoint mesh_index_rows (n : nat) (index meshWidth : Z) : list Z :=
  match n with
  | O => []
  | S n' =>
      let (row, index') :=
        mesh_index_row (Z.to_nat meshWidth) index meshWidth in
      row ++ mesh_index_rows n' (index' + 1) meshWidth
  end.

Definition mesh_indices (meshWidth meshHeight : Z) : list Z :=
  mesh_index_rows (Z.to_nat meshHeight) 0 meshWidth.

(** The vertex at row [i], column [j] of the mesh. *)
Definition mesh_vertex (meshWidth : Z) (i j : nat) : Z :=
  Z.of_nat i * (meshWidth + 1) + Z.of_nat j.

(** The lower-left vertices of the cells, row by row. *)
Definition mesh_cells (meshWidth meshHeight : Z) : list Z :=
  flat_map
    (fun i => map (mesh_vertex meshWidth i) (seq 0 (Z.to_nat meshWidth)))
    (seq 0 (Z.to_nat meshHeight)).

(** The backend's [drawBitmap(bitmap, left, top, paint)] as the engine
    issues it: the backend canvas it is issued on, as it stands at the call,
    and the arguments; the paint may be null. *)
Record BitmapCall : Type := mkBitmapCall {
  call_canvas : SkCanvas;
  call_bitmap : SkBitmap;
  call_left : Scalar;
  call_top : Scalar;
  call_paint : option SkPaint
}.

(** [drawBitmap] with a matrix, [bitmap] being what [getSkBitmap] gave: an
    auto-restore guard saves on entry, the matrix is concatenated, the
    bitmap is drawn at the origin, and the guard restores on exit.  The
    result is the draw call issued and the engine left behind. *)
Definition drawBitmap_matrix (bitmap : SkBitmap) (matrix : SkMatrix)
    (paint : option SkPaint) (s : SkiaCanvas) : BitmapCall * SkiaCanvas :=
  let acr := snd (sk_save (mCanvas s)) in
  let canvas := sk_concat matrix acr in
  let call := mkBitmapCall canvas bitmap scalar_zero scalar_zero paint in
  (call, set_mCanvas (sk_restore canvas) s).

End Drawing.

Arguments Skipped {A}.
Arguments Issued {A} call.
Arguments BadRead {A}.


(** ** A small backend to run the engine on

    Integer coordinates, translations as transforms, clip regions kept as
    their device-space bounding rectangle. *)
Module Toy.

Record Rect : Type := mkRect { left : Z; top : Z; right : Z; bottom : Z }.

Inductive ClipOp : Type := kIntersect | kReplace.

Inductive Path : Type :=
| PathRRect (bounds : Rect) (radius : Z)
| PathOther (bounds : Rect).

Definition offset (m : Z * Z) (r : Rect) : Rect :=
  mkRect (left r + fst m) (top r + snd m) (right r + fst m) (bottom r + snd m).

Definition intersect (a b : Rect) : Rect :=
  mkRect (Z.max (left a) (left b)) (Z.max (top a) (top b))
         (Z.min (right a) (right b)) (Z.min (bottom a) (bottom b)).

Definition combine (op : ClipOp) (shape reg : Rect) : Rect :=
  match op with
  | kIntersect => intersect shape reg
  | kReplace => shape
  end.

Definition path_bounds (p : Path) : Rect :=
  match p with
  | PathRRect b _ => b
  | PathOther b => b
  end.

Definition isEmpty (r : Rect) : bool :=
  (right r <=? left r) || (bottom r <=? top r).

#[export] Instance skia : Skia := {|
  Scalar := Z;
  SkMatrix := Z * Z;
  SkRect := Rect;
  SkRRect := Rect * Z;
  SkPath := Path;
  SkClipOp := ClipOp;
  SkPaint := Z;
  SkBitmap := option (Z * Z);
  ClipRegion := Rect;
  SkRect_MakeLTRB := mkRect;
  SkRRect_MakeRect := fun r => (r, 0);
  SkRRect_rect := fst;
  SkPath_isRRect := fun p =>
    match p with
    | PathRRect b rad => Some (b, rad)
    | PathOther _ => None
    end;
  SkMatrix_I := (0, 0);
  SkMatrix_concat := fun a b => (fst a + fst b, snd a + snd b);
  SkMatrix_rotate := fun _ => (0, 0);
  SkMatrix_scale := fun _ _ => (0, 0);
  SkMatrix_skew := fun _ _ => (0, 0);
  SkMatrix_translate := fun dx dy => (dx, dy);
  SkPaint_default := 255;
  SkPaint_setAlpha := fun a _ => a;
  SkBitmap_isNull := fun b => match b with Some _ => false | None => true end;
  region_of_bitmap := fun b =>
    match b with
    | Some (w, h) => mkRect 0 0 w h
    | None => mkRect 0 0 0 0
    end;
  region_clipRect := fun m r op _ reg => combine op (offset m r) reg;
  region_clipRRect := fun m rr op _ reg => combine op (offset m (fst rr)) reg;
  region_clipPath := fun m p op _ reg => combine op (offset m (path_bounds p)) reg;
  region_layer := fun m r flags reg =>
    if Z.testbit flags 31 then reg else intersect (offset m r) reg;
  region_isEmpty := isEmpty;
  region_elements := fun reg => [(ShapeRect reg, kReplace, false)]
|}.

(** An engine on a 100 x 100 bitmap. *)
Definition fresh : SkiaCanvas := SkiaCanvas_of_bitmap (Some (100, 100)).

(** A bitmap to swap in. *)
Definition small_bitmap : SkBitmap := Some (20, 20).

Definition rectA : Rect := mkRect 0 0 50 50.
Definition rectB : Rect := mkRect 10 10 30 30.

Definition clipRectOp (r : Rect) (op : ClipOp) : Op :=
  OpClipRect (left r) (top r) (right r) (bottom r) op.

(** The state a call sequence leaves, the starting state if it fails. *)
Definition after (ops : list Op) (s : SkiaCanvas) : SkiaCanvas :=
  match run ops s with
  | Ok s' => s'
  | _ => s
  end.

(** The scenario of a clip-preserving frame: save without the clip bit, two
    clips, restore. *)
Definition scenario : list Op :=
  [OpSave SaveFlags.Matrix; clipRectOp rectA kIntersect;
   clipRectOp rectB kIntersect; OpRestore].

(** Inside a frame opened without the clip bit, one clip issued. *)
Definition in_clip_frame : SkiaCanvas :=
  after [OpSave SaveFlags.Matrix; clipRectOp rectA kIntersect] fresh.

(** Inside a frame opened without the matrix bit, the transform moved. *)
Definition in_matrix_frame : SkiaCanvas :=
  after [OpSave SaveFlags.Clip; OpTranslate 5 7] fresh.

(** Two frames deep, the outer one partial. *)
Definition two_deep : SkiaCanvas :=
  after [OpSave 0; OpSave SaveFlags.MatrixClip] fresh.

(** A paint, here its alpha, has nothing to draw when fully transparent. *)
Definition nothing_to_draw (paint : Z) : bool := paint =? 0.

(** Calls made inside a frame: a translation and a clip. *)
Definition inside : list Op :=
  [OpTranslate 5 7; clipRectOp rectA kIntersect].

(** Inside a frame opened with the clip bit only. *)
Definition in_clip_restoring_frame : SkiaCanvas :=
  after [OpSave SaveFlags.Clip] fresh.


(** The surface swapped while a clip-preserving frame held one entry. *)
Definition after_swap : SkiaCanvas := setBitmap small_bitmap in_clip_frame.


(** Under a full save opened inside a clip-preserving frame. *)
Definition under_full_frame : SkiaCanvas :=
  after [OpSave SaveFlags.Matrix; OpSave SaveFlags.MatrixClip] fresh.

(** A clip-preserving frame, a full save inside it, and a second
    clip-preserving frame inside that with one clip issued. *)
Definition nested : SkiaCanvas :=
  after [OpSave SaveFlags.Matrix; OpSave SaveFlags.MatrixClip;
         OpSave SaveFlags.Matrix; clipRectOp rectA kIntersect] fresh.

(** The restore of the innermost frame of [nested] up to the replay: the
    record left on top preserves the clip but is not current. *)
Definition nested_popped : SkiaCanvas := popped nested (mkSaveRec 4 1 0).

(** Inside a clip-preserving frame, one clip issued and the transform then
    moved. *)
Definition moved_in_clip_frame : SkiaCanvas :=
  after [OpSave SaveFlags.Matrix; clipRectOp rectA kIntersect;
         OpTranslate 5 7] fresh.

End Toy.

(** * Properties *)

Unset Implicit Arguments.

Section Properties.

Context {sk : Skia}.

(** ** Flags *)

Lemma hasFlag_masked_Matrix (flags : Z) :
  hasFlag (Z.land flags SaveFlags.MatrixClip) SaveFlags.Matrix
  = hasFlag flags SaveFlags.Matrix.
Proof.
  unfold hasFlag. rewrite <- Z.land_assoc. reflexivity.
Qed.

Lemma hasFlag_masked_Clip (flags : Z) :
  hasFlag (Z.land flags SaveFlags.MatrixClip) SaveFlags.Clip
  = hasFlag flags SaveFlags.Clip.
Proof.
  unfold hasFlag. rewrite <- Z.land_assoc. reflexivity.
Qed.

(** ** The backend: what each primitive leaves alone *)

Lemma count_setMatrix (m : SkMatrix) (c : SkCanvas) :
  sk_getSaveCount (sk_setMatrix m c) = sk_getSaveCount c.
Proof. reflexivity. Qed.

Lemma count_setClip (r : ClipRegion) (c : SkCanvas) :
  sk_getSaveCount (sk_setClip r c) = sk_getSaveCount c.
Proof. reflexivity. Qed.

Lemma count_save (c : SkCanvas) :
  sk_getSaveCount (snd (sk_save c)) = sk_getSaveCount c + 1.
Proof. unfold sk_getSaveCount. cbn [sk_save snd fSaved length]. lia. Qed.

Lemma count_pos (c : SkCanvas) : 1 <= sk_getSaveCount c.
Proof. unfold sk_getSaveCount. lia. Qed.

Lemma count_restore (c : SkCanvas) :
  sk_getSaveCount (sk_restore c) = Z.max 1 (sk_getSaveCount c - 1).
Proof.
  unfold sk_restore, sk_getSaveCount.
  destruct (fSaved c) as [|r rest] eqn:E; cbn [fSaved length]; rewrite ?E; cbn [length]; lia.
Qed.

Lemma count_Clip_apply (clip : Clip) (c : SkCanvas) :
  sk_getSaveCount (Clip_apply clip c) = sk_getSaveCount c.
Proof. destruct clip; reflexivity. Qed.

Lemma saved_Clip_apply (clip : Clip) (c : SkCanvas) :
  fSaved (Clip_apply clip c) = fSaved c.
Proof. destruct clip; reflexivity. Qed.

Lemma matrix_Clip_apply (clip : Clip) (c : SkCanvas) :
  sk_getTotalMatrix (Clip_apply clip c) = Clip_matrix clip.
Proof. destruct clip; reflexivity. Qed.

Lemma clip_Clip_apply (clip : Clip) (c : SkCanvas) :
  sk_getClip (Clip_apply clip c) = Clip_region clip (sk_getClip c).
Proof. destruct clip; reflexivity. Qed.

(** The replay loop: depth untouched, clip folded through the entries. *)
Lemma saved_replay (clips : list Clip) (c : SkCanvas) :
  fSaved (fold_left (fun c clip => Clip_apply clip c) clips c) = fSaved c.
Proof.
  revert c. induction clips as [|clip clips IH]; intros c; simpl.
  - reflexivity.
  - rewrite IH. apply saved_Clip_apply.
Qed.

Lemma clip_replay (clips : list Clip) (c : SkCanvas) :
  sk_getClip (fold_left (fun c clip => Clip_apply clip c) clips c)
  = fold_left (fun reg clip => Clip_region clip reg) clips (sk_getClip c).
Proof.
  revert c. induction clips as [|clip clips IH]; intros c; simpl.
  - reflexivity.
  - rewrite IH, clip_Clip_apply. reflexivity.
Qed.

(** ** The current record depends on the depth and the record stack only *)

Lemma currentSaveRec_ext (s1 s2 : SkiaCanvas) :
  sk_getSaveCount (mCanvas s1) = sk_getSaveCount (mCanvas s2) ->
  mSaveStack s1 = mSaveStack s2 ->
  currentSaveRec s1 = currentSaveRec s2.
Proof.
  intros Hc Hs. unfold currentSaveRec. rewrite Hc, Hs. reflexivity.
Qed.

(** When it returns a record, that record is the top one and its save count
    is the backend's. *)
Lemma currentSaveRec_Some (s : SkiaCanvas) (r : SaveRec) :
  currentSaveRec s = Ok (Some r) ->
  exists rest, mSaveStack s = Some (r :: rest)
               /\ saveCount r = sk_getSaveCount (mCanvas s).
Proof.
  unfold currentSaveRec.
  destruct (mSaveStack s) as [[|r0 rest]|]; simpl; try discriminate.
  destruct (sk_getSaveCount (mCanvas s) >=? saveCount r0); try discriminate.
  destruct (Z.eqb_spec (saveCount r0) (sk_getSaveCount (mCanvas s))); try discriminate.
  intros H. injection H as <-. eauto.
Qed.

(** The record pushed by a partial save is current right after the save. *)
Lemma currentSaveRec_pushed (s : SkiaCanvas) (r : SaveRec) (rest : list SaveRec) :
  mSaveStack s = Some (r :: rest) ->
  saveCount r = sk_getSaveCount (mCanvas s) ->
  currentSaveRec s = Ok (Some r).
Proof.
  intros Hs Hc. unfold currentSaveRec. rewrite Hs. simpl.
  rewrite Hc, Z.eqb_refl.
  destruct (Z.geb_spec (sk_getSaveCount (mCanvas s)) (sk_getSaveCount (mCanvas s)));
    [reflexivity | lia].
Qed.

(** ** save *)

(** C7: [save] forwards one plain save to the backend and returns what the
    backend reported; it pushes a record, holding the backend's save count
    after the save, the masked flags (from which both preserve booleans are
    read) and the length of the clip log, exactly when the flags restricted
    to the matrix and clip bits are not both bits; it is a total function,
    so it cannot fail. *)
Theorem save_records_partial_saves (flags : Z) (s : SkiaCanvas) :
  let s' := snd (save flags s) in
  let r := mkSaveRec (sk_getSaveCount (mCanvas s'))
             (Z.land flags SaveFlags.MatrixClip) (length (mClipStack s)) in
  fst (save flags s) = fst (sk_save (mCanvas s))
  /\ mCanvas s' = snd (sk_save (mCanvas s))
  /\ getSaveCount s' = getSaveCount s + 1
  /\ mClipStack s' = mClipStack s
  /\ saveRecords s' =
       (if Z.land flags SaveFlags.MatrixClip =? SaveFlags.MatrixClip
        then saveRecords s
        else r :: saveRecords s)
  /\ preserveMatrix r = negb (hasFlag flags SaveFlags.Matrix)
  /\ preserveClip r = negb (hasFlag flags SaveFlags.Clip).
Proof.
  unfold save, recordPartialSave, getSaveCount, preserveMatrix, preserveClip.
  cbn [sk_save fst snd saveFlags].
  rewrite hasFlag_masked_Matrix, hasFlag_masked_Clip.
  destruct (Z.land flags SaveFlags.MatrixClip =? SaveFlags.MatrixClip);
    cbn [mCanvas set_mCanvas set_mSaveStack mClipStack saveRecords mSaveStack];
    repeat split; try reflexivity;
    unfold sk_getSaveCount; cbn [fSaved length]; lia.
Qed.

(** ** saveLayerAlpha *)

Lemma to_unsigned_small (alpha : Z) :
  - 2 ^ 31 <= alpha < 2 ^ 31 ->
  (to_unsigned alpha <? 255) = (0 <=? alpha) && (alpha <? 255).
Proof.
  intros Hr. unfold to_unsigned.
  destruct (Z.leb_spec 0 alpha) as [Hpos|Hneg]; cbn [andb].
  - rewrite Z.mod_small by lia. reflexivity.
  - replace (alpha mod 2 ^ 32) with (alpha + 2 ^ 32).
    + apply Z.ltb_ge. lia.
    + symmetry. rewrite <- (Z.mod_add alpha 1 (2 ^ 32)) by lia.
      rewrite Z.mul_1_l. apply Z.mod_small. lia.
Qed.

(** C10: the comparison is made on the argument cast to [unsigned]; for a
    32-bit [alpha] that is negative or at least 255 the call is [saveLayer]
    with no paint, and an alpha-only paint is made only for
    [0 <= alpha < 255]. *)
Theorem saveLayerAlpha_unsigned_compare
    (left top right bottom : Scalar) (alpha flags : Z) (s : SkiaCanvas) :
  - 2 ^ 31 <= alpha < 2 ^ 31 ->
  (alpha < 0 \/ 255 <= alpha ->
     saveLayerAlpha left top right bottom alpha flags s
     = saveLayer left top right bottom None flags s)
  /\ (0 <= alpha < 255 ->
     saveLayerAlpha left top right bottom alpha flags s
     = saveLayer left top right bottom
         (Some (SkPaint_setAlpha alpha SkPaint_default)) flags s).
Proof.
  intros Hr. unfold saveLayerAlpha. rewrite (to_unsigned_small _ Hr).
  split; intros H.
  - destruct (Z.leb_spec 0 alpha), (Z.ltb_spec alpha 255); cbn [andb];
      try reflexivity; lia.
  - destruct (Z.leb_spec 0 alpha), (Z.ltb_spec alpha 255); cbn [andb];
      try reflexivity; lia.
Qed.

(** ** Clip interception *)

Lemma recordClip_ok (s : SkiaCanvas) (cur : option SaveRec)
    (shape : ClipShape) (op : SkClipOp) :
  currentSaveRec s = Ok cur ->
  recordClip shape op s = Ok (set_mClipStack (log_after_clip s cur shape op) s).
Proof.
  intros Hcur. unfold recordClip, log_after_clip, preserveClip, getMatrix.
  rewrite Hcur. cbn [bind].
  destruct cur as [r|]; [destruct (negb (hasFlag (saveFlags r) SaveFlags.Clip))|];
    destruct s; reflexivity.
Qed.

(** The record [currentSaveRec] returns where its assertion holds: the top
    record if the save count it holds is the backend's, none otherwise. *)
Lemma currentSaveRec_top (s : SkiaCanvas) :
  (forall r, hd_error (saveRecords s) = Some r ->
             saveCount r <= getSaveCount s) ->
  currentSaveRec s
  = Ok (match hd_error (saveRecords s) with
        | Some r => if saveCount r =? getSaveCount s then Some r else None
        | None => None
        end).
Proof.
  unfold currentSaveRec, saveRecords, getSaveCount. intros Hle.
  destruct (mSaveStack s) as [[|r rest]|]; cbn [hd_error] in *;
    try reflexivity.
  specialize (Hle r eq_refl).
  destruct (Z.geb_spec (sk_getSaveCount (mCanvas s)) (saveCount r));
    [reflexivity | lia].
Qed.

Lemma log_after_clip_top (s : SkiaCanvas) (shape : ClipShape) (op : SkClipOp) :
  log_after_clip s
    (match hd_error (saveRecords s) with
     | Some r => if saveCount r =? getSaveCount s then Some r else None
     | None => None
     end) shape op
  = if in_clip_preserving_frame s
    then mClipStack s ++ [Clip_new shape op (getMatrix s)]
    else mClipStack s.
Proof.
  unfold log_after_clip, in_clip_preserving_frame, getSaveCount.
  destruct (hd_error (saveRecords s)) as [r|]; [|reflexivity].
  destruct (saveCount r =? sk_getSaveCount (mCanvas s)); [|reflexivity].
  destruct (preserveClip r); reflexivity.
Qed.

(** C3, as the code has it: a clip call appends a [Clip] (shape, operator
    and the backend's total transform) to the log exactly when a record is
    on top of the stack, the save count it holds equals the backend's live
    save count, and it preserves the clip, that is, its flags lack the clip
    bit; with no record, with a top record that is not current (a full save
    or a layer was opened above it), or with a current record whose clip
    bit is set, the log is left as it is.  In every case the call is then
    forwarded to the backend. *)
Theorem clip_call_logs_when_clip_preserved (s : SkiaCanvas) :
  (forall r, hd_error (saveRecords s) = Some r ->
             saveCount r <= getSaveCount s) ->
  (forall shape op, exists s',
      recordClip shape op s = Ok s'
      /\ mClipStack s'
         = (if in_clip_preserving_frame s
            then mClipStack s ++ [Clip_new shape op (getMatrix s)]
            else mClipStack s)
      /\ mCanvas s' = mCanvas s /\ mSaveStack s' = mSaveStack s)
  /\ (forall l t r b op, exists ret s',
      clipRect l t r b op s = Ok (ret, s')
      /\ mClipStack s'
         = (if in_clip_preserving_frame s
            then mClipStack s
                 ++ [Clip_new (ShapeRect (SkRect_MakeLTRB l t r b)) op
                       (getMatrix s)]
            else mClipStack s)
      /\ mCanvas s' = sk_clipRect (SkRect_MakeLTRB l t r b) op false (mCanvas s))
  /\ (forall path op, exists ret s',
      clipPath path op s = Ok (ret, s')
      /\ mClipStack s'
         = (if in_clip_preserving_frame s
            then mClipStack s
                 ++ [Clip_new
                       (match SkPath_isRRect path with
                        | Some rr => ShapeRRect rr
                        | None => ShapePath path
                        end) op (getMatrix s)]
            else mClipStack s)
      /\ mCanvas s'
         = match SkPath_isRRect path with
           | Some rr => sk_clipRRect rr op false (mCanvas s)
           | None => sk_clipPath path op false (mCanvas s)
           end).
Proof.
  intros Hle. pose proof (currentSaveRec_top s Hle) as Hcur.
  split; [|split].
  - intros shape op. eexists. split; [apply (recordClip_ok _ _ _ _ Hcur)|].
    split; [apply log_after_clip_top|]. split; reflexivity.
  - intros l t r b op. unfold clipRect.
    rewrite (recordClip_ok _ _ _ _ Hcur). cbn [bind].
    do 2 eexists. split; [reflexivity|].
    split; [apply log_after_clip_top | reflexivity].
  - intros path op. unfold clipPath.
    destruct (SkPath_isRRect path) as [rr|];
      rewrite (recordClip_ok _ _ _ _ Hcur); cbn [bind];
      do 2 eexists; (split; [reflexivity|]);
      (split; [apply log_after_clip_top | reflexivity]).
Qed.

(** ** Clip replay *)

Lemma count_replayed (idx : nat) (s : SkiaCanvas) :
  sk_getSaveCount (mCanvas (replayed idx s)) = sk_getSaveCount (mCanvas s).
Proof.
  unfold replayed, sk_getSaveCount. cbn [mCanvas set_mCanvas sk_setMatrix fSaved].
  rewrite saved_replay. reflexivity.
Qed.

Lemma applyPersistentClips_ok (idx : nat) (s : SkiaCanvas) (cur : option SaveRec) :
  (idx <= length (mClipStack s))%nat ->
  currentSaveRec s = Ok cur ->
  applyPersistentClips idx s
  = Ok (set_mClipStack (log_after_replay idx s cur) (replayed idx s)).
Proof.
  intros Hidx Hcur. unfold applyPersistentClips.
  destruct (Nat.leb_spec idx (length (mClipStack s))) as [_|]; [|lia].
  fold (getMatrix s). fold (replayed idx s).
  rewrite (currentSaveRec_ext (replayed idx s) s), Hcur;
    [|apply count_replayed|reflexivity].
  cbn [bind]. unfold log_after_replay, preserveClip.
  destruct cur as [r|]; [destruct (hasFlag (saveFlags r) SaveFlags.Clip)|];
    cbn [negb]; reflexivity.
Qed.

Lemma log_after_replay_top (idx : nat) (s : SkiaCanvas) :
  log_after_replay idx s
    (match hd_error (saveRecords s) with
     | Some r => if saveCount r =? getSaveCount s then Some r else None
     | None => None
     end)
  = if in_clip_preserving_frame s then mClipStack s
    else firstn idx (mClipStack s).
Proof.
  unfold log_after_replay, in_clip_preserving_frame, getSaveCount.
  destruct (hd_error (saveRecords s)) as [r|]; [|reflexivity].
  destruct (saveCount r =? sk_getSaveCount (mCanvas s)); [|reflexivity].
  destruct (preserveClip r); reflexivity.
Qed.

(** C4: once the replay is done, the replayed range, from the start index to
    the end of the log, is left in place exactly when the record on top
    after the pop is current (the save count it holds is the backend's live
    save count) and preserves the clip; it is erased when there is no
    record, when the top record is not current, whatever its flags, and
    when the current record does not preserve the clip. *)
Theorem applyPersistentClips_erases_unless_current_preserves
    (clipStartIndex : nat) (s : SkiaCanvas) :
  (clipStartIndex <= length (mClipStack s))%nat ->
  (forall r, hd_error (saveRecords s) = Some r ->
             saveCount r <= getSaveCount s) ->
  exists s',
    applyPersistentClips clipStartIndex s = Ok s'
    /\ mSaveStack s' = mSaveStack s
    /\ mClipStack s'
       = (if in_clip_preserving_frame s then mClipStack s
          else firstn clipStartIndex (mClipStack s)).
Proof.
  intros Hidx Hle. pose proof (currentSaveRec_top s Hle) as Hcur.
  eexists. split; [apply (applyPersistentClips_ok _ _ _ Hidx Hcur)|].
  split; [reflexivity|].
  cbn [mClipStack set_mClipStack]. apply log_after_replay_top.
Qed.

(** C6: the replay applies each logged entry from the start index on, each
    under the transform frozen in it (an entry's application leaves that
    transform installed and combines its shape under it), and when it is
    over the backend's transform is again the one found on entry, however
    many entries were replayed. *)
Theorem applyPersistentClips_replays_under_frozen_transforms
    (clipStartIndex : nat) (s : SkiaCanvas) (cur : option SaveRec) :
  (clipStartIndex <= length (mClipStack s))%nat ->
  currentSaveRec s = Ok cur ->
  exists s',
    applyPersistentClips clipStartIndex s = Ok s'
    /\ mCanvas s'
       = sk_setMatrix (getMatrix s)
           (fold_left (fun c clip => Clip_apply clip c)
              (skipn clipStartIndex (mClipStack s)) (mCanvas s))
    /\ (forall clip c,
          sk_getTotalMatrix (Clip_apply clip c) = Clip_matrix clip
          /\ sk_getClip (Clip_apply clip c) = Clip_region clip (sk_getClip c))
    /\ sk_getClip (mCanvas s')
       = fold_left (fun reg clip => Clip_region clip reg)
           (skipn clipStartIndex (mClipStack s)) (sk_getClip (mCanvas s))
    /\ getMatrix s' = getMatrix s
    /\ getSaveCount s' = getSaveCount s.
Proof.
  intros Hidx Hcur. eexists.
  split; [apply (applyPersistentClips_ok _ _ _ Hidx Hcur)|].
  split; [reflexivity|].
  split; [intros clip c; split;
          [apply matrix_Clip_apply | apply clip_Clip_apply]|].
  split; [|split].
  - cbn [mCanvas set_mClipStack replayed set_mCanvas].
    rewrite <- clip_replay. reflexivity.
  - reflexivity.
  - unfold getSaveCount. cbn [mCanvas set_mClipStack]. apply count_replayed.
Qed.

(** ** Well-formed bookkeeping *)

Lemma recs_ok_cons (count : Z) (len : nat) (r : SaveRec) (rest : list SaveRec) :
  recs_ok count len (r :: rest) = true <->
  2 <= saveCount r /\ saveCount r <= count /\ (clipIndex r <= len)%nat
  /\ recs_ok (saveCount r - 1) (clipIndex r) rest = true.
Proof.
  cbn [recs_ok]. rewrite !andb_true_iff, !Z.leb_le, Nat.leb_le. tauto.
Qed.

Lemma recs_ok_weaken (count count' : Z) (len len' : nat) (st : list SaveRec) :
  recs_ok count len st = true ->
  count <= count' -> (len <= len')%nat ->
  recs_ok count' len' st = true.
Proof.
  destruct st as [|r rest]; [reflexivity|].
  rewrite !recs_ok_cons. intros (H2 & Hc & Hl & Hrest) Hcount Hlen.
  repeat split; try assumption; lia.
Qed.

(** On well-formed bookkeeping the save-count assertion holds. *)
Lemma currentSaveRec_wf (s : SkiaCanvas) :
  wf s = true -> exists cur, currentSaveRec s = Ok cur.
Proof.
  unfold wf, currentSaveRec, saveRecords.
  destruct (mSaveStack s) as [[|r rest]|]; cbn [hd_error]; eauto.
  rewrite recs_ok_cons. intros (_ & Hc & _).
  destruct (Z.geb_spec (sk_getSaveCount (mCanvas s)) (saveCount r)); [eauto|lia].
Qed.

Lemma currentSaveRec_None (s : SkiaCanvas) (r : SaveRec) (rest : list SaveRec) :
  currentSaveRec s = Ok None ->
  saveRecords s = r :: rest ->
  saveCount r < sk_getSaveCount (mCanvas s).
Proof.
  unfold currentSaveRec, saveRecords.
  destruct (mSaveStack s) as [st|]; [|discriminate].
  intros H ->. cbn [hd_error] in H.
  destruct (Z.geb_spec (sk_getSaveCount (mCanvas s)) (saveCount r)); [|discriminate].
  destruct (Z.eqb_spec (saveCount r) (sk_getSaveCount (mCanvas s))); [discriminate|lia].
Qed.

(** The current record is read off the records alone: a deque that was
    never allocated and an empty one are told apart by nothing. *)
Lemma currentSaveRec_records (s1 s2 : SkiaCanvas) :
  sk_getSaveCount (mCanvas s1) = sk_getSaveCount (mCanvas s2) ->
  saveRecords s1 = saveRecords s2 ->
  currentSaveRec s1 = currentSaveRec s2.
Proof.
  unfold currentSaveRec, saveRecords. intros -> Hs.
  destruct (mSaveStack s1) as [st1|], (mSaveStack s2) as [st2|]; subst;
    reflexivity.
Qed.

(** ** restore *)

Lemma restore_current (s : SkiaCanvas) (r : SaveRec) :
  currentSaveRec s = Ok (Some r) ->
  restore s
  = if preserveClip r
    then applyPersistentClips (clipIndex r) (popped s r)
    else Ok (popped s r).
Proof.
  intros Hcur. unfold restore. rewrite Hcur. cbn [bind].
  unfold popped, preserveMatrix, preserveClip, getMatrix.
  destruct (negb (hasFlag (saveFlags r) SaveFlags.Matrix)); reflexivity.
Qed.

Lemma restore_not_current (s : SkiaCanvas) :
  currentSaveRec s = Ok None ->
  restore s = Ok (set_mCanvas (sk_restore (mCanvas s)) s).
Proof.
  intros Hcur. unfold restore. rewrite Hcur. reflexivity.
Qed.

Lemma count_popped (s : SkiaCanvas) (r : SaveRec) :
  sk_getSaveCount (mCanvas (popped s r))
  = sk_getSaveCount (sk_restore (mCanvas s)).
Proof. unfold popped. destruct (preserveMatrix r); reflexivity. Qed.

Lemma stack_popped (s : SkiaCanvas) (r : SaveRec) :
  mSaveStack (popped s r) = Some (tl (saveRecords s)).
Proof. unfold popped. destruct (preserveMatrix r); reflexivity. Qed.

Lemma records_popped (s : SkiaCanvas) (r : SaveRec) :
  saveRecords (popped s r) = tl (saveRecords s).
Proof. unfold saveRecords at 1. rewrite stack_popped. reflexivity. Qed.

Lemma log_popped (s : SkiaCanvas) (r : SaveRec) :
  mClipStack (popped s r) = mClipStack s.
Proof. unfold popped. destruct (preserveMatrix r); reflexivity. Qed.

Lemma matrix_popped (s : SkiaCanvas) (r : SaveRec) :
  preserveMatrix r = true -> getMatrix (popped s r) = getMatrix s.
Proof. unfold popped. intros ->. reflexivity. Qed.

(** Popping a current record of well-formed bookkeeping leaves bookkeeping
    that is well formed even against a log cut at the record's index. *)
Lemma popped_ok (s : SkiaCanvas) (r : SaveRec) :
  wf s = true ->
  currentSaveRec s = Ok (Some r) ->
  sk_getSaveCount (mCanvas (popped s r)) = sk_getSaveCount (mCanvas s) - 1
  /\ (clipIndex r <= length (mClipStack s))%nat
  /\ recs_ok (sk_getSaveCount (mCanvas (popped s r))) (clipIndex r)
       (saveRecords (popped s r)) = true.
Proof.
  intros Hwf Hcur.
  destruct (currentSaveRec_Some _ _ Hcur) as (rest & Hst & Hcount).
  unfold wf, saveRecords in Hwf. rewrite Hst in Hwf.
  apply recs_ok_cons in Hwf. destruct Hwf as (H2 & _ & Hidx & Hrest).
  rewrite count_popped, count_restore.
  unfold saveRecords at 1. rewrite stack_popped.
  unfold saveRecords. rewrite Hst. cbn [tl].
  replace (Z.max 1 (sk_getSaveCount (mCanvas s) - 1))
    with (saveCount r - 1) by lia.
  repeat split; [lia | assumption | assumption].
Qed.

Lemma restore_wf (s : SkiaCanvas) :
  wf s = true ->
  exists s',
    restore s = Ok s' /\ wf s' = true
    /\ sk_getSaveCount (mCanvas s') = Z.max 1 (sk_getSaveCount (mCanvas s) - 1).
Proof.
  intros Hwf. destruct (currentSaveRec_wf _ Hwf) as ([r|] & Hcur).
  - destruct (popped_ok _ _ Hwf Hcur) as (Hcount & Hidx & Hrest).
    assert (Hmax : sk_getSaveCount (mCanvas (popped s r))
                   = Z.max 1 (sk_getSaveCount (mCanvas s) - 1)).
    { rewrite count_popped. apply count_restore. }
    rewrite (restore_current _ _ Hcur).
    destruct (preserveClip r).
    + assert (Hwf' : wf (popped s r) = true).
      { unfold wf. rewrite log_popped.
        apply (recs_ok_weaken _ _ _ _ _ Hrest); [lia|exact Hidx]. }
      destruct (currentSaveRec_wf _ Hwf') as (cur' & Hcur').
      assert (Hidx' : (clipIndex r <= length (mClipStack (popped s r)))%nat)
        by (rewrite log_popped; exact Hidx).
      rewrite (applyPersistentClips_ok _ _ _ Hidx' Hcur').
      eexists. split; [reflexivity|]. split.
      * unfold wf. cbn [mCanvas mClipStack set_mClipStack saveRecords mSaveStack].
        rewrite count_replayed.
        apply (recs_ok_weaken _ _ _ _ _ Hrest); [lia|].
        unfold log_after_replay.
        destruct cur' as [r'|]; [destruct (preserveClip r')|];
          rewrite ?length_firstn; lia.
      * cbn [mCanvas set_mClipStack]. rewrite count_replayed. exact Hmax.
    + eexists. split; [reflexivity|]. split; [|exact Hmax].
      unfold wf. rewrite log_popped.
      apply (recs_ok_weaken _ _ _ _ _ Hrest); [lia|exact Hidx].
  - rewrite (restore_not_current _ Hcur).
    eexists. split; [reflexivity|]. split; [|apply count_restore].
    unfold wf in *.
    change (recs_ok (sk_getSaveCount (sk_restore (mCanvas s)))
              (length (mClipStack s)) (saveRecords s) = true).
    rewrite count_restore.
    destruct (saveRecords s) as [|r rest] eqn:Hst; [reflexivity|].
    pose proof (currentSaveRec_None _ _ _ Hcur Hst) as Hlt.
    apply recs_ok_cons in Hwf. destruct Hwf as (H2 & Hc & Hidx & Hrest).
    apply recs_ok_cons. repeat split; try assumption; lia.
Qed.

(** What a returning [applyPersistentClips] has done. *)
Lemma applyPersistentClips_inv (idx : nat) (s s' : SkiaCanvas) :
  applyPersistentClips idx s = Ok s' ->
  exists cur,
    (idx <= length (mClipStack s))%nat /\ currentSaveRec s = Ok cur
    /\ s' = set_mClipStack (log_after_replay idx s cur) (replayed idx s).
Proof.
  intros Hrun.
  assert (Hidx : (idx <= length (mClipStack s))%nat).
  { unfold applyPersistentClips in Hrun.
    destruct (Nat.leb_spec idx (length (mClipStack s))); [assumption|discriminate]. }
  destruct (currentSaveRec s) as [cur| |] eqn:Hcur.
  - rewrite (applyPersistentClips_ok _ _ _ Hidx Hcur) in Hrun.
    injection Hrun as <-. exists cur. repeat split. exact Hidx.
  - exfalso. unfold applyPersistentClips in Hrun.
    destruct (Nat.leb_spec idx (length (mClipStack s))); [|discriminate].
    fold (getMatrix s) in Hrun. fold (replayed idx s) in Hrun.
    rewrite (currentSaveRec_ext (replayed idx s) s), Hcur in Hrun;
      [discriminate | apply count_replayed | reflexivity].
  - exfalso. unfold currentSaveRec in Hcur.
    destruct (match mSaveStack s with Some st => hd_error st | None => None end)
      as [r0|]; [|discriminate].
    destruct (sk_getSaveCount (mCanvas s) >=? saveCount r0); discriminate.
Qed.

(** C5: when the top record is current and preserves the matrix, a
    [restore] that returns leaves the backend's total transform equal to the
    one in effect just before the call, whatever the backend's own restore
    brought back, with the record popped and one backend frame closed; and
    on well-formed bookkeeping the call does return. *)
Theorem restore_keeps_preserved_matrix (s : SkiaCanvas) (r : SaveRec) :
  currentSaveRec s = Ok (Some r) ->
  preserveMatrix r = true ->
  (forall s',
      restore s = Ok s' ->
      getMatrix s' = getMatrix s
      /\ mSaveStack s' = Some (tl (saveRecords s))
      /\ saveRecords s = r :: saveRecords s'
      /\ sk_getSaveCount (mCanvas s') = sk_getSaveCount (sk_restore (mCanvas s)))
  /\ (wf s = true ->
      exists s', restore s = Ok s' /\ getSaveCount s' = getSaveCount s - 1).
Proof.
  intros Hcur Hpm.
  destruct (currentSaveRec_Some _ _ Hcur) as (rest & Hst & _).
  assert (Hrecs : saveRecords s = r :: tl (saveRecords s))
    by (unfold saveRecords; rewrite Hst; reflexivity).
  split.
  - intros s' Hrun. rewrite (restore_current _ _ Hcur) in Hrun.
    destruct (preserveClip r).
    + destruct (applyPersistentClips_inv _ _ _ Hrun) as (cur' & _ & _ & ->).
      split; [|split; [|split]].
      * change (getMatrix (popped s r) = getMatrix s). apply matrix_popped, Hpm.
      * change (mSaveStack (popped s r) = Some (tl (saveRecords s))).
        apply stack_popped.
      * change (saveRecords s = r :: saveRecords (popped s r)).
        rewrite records_popped. exact Hrecs.
      * change (sk_getSaveCount (mCanvas (replayed (clipIndex r) (popped s r)))
                = sk_getSaveCount (sk_restore (mCanvas s))).
        rewrite count_replayed. apply count_popped.
    + injection Hrun as <-.
      split; [|split; [|split]].
      * apply matrix_popped, Hpm.
      * apply stack_popped.
      * rewrite records_popped. exact Hrecs.
      * apply count_popped.
  - intros Hwf. destruct (restore_wf _ Hwf) as (s' & Hrun & _ & Hcount).
    exists s'. split; [exact Hrun|]. unfold getSaveCount. rewrite Hcount.
    destruct (popped_ok _ _ Hwf Hcur) as (Hc & _).
    rewrite count_popped, count_restore in Hc. lia.
Qed.

(** ** A clip-preserving frame, end to end *)

Lemma clipRect_ok (s : SkiaCanvas) (cur : option SaveRec)
    (l t r b : Scalar) (op : SkClipOp) :
  currentSaveRec s = Ok cur ->
  exec (OpClipRect l t r b op) s
  = Ok (clipped s cur (ShapeRect (SkRect_MakeLTRB l t r b)) op
          (sk_clipRect (SkRect_MakeLTRB l t r b) op false (mCanvas s))).
Proof.
  intros Hcur. cbn [exec]. unfold clipRect.
  rewrite (recordClip_ok _ _ _ _ Hcur). reflexivity.
Qed.

Lemma not_MatrixClip (flags : Z) :
  hasFlag flags SaveFlags.Clip = false ->
  (Z.land flags SaveFlags.MatrixClip =? SaveFlags.MatrixClip) = false.
Proof.
  unfold hasFlag. intros H. apply negb_false_iff, Z.eqb_eq in H.
  apply Z.eqb_neq. intros E.
  assert (E2 : Z.land (Z.land flags SaveFlags.MatrixClip) SaveFlags.Clip
               = Z.land SaveFlags.MatrixClip SaveFlags.Clip) by (rewrite E; reflexivity).
  rewrite <- Z.land_assoc in E2.
  change (Z.land SaveFlags.MatrixClip SaveFlags.Clip) with SaveFlags.Clip in E2.
  rewrite H in E2. discriminate.
Qed.

Lemma restore_saved (c : SkCanvas) : sk_restore (snd (sk_save c)) = c.
Proof. destruct c. reflexivity. Qed.

(** C1, as the code has it: a save whose flags lack the clip bit opens a
    clip-preserving frame, so both clips are logged and replayed by the
    restore.  The sequence returns.  Just before the restore the clip is the
    pre-save clip combined with A and then B under the transform of the
    calls.  After it the clip is the pre-save clip with the two logged
    entries replayed on it, each rectangle as read back from the rounded
    rectangle the log stores it as; where the backend gives a rectangle
    back unchanged from the rounded rectangle made of it, that is the
    pre-save clip combined with A and then B, the very clip in effect just
    before the restore: A and B stay in effect.  The transform, the save
    depth and the record stack are those from before the save. *)
Theorem clips_in_clip_preserving_frame_survive_restore
    (s : SkiaCanvas) (cur : option SaveRec) (flags : Z)
    (lA tA rA bA lB tB rB bB : Scalar) (opA opB : SkClipOp) :
  currentSaveRec s = Ok cur ->
  hasFlag flags SaveFlags.Clip = false ->
  exists s3 s',
    run [OpSave flags; OpClipRect lA tA rA bA opA;
         OpClipRect lB tB rB bB opB] s = Ok s3
    /\ restore s3 = Ok s'
    /\ run [OpSave flags; OpClipRect lA tA rA bA opA;
            OpClipRect lB tB rB bB opB; OpRestore] s = Ok s'
    /\ sk_getClip (mCanvas s3)
       = region_clipRect (getMatrix s) (SkRect_MakeLTRB lB tB rB bB) opB false
           (region_clipRect (getMatrix s) (SkRect_MakeLTRB lA tA rA bA) opA
              false (sk_getClip (mCanvas s)))
    /\ sk_getClip (mCanvas s')
       = region_clipRect (getMatrix s)
           (SkRRect_rect (SkRRect_MakeRect (SkRect_MakeLTRB lB tB rB bB)))
           opB false
           (region_clipRect (getMatrix s)
              (SkRRect_rect (SkRRect_MakeRect (SkRect_MakeLTRB lA tA rA bA)))
              opA false (sk_getClip (mCanvas s)))
    /\ ((forall rect, SkRRect_rect (SkRRect_MakeRect rect) = rect) ->
        sk_getClip (mCanvas s')
        = region_clipRect (getMatrix s) (SkRect_MakeLTRB lB tB rB bB) opB false
            (region_clipRect (getMatrix s) (SkRect_MakeLTRB lA tA rA bA) opA
               false (sk_getClip (mCanvas s)))
        /\ sk_getClip (mCanvas s') = sk_getClip (mCanvas s3))
    /\ getMatrix s' = getMatrix s
    /\ getSaveCount s' = getSaveCount s
    /\ saveRecords s' = saveRecords s.
Proof.
  intros Hcur Hflag.
  set (A := SkRect_MakeLTRB lA tA rA bA).
  set (B := SkRect_MakeLTRB lB tB rB bB).
  set (r0 := mkSaveRec (sk_getSaveCount (snd (sk_save (mCanvas s))))
               (Z.land flags SaveFlags.MatrixClip) (length (mClipStack s))).
  set (s1 := set_mSaveStack (Some (r0 :: saveRecords s))
               (set_mCanvas (snd (sk_save (mCanvas s))) s)).
  assert (Hsave : snd (save flags s) = s1).
  { unfold save, recordPartialSave. cbn [sk_save snd mCanvas set_mCanvas].
    rewrite (not_MatrixClip _ Hflag). reflexivity. }
  assert (Hpc : preserveClip r0 = true).
  { unfold preserveClip, r0. cbn [saveFlags].
    rewrite hasFlag_masked_Clip, Hflag. reflexivity. }
  assert (Hcur1 : currentSaveRec s1 = Ok (Some r0)).
  { apply (currentSaveRec_pushed s1 r0 (saveRecords s)); reflexivity. }
  set (s2 := clipped s1 (Some r0) (ShapeRect A) opA
               (sk_clipRect A opA false (mCanvas s1))).
  assert (Hcur2 : currentSaveRec s2 = Ok (Some r0)).
  { rewrite <- Hcur1. apply currentSaveRec_ext; reflexivity. }
  set (s3 := clipped s2 (Some r0) (ShapeRect B) opB
               (sk_clipRect B opB false (mCanvas s2))).
  assert (Hcur3 : currentSaveRec s3 = Ok (Some r0)).
  { rewrite <- Hcur2. apply currentSaveRec_ext; reflexivity. }
  set (cA := Clip_new (ShapeRect A) opA (getMatrix s)).
  set (cB := Clip_new (ShapeRect B) opB (getMatrix s)).
  assert (Hlog3 : mClipStack s3 = mClipStack s ++ [cA; cB]).
  { unfold s3, s2, clipped, log_after_clip.
    cbn [mClipStack set_mCanvas set_mClipStack]. rewrite !Hpc.
    cbn [mClipStack set_mCanvas set_mClipStack].
    rewrite <- app_assoc. reflexivity. }
  assert (Hcanvas4 : sk_restore (mCanvas s3) = mCanvas s).
  { change (mCanvas s3) with
      (sk_setClip (sk_getClip (mCanvas s3)) (snd (sk_save (mCanvas s)))).
    destruct (mCanvas s). reflexivity. }
  set (s4 := popped s3 r0).
  assert (Hc4 : mCanvas s4 = mCanvas s).
  { unfold s4, popped. destruct (preserveMatrix r0);
      cbn [mCanvas set_mCanvas set_mSaveStack]; rewrite Hcanvas4;
      [destruct s as [[[m c l] sv] st lg hc]|]; reflexivity. }
  assert (Hcur4 : currentSaveRec s4 = Ok cur).
  { rewrite <- Hcur. apply currentSaveRec_records.
    - rewrite Hc4. reflexivity.
    - unfold s4. rewrite records_popped. reflexivity. }
  assert (Hlog4 : mClipStack s4 = mClipStack s ++ [cA; cB]).
  { unfold s4. rewrite log_popped. exact Hlog3. }
  assert (Hidx : (clipIndex r0 <= length (mClipStack s4))%nat).
  { rewrite Hlog4, length_app. cbn [r0 clipIndex]. lia. }
  assert (Hrun3 : run [OpSave flags; OpClipRect lA tA rA bA opA;
                       OpClipRect lB tB rB bB opB] s = Ok s3).
  { cbn [run]. change (exec (OpSave flags) s) with (Ok (snd (save flags s))).
    cbn [bind]. rewrite Hsave.
    rewrite (clipRect_ok _ _ _ _ _ _ _ Hcur1). cbn [bind]. fold A s2.
    rewrite (clipRect_ok _ _ _ _ _ _ _ Hcur2). reflexivity. }
  assert (Hres : restore s3
                 = Ok (set_mClipStack (log_after_replay (clipIndex r0) s4 cur)
                         (replayed (clipIndex r0) s4))).
  { rewrite (restore_current _ _ Hcur3), Hpc. fold s4.
    apply (applyPersistentClips_ok _ _ _ Hidx Hcur4). }
  assert (Hclip3 : sk_getClip (mCanvas s3)
                   = region_clipRect (getMatrix s) B opB false
                       (region_clipRect (getMatrix s) A opA false
                          (sk_getClip (mCanvas s)))) by reflexivity.
  assert (Hclip' : sk_getClip
                     (fold_left (fun c clip => Clip_apply clip c)
                        (skipn (clipIndex r0) (mClipStack s4)) (mCanvas s4))
                   = Clip_region cB (Clip_region cA (sk_getClip (mCanvas s)))).
  { rewrite clip_replay, Hlog4, Hc4. cbn [r0 clipIndex].
    rewrite skipn_app, skipn_all, Nat.sub_diag. reflexivity. }
  exists s3. eexists.
  split; [exact Hrun3|]. split; [exact Hres|].
  split; [|split; [exact Hclip3|split; [exact Hclip'|split; [|split; [|split]]]]].
  - cbn [run]. change (exec (OpSave flags) s) with (Ok (snd (save flags s))).
    cbn [bind]. rewrite Hsave.
    rewrite (clipRect_ok _ _ _ _ _ _ _ Hcur1). cbn [bind]. fold A s2.
    rewrite (clipRect_ok _ _ _ _ _ _ _ Hcur2). cbn [bind]. fold B s3.
    cbn [exec]. rewrite Hres. reflexivity.
  - intros Hround.
    assert (Hdirect :
              sk_getClip
                (fold_left (fun c clip => Clip_apply clip c)
                   (skipn (clipIndex r0) (mClipStack s4)) (mCanvas s4))
              = region_clipRect (getMatrix s) B opB false
                  (region_clipRect (getMatrix s) A opA false
                     (sk_getClip (mCanvas s)))).
    { rewrite Hclip'. unfold cA, cB. cbn [Clip_new Clip_region].
      rewrite !Hround. reflexivity. }
    split; [exact Hdirect|].
    rewrite Hclip3. exact Hdirect.
  - change (getMatrix s4 = getMatrix s). unfold getMatrix. rewrite Hc4.
    reflexivity.
  - change (sk_getSaveCount (mCanvas (replayed (clipIndex r0) s4))
            = sk_getSaveCount (mCanvas s)).
    rewrite count_replayed, Hc4. reflexivity.
  - change (saveRecords s4 = saveRecords s).
    unfold s4. rewrite records_popped. reflexivity.
Qed.

(** ** restoreToCount *)

Lemma restoreToCount_done (fuel : nat) (n : Z) (s : SkiaCanvas) :
  getSaveCount s <= n -> restoreToCount fuel n s = Ok s.
Proof.
  unfold getSaveCount. intros Hle.
  destruct fuel; cbn [restoreToCount];
    destruct (Z.gtb_spec (sk_getSaveCount (mCanvas s)) n); solve [reflexivity | lia].
Qed.

Lemma restoreToCount_step (fuel : nat) (n : Z) (s : SkiaCanvas) :
  n < getSaveCount s ->
  restoreToCount (S fuel) n s = (s' <- restore s ;; restoreToCount fuel n s').
Proof.
  unfold getSaveCount. intros Hlt. cbn [restoreToCount].
  destruct (Z.gtb_spec (sk_getSaveCount (mCanvas s)) n); [reflexivity | lia].
Qed.

(** A returning [restoreToCount] is a run of restores, each issued at a
    depth above the target. *)
Lemma restoreToCount_restores (n : Z) (fuel : nat) :
  forall s s',
    restoreToCount fuel n s = Ok s' ->
    exists k,
      (k <= fuel)%nat /\ restores k s = Ok s' /\ getSaveCount s' <= n
      /\ forall j, (j < k)%nat ->
           exists sj, restores j s = Ok sj /\ n < getSaveCount sj.
Proof.
  induction fuel as [|fuel IH]; intros s s' Hrun.
  - cbn [restoreToCount] in Hrun. unfold getSaveCount.
    destruct (Z.gtb_spec (sk_getSaveCount (mCanvas s)) n); [discriminate|].
    injection Hrun as <-. exists O.
    repeat split; [lia | lia | intros j Hj; lia].
  - destruct (Z.lt_ge_cases n (getSaveCount s)) as [Hlt|Hge].
    + rewrite (restoreToCount_step _ _ _ Hlt) in Hrun.
      destruct (restore s) as [s1| |] eqn:Hres; try discriminate.
      cbn [bind] in Hrun.
      destruct (IH _ _ Hrun) as (k & Hk & Hks & Hfinal & Hbefore).
      exists (S k). repeat split.
      * lia.
      * cbn [restores]. rewrite Hres. exact Hks.
      * exact Hfinal.
      * intros [|j] Hj.
        -- exists s. split; [reflexivity | exact Hlt].
        -- destruct (Hbefore j ltac:(lia)) as (sj & Hsj & Hcount).
           exists sj. split; [|exact Hcount].
           cbn [restores]. rewrite Hres. exact Hsj.
    + rewrite (restoreToCount_done _ _ _ Hge) in Hrun.
      injection Hrun as <-. exists O.
      repeat split; [lia | exact Hge | intros j Hj; lia].
Qed.

(** On well-formed bookkeeping the loop meets no assertion: it returns a
    well-formed state or is still running when the fuel is spent. *)
Lemma restoreToCount_wf (n : Z) (fuel : nat) :
  forall s,
    wf s = true ->
    (exists s', restoreToCount fuel n s = Ok s' /\ wf s' = true)
    \/ restoreToCount fuel n s = OutOfFuel.
Proof.
  induction fuel as [|fuel IH]; intros s Hwf.
  - cbn [restoreToCount].
    destruct (sk_getSaveCount (mCanvas s) >? n); [right|left]; eauto.
  - destruct (Z.lt_ge_cases n (getSaveCount s)) as [Hlt|Hge].
    + rewrite (restoreToCount_step _ _ _ Hlt).
      destruct (restore_wf _ Hwf) as (s1 & -> & Hwf1 & _). cbn [bind].
      apply IH, Hwf1.
    + rewrite (restoreToCount_done _ _ _ Hge). left. eauto.
Qed.

(** For a target of at least one, the loop ends within as many iterations
    as there are frames above the target. *)
Lemma restoreToCount_terminates (n : Z) (fuel : nat) :
  forall s,
    wf s = true -> 1 <= n ->
    getSaveCount s - n <= Z.of_nat fuel ->
    exists s', restoreToCount fuel n s = Ok s'
               /\ getSaveCount s' = Z.min (getSaveCount s) n.
Proof.
  induction fuel as [|fuel IH]; intros s Hwf Hn Hfuel.
  - exists s. split; [apply restoreToCount_done|]; lia.
  - destruct (Z.lt_ge_cases n (getSaveCount s)) as [Hlt|Hge].
    + rewrite (restoreToCount_step _ _ _ Hlt).
      destruct (restore_wf _ Hwf) as (s1 & -> & Hwf1 & Hcount1). cbn [bind].
      fold (getSaveCount s1) (getSaveCount s) in Hcount1.
      destruct (IH s1 Hwf1 Hn ltac:(lia)) as (s' & Hrun & Hcount).
      exists s'. split; [exact Hrun | lia].
    + exists s. split; [apply restoreToCount_done; exact Hge | lia].
Qed.

(** Below the bottom: the backend never reports a depth under one and its
    restore at depth one does nothing, so for a target under one the loop
    does not end. *)
Lemma restoreToCount_below_bottom (n : Z) (fuel : nat) :
  forall s, wf s = true -> n < 1 -> restoreToCount fuel n s = OutOfFuel.
Proof.
  induction fuel as [|fuel IH]; intros s Hwf Hn;
    pose proof (count_pos (mCanvas s)) as Hpos.
  - cbn [restoreToCount].
    destruct (Z.gtb_spec (sk_getSaveCount (mCanvas s)) n); [reflexivity | lia].
  - rewrite restoreToCount_step by (unfold getSaveCount; lia).
    destruct (restore_wf _ Hwf) as (s1 & -> & Hwf1 & _). cbn [bind].
    apply IH; assumption.
Qed.

(** C8: [restoreToCount] restores only while the backend's depth is above
    the target: a returning call is a run of restores each issued at a depth
    above the target and ends at a depth not above it; when the depth is
    already at or below the target it returns the state untouched; on
    well-formed bookkeeping it meets no failure, and for a target of at
    least one it returns. *)
Theorem restoreToCount_restores_only_above_target (n : Z) (s : SkiaCanvas) :
  (getSaveCount s <= n -> forall fuel, restoreToCount fuel n s = Ok s)
  /\ (forall fuel s',
        restoreToCount fuel n s = Ok s' ->
        exists k,
          (k <= fuel)%nat /\ restores k s = Ok s' /\ getSaveCount s' <= n
          /\ forall j, (j < k)%nat ->
               exists sj, restores j s = Ok sj /\ n < getSaveCount sj)
  /\ (wf s = true -> forall fuel f, restoreToCount fuel n s <> Fatal f)
  /\ (wf s = true -> 1 <= n ->
      exists s',
        restoreToCount (Z.to_nat (getSaveCount s - n)) n s = Ok s'
        /\ getSaveCount s' = Z.min (getSaveCount s) n).
Proof.
  split; [|split; [|split]].
  - intros Hle fuel. apply restoreToCount_done, Hle.
  - intros fuel s'. apply restoreToCount_restores.
  - intros Hwf fuel f.
    destruct (restoreToCount_wf n fuel s Hwf) as [(s' & -> & _)| ->];
      discriminate.
  - intros Hwf Hn. apply restoreToCount_terminates; [assumption..|lia].
Qed.

(** ** Replace bitmap *)

Lemma copier_visits (els : list (ClipShape * SkClipOp * bool)) :
  forall dst,
    sk_getTotalMatrix (fold_left ClipCopier_visit els dst) = sk_getTotalMatrix dst
    /\ fSaved (fold_left ClipCopier_visit els dst) = fSaved dst
    /\ sk_getClip (fold_left ClipCopier_visit els dst)
       = fold_left (element_region (sk_getTotalMatrix dst)) els (sk_getClip dst).
Proof.
  induction els as [|e els IH]; intros dst; cbn [fold_left].
  - repeat split.
  - destruct (IH (ClipCopier_visit dst e)) as (Hm & Hs & Hc).
    rewrite Hm, Hs, Hc.
    destruct e as [[[rect|rrect|path] op] aa]; repeat split.
Qed.

(** C2, as the code has it: for a bitmap that is not null, [setBitmap]
    leaves a fresh backend surface, with no open save, whose total transform
    is the prior one and whose clip is the bitmap's own with the prior
    surface's active clip elements issued again on it, in order, under that
    transform, which is not in general the prior clip region; the record
    stack is dropped; the clip log is left as it was. *)
Theorem setBitmap_drops_records_keeps_log (bitmap : SkBitmap) (s : SkiaCanvas) :
  SkBitmap_isNull bitmap = false ->
  getMatrix (setBitmap bitmap s) = getMatrix s
  /\ sk_getClip (mCanvas (setBitmap bitmap s))
     = fold_left (element_region (getMatrix s))
         (region_elements (sk_getClip (mCanvas s))) (region_of_bitmap bitmap)
  /\ getSaveCount (setBitmap bitmap s) = 1
  /\ mSaveStack (setBitmap bitmap s) = None
  /\ mClipStack (setBitmap bitmap s) = mClipStack s.
Proof.
  intros Hnull. unfold setBitmap, getMatrix, getSaveCount. rewrite Hnull.
  cbn [negb mCanvas set_mSaveStack set_mCanvas mSaveStack mClipStack].
  unfold sk_replayClips, sk_getSaveCount.
  destruct (copier_visits (region_elements (sk_getClip (mCanvas s)))
              (sk_setMatrix (sk_getTotalMatrix (mCanvas s)) (sk_new bitmap)))
    as (Hm & Hs & Hc).
  rewrite Hm, Hs, Hc. repeat split.
Qed.

(** ** Every reachable state is well formed *)

Lemma wf_set_mCanvas (canvas : SkCanvas) (s : SkiaCanvas) :
  sk_getSaveCount (mCanvas s) <= sk_getSaveCount canvas ->
  wf s = true -> wf (set_mCanvas canvas s) = true.
Proof.
  unfold wf. intros Hc Hwf.
  apply (recs_ok_weaken _ _ _ _ _ Hwf); [exact Hc | apply Nat.le_refl].
Qed.

Lemma wf_set_mClipStack (log : list Clip) (s : SkiaCanvas) :
  (length (mClipStack s) <= length log)%nat ->
  wf s = true -> wf (set_mClipStack log s) = true.
Proof.
  unfold wf. intros Hl Hwf.
  apply (recs_ok_weaken _ _ _ _ _ Hwf); [apply Z.le_refl | exact Hl].
Qed.

Lemma save_wf (flags : Z) (s : SkiaCanvas) :
  wf s = true -> wf (snd (save flags s)) = true.
Proof.
  intros Hwf. unfold save, recordPartialSave.
  cbn [sk_save snd mCanvas set_mCanvas].
  destruct (Z.land flags SaveFlags.MatrixClip =? SaveFlags.MatrixClip).
  - apply wf_set_mCanvas; [|exact Hwf].
    unfold sk_getSaveCount. cbn [fSaved length]. lia.
  - unfold wf.
    cbn [mCanvas set_mSaveStack set_mCanvas mClipStack saveRecords mSaveStack].
    apply recs_ok_cons. cbn [saveCount clipIndex].
    pose proof (count_pos (mCanvas s)) as Hpos.
    unfold sk_getSaveCount in *. cbn [fSaved length].
    repeat split; try lia.
    unfold wf, sk_getSaveCount in Hwf.
    apply (recs_ok_weaken _ _ _ _ _ Hwf); lia.
Qed.

Lemma saveLayer_wf (l t r b : Scalar) (paint : option SkPaint) (flags : Z)
    (s : SkiaCanvas) :
  wf s = true -> wf (snd (saveLayer l t r b paint flags s)) = true.
Proof.
  intros Hwf. unfold saveLayer. cbn [sk_saveLayer snd].
  apply wf_set_mCanvas; [|exact Hwf].
  unfold sk_getSaveCount. cbn [fSaved length]. lia.
Qed.

Lemma length_log_after_clip (s : SkiaCanvas) (cur : option SaveRec)
    (shape : ClipShape) (op : SkClipOp) :
  (length (mClipStack s) <= length (log_after_clip s cur shape op))%nat.
Proof.
  unfold log_after_clip.
  destruct cur as [r|]; [destruct (preserveClip r)|];
    rewrite ?length_app; lia.
Qed.

Lemma clipped_wf (s : SkiaCanvas) (cur : option SaveRec)
    (shape : ClipShape) (op : SkClipOp) (canvas : SkCanvas) :
  sk_getSaveCount canvas = sk_getSaveCount (mCanvas s) ->
  wf s = true -> wf (clipped s cur shape op canvas) = true.
Proof.
  intros Hc Hwf. unfold clipped.
  apply wf_set_mCanvas; [cbn [mCanvas set_mClipStack]; lia|].
  apply wf_set_mClipStack; [apply length_log_after_clip | exact Hwf].
Qed.

Lemma clipPath_ok (s : SkiaCanvas) (cur : option SaveRec)
    (path : SkPath) (op : SkClipOp) :
  currentSaveRec s = Ok cur ->
  exec (OpClipPath path op) s
  = Ok (match SkPath_isRRect path with
        | Some rr =>
            clipped s cur (ShapeRRect rr) op (sk_clipRRect rr op false (mCanvas s))
        | None =>
            clipped s cur (ShapePath path) op (sk_clipPath path op false (mCanvas s))
        end).
Proof.
  intros Hcur. cbn [exec]. unfold clipPath.
  destruct (SkPath_isRRect path) as [rr|];
    rewrite (recordClip_ok _ _ _ _ Hcur); reflexivity.
Qed.

(** One call on well-formed bookkeeping meets no assertion, and what it
    returns is well formed again. *)
Lemma exec_wf (o : Op) (s : SkiaCanvas) :
  wf s = true ->
  (exists s', exec o s = Ok s' /\ wf s' = true) \/ exec o s = OutOfFuel.
Proof.
  intros Hwf.
  destruct o; cbn [exec];
    try (left; eexists; split; [reflexivity|];
         first [ apply save_wf, Hwf
               | apply saveLayer_wf, Hwf
               | apply wf_set_mCanvas; [apply Z.le_refl | exact Hwf]
               | reflexivity ]).
  - left. destruct (restore_wf _ Hwf) as (s' & Hr & Hwf' & _). eauto.
  - apply restoreToCount_wf, Hwf.
  - left. eexists. split; [reflexivity|]. unfold saveLayerAlpha.
    destruct (to_unsigned alpha <? 255); apply saveLayer_wf, Hwf.
  - left. destruct (currentSaveRec_wf _ Hwf) as (cur & Hcur).
    pose proof (clipRect_ok _ _ left top right bottom op Hcur) as Hex.
    cbn [exec] in Hex. rewrite Hex.
    eexists. split; [reflexivity|]. apply clipped_wf; [reflexivity | exact Hwf].
  - left. destruct (currentSaveRec_wf _ Hwf) as (cur & Hcur).
    pose proof (clipPath_ok _ _ path op Hcur) as Hex.
    cbn [exec] in Hex. rewrite Hex.
    eexists. split; [reflexivity|].
    destruct (SkPath_isRRect path); (apply clipped_wf; [reflexivity | exact Hwf]).
Qed.

Lemma reachable_wf (s : SkiaCanvas) : reachable s -> wf s = true.
Proof.
  induction 1 as [canvas | s o s' _ IH Hex].
  - reflexivity.
  - destruct (exec_wf o _ IH) as [(s'' & Hex' & Hwf)|Hout];
      rewrite Hex in *; [|discriminate].
    injection Hex' as <-. exact Hwf.
Qed.

Lemma recs_ok_In (st : list SaveRec) :
  forall count len r,
    recs_ok count len st = true -> In r st ->
    saveCount r <= count /\ (clipIndex r <= len)%nat.
Proof.
  induction st as [|r0 rest IH]; intros count len r Hok Hin; [contradiction|].
  apply recs_ok_cons in Hok. destruct Hok as (H2 & Hc & Hl & Hrest).
  destruct Hin as [<-|Hin]; [split; assumption|].
  destruct (IH _ _ _ Hrest Hin). split; lia.
Qed.

(** C9: in every state the engine can reach, the save count stored in the
    top record (indeed in every record) is at most the backend's live save
    count and every record's clip index, the only start index a replay is
    ever given, is at most the length of the clip log; so no call from such
    a state stops at either assertion. *)
Theorem assertions_unreachable (s : SkiaCanvas) :
  reachable s ->
  (forall r, In r (saveRecords s) ->
     saveCount r <= sk_getSaveCount (mCanvas s)
     /\ (clipIndex r <= length (mClipStack s))%nat)
  /\ (exists cur, currentSaveRec s = Ok cur)
  /\ (forall r, currentSaveRec s = Ok (Some r) ->
        forall s1, applyPersistentClips (clipIndex r) (popped s r) <> Fatal s1)
  /\ (forall o f, exec o s <> Fatal f).
Proof.
  intros Hreach. pose proof (reachable_wf _ Hreach) as Hwf.
  split; [|split; [|split]].
  - intros r Hin. apply (recs_ok_In _ _ _ _ Hwf Hin).
  - apply currentSaveRec_wf, Hwf.
  - intros r Hcur f.
    destruct (popped_ok _ _ Hwf Hcur) as (Hcount & Hidx & Hrest).
    assert (Hwf' : wf (popped s r) = true).
    { unfold wf. rewrite log_popped.
      apply (recs_ok_weaken _ _ _ _ _ Hrest); [lia|exact Hidx]. }
    destruct (currentSaveRec_wf _ Hwf') as (cur' & Hcur').
    rewrite <- (log_popped s r) in Hidx.
    rewrite (applyPersistentClips_ok _ _ _ Hidx Hcur'). discriminate.
  - intros o f.
    destruct (exec_wf o _ Hwf) as [(s' & -> & _)| ->]; discriminate.
Qed.

(** ** Calls made inside a frame *)

Lemma saved_sk_flat (o : Op) (c : SkCanvas) : fSaved (sk_flat o c) = fSaved c.
Proof.
  destruct o; try reflexivity.
  cbn [sk_flat]. destruct (SkPath_isRRect path); reflexivity.
Qed.

Lemma saved_flat_fold (ops : list Op) :
  forall c, fSaved (fold_left (fun c o => sk_flat o c) ops c) = fSaved c.
Proof.
  induction ops as [|o ops IH]; intros c; cbn [fold_left].
  - reflexivity.
  - rewrite IH. apply saved_sk_flat.
Qed.

(** The transform and the clip after such a call depend on the transform
    and the clip before it, not on the rest of the backend. *)
Lemma sk_flat_ext (o : Op) (c c' : SkCanvas) :
  sk_getTotalMatrix c = sk_getTotalMatrix c' ->
  sk_getClip c = sk_getClip c' ->
  sk_getTotalMatrix (sk_flat o c) = sk_getTotalMatrix (sk_flat o c')
  /\ sk_getClip (sk_flat o c) = sk_getClip (sk_flat o c').
Proof.
  intros Hm Hc.
  destruct o; cbn [sk_flat]; try (split; assumption);
    try (unfold sk_concat, sk_setMatrix, sk_getTotalMatrix, sk_getClip in *;
         cbn [fTop fMatrix fClip]; rewrite ?Hm; split; [reflexivity|assumption]).
  - unfold sk_clipRect, sk_setClip, sk_getTotalMatrix, sk_getClip in *.
    cbn [fTop fMatrix fClip]. rewrite Hm, Hc. split; reflexivity.
  - destruct (SkPath_isRRect path);
      unfold sk_clipRRect, sk_clipPath, sk_setClip, sk_getTotalMatrix, sk_getClip in *;
      cbn [fTop fMatrix fClip]; rewrite Hm, Hc; split; reflexivity.
Qed.

Lemma flat_fold_ext (ops : list Op) :
  forall c c',
    sk_getTotalMatrix c = sk_getTotalMatrix c' ->
    sk_getClip c = sk_getClip c' ->
    sk_getTotalMatrix (fold_left (fun c o => sk_flat o c) ops c)
    = sk_getTotalMatrix (fold_left (fun c o => sk_flat o c) ops c')
    /\ sk_getClip (fold_left (fun c o => sk_flat o c) ops c)
       = sk_getClip (fold_left (fun c o => sk_flat o c) ops c')
    /\ flat_log ops c = flat_log ops c'.
Proof.
  induction ops as [|o ops IH]; intros c c' Hm Hc; cbn [fold_left flat_log].
  - repeat split; assumption.
  - destruct (sk_flat_ext o c c' Hm Hc) as (Hm' & Hc').
    destruct (IH _ _ Hm' Hc') as (H1 & H2 & H3).
    rewrite Hm, H3. repeat split; assumption.
Qed.

Lemma set_fields_id (s : SkiaCanvas) :
  set_mCanvas (mCanvas s) (set_mClipStack (mClipStack s) s) = s.
Proof. destruct s. reflexivity. Qed.

Lemma exec_flat (o : Op) (cur : option SaveRec) (s : SkiaCanvas) :
  flat o = true ->
  currentSaveRec s = Ok cur ->
  exec o s = Ok (flat_state [o] cur s).
Proof.
  intros Hflat Hcur. unfold flat_state. cbn [fold_left flat_log].
  destruct o; try discriminate Hflat; cbn [clip_shape sk_flat];
    try (cbn [exec app]; destruct (logging cur); rewrite app_nil_r;
         destruct s; reflexivity).
  - rewrite (clipRect_ok _ _ _ _ _ _ _ Hcur). unfold clipped, log_after_clip, logging.
    rewrite app_nil_r.
    destruct cur as [r|]; [destruct (preserveClip r)|];
      rewrite ?app_nil_r; reflexivity.
  - rewrite (clipPath_ok _ _ _ _ Hcur). unfold clipped, log_after_clip, logging.
    rewrite app_nil_r.
    destruct (SkPath_isRRect path);
      (destruct cur as [r|]; [destruct (preserveClip r)|]);
      rewrite ?app_nil_r; reflexivity.
Qed.

Lemma flat_state_cons (o : Op) (ops : list Op) (cur : option SaveRec)
    (s : SkiaCanvas) :
  flat_state (o :: ops) cur s = flat_state ops cur (flat_state [o] cur s).
Proof.
  unfold flat_state.
  cbn [fold_left flat_log mCanvas mClipStack set_mCanvas set_mClipStack
       mSaveStack mHighContrastText].
  destruct (logging cur); rewrite ?app_nil_r, <- ?app_assoc; reflexivity.
Qed.

Lemma currentSaveRec_flat_state (ops : list Op) (cur : option SaveRec)
    (s : SkiaCanvas) :
  currentSaveRec (flat_state ops cur s) = currentSaveRec s.
Proof.
  apply currentSaveRec_ext; [|reflexivity].
  unfold flat_state, sk_getSaveCount. cbn [mCanvas set_mCanvas].
  rewrite saved_flat_fold. reflexivity.
Qed.

(** A run of such calls never fails where the save-count assertion holds,
    and leaves the record stack and the depth alone. *)
Lemma run_flat (ops : list Op) (cur : option SaveRec) :
  forall s,
    forallb flat ops = true ->
    currentSaveRec s = Ok cur ->
    run ops s = Ok (flat_state ops cur s).
Proof.
  induction ops as [|o ops IH]; intros s Hflat Hcur.
  - unfold flat_state. cbn [run fold_left flat_log].
    destruct (logging cur); rewrite app_nil_r, set_fields_id; reflexivity.
  - cbn [forallb] in Hflat. apply andb_true_iff in Hflat.
    destruct Hflat as (Ho & Hops).
    cbn [run]. rewrite (exec_flat _ _ _ Ho Hcur). cbn [bind].
    rewrite (flat_state_cons o ops). apply IH; [exact Hops|].
    rewrite currentSaveRec_flat_state. exact Hcur.
Qed.

Lemma run_app (a b : list Op) :
  forall s, run (a ++ b) s = (s' <- run a s ;; run b s').
Proof.
  induction a as [|o a IH]; intros s; cbn [app run].
  - reflexivity.
  - destruct (exec o s) as [s1| |]; cbn [bind]; [apply IH | reflexivity..].
Qed.

(** A record that is not deeper than the backend is not current once the
    backend is one frame deeper. *)
Lemma currentSaveRec_deeper (s : SkiaCanvas) (cur : option SaveRec)
    (canvas : SkCanvas) :
  currentSaveRec s = Ok cur ->
  sk_getSaveCount (mCanvas s) < sk_getSaveCount canvas ->
  currentSaveRec (set_mCanvas canvas s) = Ok None.
Proof.
  unfold currentSaveRec. cbn [mCanvas mSaveStack set_mCanvas].
  destruct (match mSaveStack s with Some st => hd_error st | None => None end)
    as [r|]; [|reflexivity].
  destruct (Z.geb_spec (sk_getSaveCount (mCanvas s)) (saveCount r));
    [|discriminate].
  intros _ Hlt.
  destruct (Z.geb_spec (sk_getSaveCount canvas) (saveCount r)); [|lia].
  destruct (Z.eqb_spec (saveCount r) (sk_getSaveCount canvas)); [lia|reflexivity].
Qed.

Lemma restore_over (c2 c : SkCanvas) :
  fSaved c2 = fTop c :: fSaved c -> sk_restore c2 = c.
Proof. unfold sk_restore. intros ->. destruct c. reflexivity. Qed.

Lemma opens_full_frame_exec (o : Op) (s : SkiaCanvas) :
  opens_full_frame o = true ->
  exists c1,
    exec o s = Ok (set_mCanvas c1 s)
    /\ fSaved c1 = fTop (mCanvas s) :: fSaved (mCanvas s).
Proof.
  destruct o; try discriminate; cbn [opens_full_frame exec]; intros Hfull.
  - unfold save, recordPartialSave. cbn [sk_save snd]. rewrite Hfull.
    eexists. split; reflexivity.
  - unfold saveLayer. cbn [sk_saveLayer snd]. eexists. split; reflexivity.
  - unfold saveLayerAlpha.
    destruct (to_unsigned alpha <? 255); unfold saveLayer; cbn [sk_saveLayer snd];
      eexists; split; reflexivity.
Qed.

(** A frame with no record of its own, with any transform and clip calls
    inside: the restore goes the fast path and the engine is exactly as it
    was before the frame was opened. *)
Lemma closed_frame_run (c1 : SkCanvas) (ops : list Op) (cur : option SaveRec)
    (s : SkiaCanvas) :
  fSaved c1 = fTop (mCanvas s) :: fSaved (mCanvas s) ->
  forallb flat ops = true ->
  currentSaveRec s = Ok cur ->
  run (ops ++ [OpRestore]) (set_mCanvas c1 s) = Ok s.
Proof.
  intros Hsaved Hflat Hcur.
  assert (Hcur1 : currentSaveRec (set_mCanvas c1 s) = Ok None).
  { apply (currentSaveRec_deeper _ _ _ Hcur).
    unfold sk_getSaveCount. rewrite Hsaved. cbn [length]. lia. }
  rewrite run_app, (run_flat _ _ _ Hflat Hcur1). cbn [bind run exec].
  rewrite restore_not_current
    by (rewrite currentSaveRec_flat_state; exact Hcur1).
  cbn [bind]. f_equal.
  unfold flat_state. cbn [logging mCanvas set_mCanvas set_mClipStack mClipStack
                           mSaveStack mHighContrastText].
  rewrite app_nil_r.
  rewrite (restore_over _ (mCanvas s))
    by (rewrite saved_flat_fold; exact Hsaved).
  destruct s; reflexivity.
Qed.

Lemma full_flags (flags : Z) :
  (Z.land flags SaveFlags.MatrixClip =? SaveFlags.MatrixClip) = true ->
  hasFlag flags SaveFlags.Matrix = true /\ hasFlag flags SaveFlags.Clip = true.
Proof.
  intros H. apply Z.eqb_eq in H.
  rewrite <- hasFlag_masked_Matrix, <- hasFlag_masked_Clip, H. split; reflexivity.
Qed.

Lemma matrix_popped_restored (s : SkiaCanvas) (r : SaveRec) :
  preserveMatrix r = false ->
  getMatrix (popped s r) = sk_getTotalMatrix (sk_restore (mCanvas s)).
Proof. unfold popped. intros ->. reflexivity. Qed.

Lemma clip_popped (s : SkiaCanvas) (r : SaveRec) :
  sk_getClip (mCanvas (popped s r)) = sk_getClip (sk_restore (mCanvas s)).
Proof. unfold popped. destruct (preserveMatrix r); reflexivity. Qed.

Lemma saved_popped (s : SkiaCanvas) (r : SaveRec) :
  fSaved (mCanvas (popped s r)) = fSaved (sk_restore (mCanvas s)).
Proof. unfold popped. destruct (preserveMatrix r); reflexivity. Qed.

(** A partial frame with transform and clip calls inside, from the save to
    the restore. *)
Lemma partial_frame_run (flags : Z) (ops : list Op) (cur : option SaveRec)
    (s : SkiaCanvas) :
  (Z.land flags SaveFlags.MatrixClip =? SaveFlags.MatrixClip) = false ->
  forallb flat ops = true ->
  currentSaveRec s = Ok cur ->
  exists s',
    run (OpSave flags :: ops ++ [OpRestore]) s = Ok s'
    /\ getMatrix s'
       = (if hasFlag flags SaveFlags.Matrix then getMatrix s
          else sk_getTotalMatrix
                 (fold_left (fun c o => sk_flat o c) ops (mCanvas s)))
    /\ sk_getClip (mCanvas s')
       = (if hasFlag flags SaveFlags.Clip then sk_getClip (mCanvas s)
          else fold_left (fun reg clip => Clip_region clip reg)
                 (flat_log ops (mCanvas s)) (sk_getClip (mCanvas s)))
    /\ fSaved (mCanvas s') = fSaved (mCanvas s)
    /\ saveRecords s' = saveRecords s
    /\ mClipStack s'
       = mClipStack s
         ++ (if negb (hasFlag flags SaveFlags.Clip) && logging cur
             then flat_log ops (mCanvas s) else []).
Proof.
  intros Hpart Hflat Hcur.
  set (c := mCanvas s).
  set (c1 := snd (sk_save c)).
  set (r0 := mkSaveRec (sk_getSaveCount c1)
               (Z.land flags SaveFlags.MatrixClip) (length (mClipStack s))).
  set (s1 := set_mSaveStack (Some (r0 :: saveRecords s)) (set_mCanvas c1 s)).
  assert (Hsave : snd (save flags s) = s1).
  { unfold save, recordPartialSave. cbn [sk_save snd mCanvas set_mCanvas].
    rewrite Hpart. reflexivity. }
  assert (Hpm : preserveMatrix r0 = negb (hasFlag flags SaveFlags.Matrix)).
  { unfold preserveMatrix, r0. cbn [saveFlags].
    rewrite hasFlag_masked_Matrix. reflexivity. }
  assert (Hpc : preserveClip r0 = negb (hasFlag flags SaveFlags.Clip)).
  { unfold preserveClip, r0. cbn [saveFlags].
    rewrite hasFlag_masked_Clip. reflexivity. }
  assert (Hcur1 : currentSaveRec s1 = Ok (Some r0)).
  { apply (currentSaveRec_pushed s1 r0 (saveRecords s)); reflexivity. }
  set (s2 := flat_state ops (Some r0) s1).
  assert (Hcur2 : currentSaveRec s2 = Ok (Some r0)).
  { unfold s2. rewrite currentSaveRec_flat_state. exact Hcur1. }
  destruct (flat_fold_ext ops c1 c eq_refl eq_refl) as (Hm2 & _ & Hlog).
  assert (Hrestore : sk_restore (mCanvas s2) = c).
  { apply restore_over. change (mCanvas s2) with
      (fold_left (fun c o => sk_flat o c) ops c1).
    rewrite saved_flat_fold. reflexivity. }
  set (p := popped s2 r0).
  assert (Hlogp : mClipStack p
                  = mClipStack s
                    ++ (if preserveClip r0 then flat_log ops c else [])).
  { unfold p. rewrite log_popped. unfold s2, flat_state.
    cbn [mClipStack set_mCanvas set_mClipStack logging mCanvas s1 set_mSaveStack].
    rewrite Hlog. reflexivity. }
  assert (Hrecp : saveRecords p = saveRecords s).
  { unfold p. rewrite records_popped. reflexivity. }
  assert (Hsavedp : fSaved (mCanvas p) = fSaved c).
  { unfold p. rewrite saved_popped, Hrestore. reflexivity. }
  assert (Hclipp : sk_getClip (mCanvas p) = sk_getClip c).
  { unfold p. rewrite clip_popped, Hrestore. reflexivity. }
  assert (Hmatp : getMatrix p
                  = if hasFlag flags SaveFlags.Matrix then getMatrix s
                    else sk_getTotalMatrix
                           (fold_left (fun c o => sk_flat o c) ops c)).
  { unfold p. destruct (hasFlag flags SaveFlags.Matrix); cbn [negb] in Hpm.
    - rewrite (matrix_popped_restored _ _ Hpm), Hrestore. reflexivity.
    - rewrite (matrix_popped _ _ Hpm). rewrite <- Hm2. reflexivity. }
  assert (Hcurp : currentSaveRec p = Ok cur).
  { rewrite <- Hcur. apply currentSaveRec_records; [|exact Hrecp].
    unfold sk_getSaveCount. rewrite Hsavedp. reflexivity. }
  cbn [run]. change (exec (OpSave flags) s) with (Ok (snd (save flags s))).
  cbn [bind]. rewrite Hsave.
  rewrite run_app, (run_flat _ _ _ Hflat Hcur1). fold s2. cbn [bind run exec].
  rewrite (restore_current _ _ Hcur2). fold p.
  rewrite Hpc in *.
  destruct (hasFlag flags SaveFlags.Clip); cbn [negb andb] in *.
  - rewrite app_nil_r in *. eexists. split; [reflexivity|].
    cbn [bind]. repeat split; assumption.
  - assert (Hidx : (clipIndex r0 <= length (mClipStack p))%nat).
    { rewrite Hlogp, length_app. cbn [r0 clipIndex]. lia. }
    rewrite (applyPersistentClips_ok _ _ _ Hidx Hcurp). cbn [bind].
    eexists. split; [reflexivity|].
    split; [exact Hmatp|]. split; [|split; [|split]].
    + change (sk_getClip
                (fold_left (fun c clip => Clip_apply clip c)
                   (skipn (clipIndex r0) (mClipStack p)) (mCanvas p))
              = fold_left (fun reg clip => Clip_region clip reg)
                  (flat_log ops c) (sk_getClip c)).
      rewrite clip_replay, Hlogp, Hclipp. cbn [r0 clipIndex].
      rewrite skipn_app, skipn_all, Nat.sub_diag. reflexivity.
    + change (fSaved (sk_setMatrix (getMatrix p)
                        (fold_left (fun c clip => Clip_apply clip c)
                           (skipn (clipIndex r0) (mClipStack p)) (mCanvas p)))
              = fSaved c).
      cbn [sk_setMatrix fSaved]. rewrite saved_replay. exact Hsavedp.
    + exact Hrecp.
    + change (log_after_replay (clipIndex r0) p cur
              = mClipStack s ++ (if logging cur then flat_log ops c else [])).
      unfold log_after_replay, logging. rewrite Hlogp. cbn [r0 clipIndex].
      destruct cur as [r|]; [destruct (preserveClip r)|];
        rewrite ?firstn_app, ?firstn_all, ?Nat.sub_diag, ?app_nil_r;
        reflexivity.
Qed.

(** Any frame opened by [save], whatever the flags. *)
Lemma frame_run (flags : Z) (ops : list Op) (cur : option SaveRec)
    (s : SkiaCanvas) :
  forallb flat ops = true ->
  currentSaveRec s = Ok cur ->
  exists s',
    run (OpSave flags :: ops ++ [OpRestore]) s = Ok s'
    /\ getMatrix s'
       = (if hasFlag flags SaveFlags.Matrix then getMatrix s
          else sk_getTotalMatrix
                 (fold_left (fun c o => sk_flat o c) ops (mCanvas s)))
    /\ sk_getClip (mCanvas s')
       = (if hasFlag flags SaveFlags.Clip then sk_getClip (mCanvas s)
          else fold_left (fun reg clip => Clip_region clip reg)
                 (flat_log ops (mCanvas s)) (sk_getClip (mCanvas s)))
    /\ fSaved (mCanvas s') = fSaved (mCanvas s)
    /\ saveRecords s' = saveRecords s
    /\ mClipStack s'
       = mClipStack s
         ++ (if negb (hasFlag flags SaveFlags.Clip) && logging cur
             then flat_log ops (mCanvas s) else []).
Proof.
  intros Hflat Hcur.
  destruct (Z.land flags SaveFlags.MatrixClip =? SaveFlags.MatrixClip) eqn:Hfull.
  - destruct (full_flags _ Hfull) as (-> & ->). exists s. split.
    + destruct (opens_full_frame_exec (OpSave flags) s Hfull)
        as (c1 & Hex & Hsaved).
      cbn [run]. rewrite Hex. cbn [bind].
      apply (closed_frame_run c1 ops cur s Hsaved Hflat Hcur).
    + cbn [negb andb]. rewrite app_nil_r. repeat split.
  - apply partial_frame_run; assumption.
Qed.

(** The run up to the restore, and the restore that closes the frame. *)
Lemma frame_run_split (flags : Z) (ops : list Op) (cur : option SaveRec)
    (s : SkiaCanvas) :
  forallb flat ops = true ->
  currentSaveRec s = Ok cur ->
  exists s2 s',
    run (OpSave flags :: ops) s = Ok s2
    /\ mCanvas s2
       = fold_left (fun c o => sk_flat o c) ops (snd (sk_save (mCanvas s)))
    /\ restore s2 = Ok s'
    /\ run (OpSave flags :: ops ++ [OpRestore]) s = Ok s'.
Proof.
  intros Hflat Hcur.
  destruct (frame_run flags ops cur s Hflat Hcur) as (s' & Hrun & _).
  assert (Hcur1 : exists cur1, currentSaveRec (snd (save flags s)) = Ok cur1).
  { unfold save, recordPartialSave. cbn [sk_save snd mCanvas set_mCanvas].
    destruct (Z.land flags SaveFlags.MatrixClip =? SaveFlags.MatrixClip).
    - exists None. apply (currentSaveRec_deeper _ _ _ Hcur).
      unfold sk_getSaveCount. cbn [fSaved length]. lia.
    - eexists. eapply currentSaveRec_pushed; reflexivity. }
  destruct Hcur1 as (cur1 & Hcur1).
  assert (Hrun2 : run (OpSave flags :: ops) s
                  = Ok (flat_state ops cur1 (snd (save flags s)))).
  { cbn [run]. change (exec (OpSave flags) s) with (Ok (snd (save flags s))).
    cbn [bind]. apply run_flat; assumption. }
  exists (flat_state ops cur1 (snd (save flags s))), s'.
  split; [exact Hrun2|]. split.
  - unfold flat_state, save, recordPartialSave.
    cbn [sk_save snd mCanvas set_mCanvas].
    destruct (Z.land flags SaveFlags.MatrixClip =? SaveFlags.MatrixClip);
      reflexivity.
  - split; [|exact Hrun].
    change (OpSave flags :: ops ++ [OpRestore])
      with ((OpSave flags :: ops) ++ [OpRestore]) in Hrun.
    rewrite run_app, Hrun2 in Hrun. cbn [bind run exec] in Hrun.
    destruct (restore (flat_state ops cur1 (snd (save flags s))))
      as [s3| |]; cbn [bind] in Hrun; [|discriminate..].
    exact Hrun.
Qed.

(** Replaying the entries logged by a run of calls gives the clip the calls
    themselves gave, as long as a rectangle comes back unchanged from the
    rounded rectangle it is stored as. *)
Lemma replay_matches_calls (ops : list Op) :
  (forall rect, SkRRect_rect (SkRRect_MakeRect rect) = rect) ->
  forall c,
    fold_left (fun reg clip => Clip_region clip reg) (flat_log ops c)
      (sk_getClip c)
    = sk_getClip (fold_left (fun c o => sk_flat o c) ops c).
Proof.
  intros Hround. induction ops as [|o ops IH]; intros c;
    cbn [flat_log fold_left]; [reflexivity|].
  rewrite fold_left_app, <- IH. f_equal.
  destruct o; try reflexivity; cbn [clip_shape sk_flat fold_left Clip_new].
  - cbn [Clip_region]. rewrite Hround. reflexivity.
  - destruct (SkPath_isRRect path); reflexivity.
Qed.

(** X1: a frame opened by [save], with any transform and clip calls inside,
    closed by [restore].  The sequence returns.  Afterwards the transform is
    the pre-save one if the matrix bit was given and the one in effect just
    before the restore if not; the clip is the pre-save one if the clip bit
    was given and otherwise the pre-save clip with the frame's clips
    replayed on it, each under the transform of its call; the backend's
    saved frames and the record stack are those from before the save; the
    log has grown by the frame's clips only if the frame and the enclosing
    current record both preserve the clip. *)
Theorem save_restore_frame (flags : Z) (ops : list Op) (cur : option SaveRec)
    (s : SkiaCanvas) :
  forallb flat ops = true ->
  currentSaveRec s = Ok cur ->
  exists s',
    run (OpSave flags :: ops ++ [OpRestore]) s = Ok s'
    /\ getMatrix s'
       = (if hasFlag flags SaveFlags.Matrix then getMatrix s
          else sk_getTotalMatrix
                 (fold_left (fun c o => sk_flat o c) ops (mCanvas s)))
    /\ sk_getClip (mCanvas s')
       = (if hasFlag flags SaveFlags.Clip then sk_getClip (mCanvas s)
          else fold_left (fun reg clip => Clip_region clip reg)
                 (flat_log ops (mCanvas s)) (sk_getClip (mCanvas s)))
    /\ fSaved (mCanvas s') = fSaved (mCanvas s)
    /\ saveRecords s' = saveRecords s
    /\ mClipStack s'
       = mClipStack s
         ++ (if negb (hasFlag flags SaveFlags.Clip) && logging cur
             then flat_log ops (mCanvas s) else []).
Proof.
  intros Hflat Hcur.
  destruct (Z.land flags SaveFlags.MatrixClip =? SaveFlags.MatrixClip) eqn:Hfull.
  - destruct (full_flags _ Hfull) as (-> & ->). exists s. split.
    + destruct (opens_full_frame_exec (OpSave flags) s Hfull)
        as (c1 & Hex & Hsaved).
      cbn [run]. rewrite Hex. cbn [bind].
      apply (closed_frame_run c1 ops cur s Hsaved Hflat Hcur).
    + cbn [negb andb]. rewrite app_nil_r. repeat split.
  - apply partial_frame_run; assumption.
Qed.

(** X2: a frame the backend restores whole (a save with both bits, a
    [saveLayer] or a [saveLayerAlpha]), with any transform and clip calls
    inside, closed by [restore], leaves the engine exactly as it was: no
    record is pushed, no clip is logged and the restore takes the fast
    path. *)
Theorem full_frame_restores_state (o : Op) (ops : list Op)
    (cur : option SaveRec) (s : SkiaCanvas) :
  opens_full_frame o = true ->
  forallb flat ops = true ->
  currentSaveRec s = Ok cur ->
  run (o :: ops ++ [OpRestore]) s = Ok s.
Proof.
  intros Hfull Hflat Hcur.
  destruct (opens_full_frame_exec o s Hfull) as (c1 & Hex & Hsaved).
  cbn [run]. rewrite Hex. cbn [bind].
  apply (closed_frame_run c1 ops cur s Hsaved Hflat Hcur).
Qed.

(** X3: the clip counterpart of the preserved matrix.  Where a rectangle
    comes back unchanged from the rounded rectangle it is stored as, the
    restore of a frame opened without the clip bit leaves the clip exactly
    as it was just before the restore, one backend frame lower. *)
Theorem restore_keeps_preserved_clip (flags : Z) (ops : list Op)
    (cur : option SaveRec) (s : SkiaCanvas) :
  (forall rect, SkRRect_rect (SkRRect_MakeRect rect) = rect) ->
  forallb flat ops = true ->
  currentSaveRec s = Ok cur ->
  hasFlag flags SaveFlags.Clip = false ->
  exists s2 s',
    run (OpSave flags :: ops) s = Ok s2
    /\ restore s2 = Ok s'
    /\ sk_getClip (mCanvas s') = sk_getClip (mCanvas s2)
    /\ fSaved (mCanvas s2) = fTop (mCanvas s) :: fSaved (mCanvas s)
    /\ fSaved (mCanvas s') = fSaved (mCanvas s).
Proof.
  intros Hround Hflat Hcur Hclip.
  destruct (frame_run_split flags ops cur s Hflat Hcur)
    as (s2 & s' & Hrun2 & Hc2 & Hres & Hrun).
  destruct (frame_run flags ops cur s Hflat Hcur)
    as (s'' & Hrun' & _ & Hclip' & Hsaved' & _).
  rewrite Hrun in Hrun'. injection Hrun' as <-.
  exists s2, s'. split; [exact Hrun2|]. split; [exact Hres|].
  split; [|split; [|exact Hsaved']].
  - rewrite Hclip', Hclip, Hc2, (replay_matches_calls ops Hround).
    apply (flat_fold_ext ops (mCanvas s) (snd (sk_save (mCanvas s))));
      reflexivity.
  - rewrite Hc2, saved_flat_fold. reflexivity.
Qed.

(** X4: the value [save] returns names the frame it opens.  After any
    transform and clip calls, [restoreToCount] on that value runs the
    frame's restore once and stops, at the depth from before the save. *)
Theorem restoreToCount_closes_saved_frame (flags : Z) (ops : list Op)
    (cur : option SaveRec) (s : SkiaCanvas) :
  forallb flat ops = true ->
  currentSaveRec s = Ok cur ->
  exists s2 s',
    run (OpSave flags :: ops) s = Ok s2
    /\ restore s2 = Ok s'
    /\ (forall fuel,
          restoreToCount (S fuel) (fst (save flags s)) s2 = Ok s')
    /\ getSaveCount s' = getSaveCount s
    /\ saveRecords s' = saveRecords s.
Proof.
  intros Hflat Hcur.
  destruct (frame_run_split flags ops cur s Hflat Hcur)
    as (s2 & s' & Hrun2 & Hc2 & Hres & Hrun).
  destruct (frame_run flags ops cur s Hflat Hcur)
    as (s'' & Hrun' & _ & _ & Hsaved' & Hrecs & _).
  rewrite Hrun in Hrun'. injection Hrun' as <-.
  assert (Hcount : getSaveCount s' = getSaveCount s).
  { unfold getSaveCount, sk_getSaveCount. rewrite Hsaved'. reflexivity. }
  assert (Htoken : fst (save flags s) = getSaveCount s) by reflexivity.
  exists s2, s'. split; [exact Hrun2|]. split; [exact Hres|].
  split; [|split; assumption].
  intros fuel. rewrite restoreToCount_step, Hres.
  - cbn [bind]. apply restoreToCount_done. rewrite Hcount, Htoken. lia.
  - rewrite Htoken. unfold getSaveCount, sk_getSaveCount.
    rewrite Hc2, saved_flat_fold. cbn [sk_save snd fSaved length]. lia.
Qed.

(** ** The clip log between frames *)

Lemma log_owned_ext (s s' : SkiaCanvas) :
  mClipStack s' = mClipStack s ->
  (forall r, In r (saveRecords s) -> preserveClip r = true ->
             In r (saveRecords s')) ->
  log_owned s -> log_owned s'.
Proof.
  unfold log_owned. intros Hlog Hrecs [Hempty|(r & Hin & Hpc & Hidx)].
  - left. rewrite Hlog. exact Hempty.
  - right. exists r. repeat split; auto.
Qed.

Lemma clipped_log_owned (s : SkiaCanvas) (cur : option SaveRec)
    (shape : ClipShape) (op : SkClipOp) (canvas : SkCanvas) :
  wf s = true -> currentSaveRec s = Ok cur ->
  log_owned s -> log_owned (clipped s cur shape op canvas).
Proof.
  intros Hwf Hcur Hown. unfold log_owned, clipped.
  cbn [mClipStack set_mCanvas set_mClipStack].
  change (saveRecords (set_mCanvas canvas
            (set_mClipStack (log_after_clip s cur shape op) s)))
    with (saveRecords s).
  destruct Hown as [Hempty|Hr]; [|right; exact Hr].
  unfold log_after_clip. destruct cur as [r|]; [|left; exact Hempty].
  destruct (preserveClip r) eqn:Hpc; [|left; exact Hempty].
  right. exists r.
  destruct (currentSaveRec_Some _ _ Hcur) as (rest & Hst & _).
  assert (Hin : In r (saveRecords s))
    by (unfold saveRecords; rewrite Hst; left; reflexivity).
  split; [exact Hin|]. split; [exact Hpc|].
  destruct (recs_ok_In _ _ _ _ Hwf Hin) as (_ & Hidx).
  rewrite Hempty in Hidx. cbn [length] in Hidx. lia.
Qed.

Lemma restore_log_owned (s s' : SkiaCanvas) :
  wf s = true -> log_owned s -> restore s = Ok s' -> log_owned s'.
Proof.
  intros Hwf Hown Hrun.
  destruct (currentSaveRec_wf _ Hwf) as ([r|] & Hcur).
  - destruct (currentSaveRec_Some _ _ Hcur) as (rest & Hst & _).
    assert (Hrecs : saveRecords s = r :: rest)
      by (unfold saveRecords; rewrite Hst; reflexivity).
    assert (Hrecp : saveRecords (popped s r) = rest)
      by (rewrite records_popped, Hrecs; reflexivity).
    destruct (popped_ok _ _ Hwf Hcur) as (_ & _ & Hrest).
    rewrite Hrecp in Hrest.
    rewrite (restore_current _ _ Hcur) in Hrun.
    destruct (preserveClip r) eqn:Hpc.
    + destruct (applyPersistentClips_inv _ _ _ Hrun)
        as (cur' & _ & Hcur' & ->).
      unfold log_owned. cbn [mClipStack set_mClipStack].
      change (saveRecords (set_mClipStack
                (log_after_replay (clipIndex r) (popped s r) cur')
                (replayed (clipIndex r) (popped s r))))
        with (saveRecords (popped s r)).
      rewrite Hrecp. unfold log_after_replay. rewrite log_popped.
      destruct Hown as [Hempty|(r1 & Hin & Hpc1 & Hidx1)].
      * left. rewrite Hempty. destruct cur' as [r'|];
          [destruct (preserveClip r')|]; rewrite ?firstn_nil; reflexivity.
      * rewrite Hrecs in Hin. destruct Hin as [<-|Hin].
        -- rewrite Hidx1. destruct cur' as [r'|]; [|left; reflexivity].
           destruct (preserveClip r') eqn:Hpc'; [|left; reflexivity].
           right. exists r'.
           destruct (currentSaveRec_Some _ _ Hcur') as (rest' & Hst' & _).
           assert (Hrest' : rest = r' :: rest').
           { rewrite <- Hrecp. unfold saveRecords. rewrite Hst'. reflexivity. }
           rewrite Hrest' in Hrest |- *.
           apply recs_ok_cons in Hrest. destruct Hrest as (_ & _ & Hle & _).
           split; [left; reflexivity|]. split; [exact Hpc'|]. lia.
        -- right. exists r1. repeat split; assumption.
    + injection Hrun as <-. unfold log_owned. rewrite log_popped, Hrecp.
      destruct Hown as [Hempty|(r1 & Hin & Hpc1 & Hidx1)]; [left; exact Hempty|].
      right. exists r1. rewrite Hrecs in Hin. destruct Hin as [<-|Hin].
      * rewrite Hpc in Hpc1. discriminate.
      * repeat split; assumption.
  - rewrite (restore_not_current _ Hcur) in Hrun. injection Hrun as <-.
    exact Hown.
Qed.

Lemma restoreToCount_log_owned (n : Z) (fuel : nat) :
  forall s s',
    wf s = true -> log_owned s ->
    restoreToCount fuel n s = Ok s' -> log_owned s'.
Proof.
  induction fuel as [|fuel IH]; intros s s' Hwf Hown Hrun.
  - cbn [restoreToCount] in Hrun.
    destruct (sk_getSaveCount (mCanvas s) >? n); [discriminate|].
    injection Hrun as <-. exact Hown.
  - destruct (Z.lt_ge_cases n (getSaveCount s)) as [Hlt|Hge].
    + rewrite (restoreToCount_step _ _ _ Hlt) in Hrun.
      destruct (restore_wf _ Hwf) as (s1 & Hres & Hwf1 & _).
      rewrite Hres in Hrun. cbn [bind] in Hrun.
      apply (IH s1 s' Hwf1); [|exact Hrun].
      apply (restore_log_owned s s1 Hwf Hown Hres).
    + rewrite (restoreToCount_done _ _ _ Hge) in Hrun.
      injection Hrun as <-. exact Hown.
Qed.

Lemma exec_log_owned (o : Op) (s s' : SkiaCanvas) :
  wf s = true -> log_owned s -> swaps_surface o = false ->
  exec o s = Ok s' -> log_owned s'.
Proof.
  intros Hwf Hown Hswap Hex.
  destruct o; try discriminate Hswap; cbn [exec] in Hex;
    try (injection Hex as <-; exact Hown).
  - injection Hex as <-. apply (log_owned_ext s); [|intros r Hin _|exact Hown];
      unfold save, recordPartialSave; cbn [sk_save snd mCanvas set_mCanvas];
      destruct (Z.land flags SaveFlags.MatrixClip =? SaveFlags.MatrixClip);
      try reflexivity; try exact Hin.
    right. exact Hin.
  - apply (restore_log_owned s s' Hwf Hown Hex).
  - apply (restoreToCount_log_owned restoreCount fuel s s' Hwf Hown Hex).
  - injection Hex as <-. unfold saveLayerAlpha.
    destruct (to_unsigned alpha <? 255); exact Hown.
  - destruct (currentSaveRec_wf _ Hwf) as (cur & Hcur).
    pose proof (clipRect_ok _ _ left top right bottom op Hcur) as Hex'.
    cbn [exec] in Hex'. rewrite Hex' in Hex. injection Hex as <-.
    apply clipped_log_owned; assumption.
  - destruct (currentSaveRec_wf _ Hwf) as (cur & Hcur).
    pose proof (clipPath_ok _ _ path op Hcur) as Hex'.
    cbn [exec] in Hex'. rewrite Hex' in Hex. injection Hex as <-.
    destruct (SkPath_isRRect path); apply clipped_log_owned; assumption.
Qed.

Lemma on_surface_reachable (s : SkiaCanvas) :
  reachable_on_surface s -> reachable s.
Proof.
  induction 1 as [canvas | s o s' _ IH _ Hex].
  - apply reachable_new.
  - apply reachable_step with (s := s) (o := o); assumption.
Qed.

Lemma on_surface_log_owned (s : SkiaCanvas) :
  reachable_on_surface s -> log_owned s.
Proof.
  induction 1 as [canvas | s o s' Hreach IH Hswap Hex].
  - left. reflexivity.
  - apply (exec_log_owned o s s'); try assumption.
    apply reachable_wf, on_surface_reachable, Hreach.
Qed.

(** X5: the log is handed back in full.  As long as the surface is not
    swapped, whenever no record on the stack preserves the clip (in
    particular when every partial frame has been closed) the clip log is
    empty. *)
Theorem log_empty_without_clip_preserving_record (s : SkiaCanvas) :
  reachable_on_surface s ->
  (forall r, In r (saveRecords s) -> preserveClip r = false) ->
  mClipStack s = [].
Proof.
  intros Hreach Hnone.
  destruct (on_surface_log_owned s Hreach) as [Hempty|(r & Hin & Hpc & _)].
  - exact Hempty.
  - rewrite (Hnone r Hin) in Hpc. discriminate.
Qed.

(** ** The bottom of the stack *)

Lemma recs_ok_length (st : list SaveRec) :
  forall count len,
    recs_ok count len st = true ->
    Z.of_nat (length st) <= Z.max 0 (count - 1).
Proof.
  induction st as [|r rest IH]; intros count len Hok; cbn [length]; [lia|].
  apply recs_ok_cons in Hok. destruct Hok as (H2 & Hc & _ & Hrest).
  specialize (IH _ _ Hrest). lia.
Qed.

(** X6: records never outnumber the backend's open saves: in every
    reachable state the record stack is shorter than the backend's save
    count, and each record stands for a frame above the bottom one. *)
Theorem records_fewer_than_frames (s : SkiaCanvas) :
  reachable s ->
  Z.of_nat (length (saveRecords s)) < getSaveCount s
  /\ forall r, In r (saveRecords s) -> 2 <= saveCount r <= getSaveCount s.
Proof.
  intros Hreach. pose proof (reachable_wf _ Hreach) as Hwf.
  pose proof (count_pos (mCanvas s)) as Hpos.
  split.
  - pose proof (recs_ok_length _ _ _ Hwf) as Hlen. unfold getSaveCount. lia.
  - intros r Hin. destruct (recs_ok_In _ _ _ _ Hwf Hin) as (Hle & _).
    split; [|exact Hle].
    clear Hle. unfold wf in Hwf.
    revert Hin Hwf. generalize (sk_getSaveCount (mCanvas s)) as count.
    generalize (length (mClipStack s)) as len.
    induction (saveRecords s) as [|r0 rest IH]; intros len count Hin Hok;
      [contradiction|].
    apply recs_ok_cons in Hok. destruct Hok as (H2 & _ & _ & Hrest).
    destruct Hin as [<-|Hin]; [exact H2|]. apply (IH _ _ Hin Hrest).
Qed.

(** X7: restoring past the bottom.  At depth one a reachable engine holds
    no record, and [restore] returns the state unchanged. *)
Theorem restore_at_bottom_is_noop (s : SkiaCanvas) :
  reachable s ->
  getSaveCount s = 1 ->
  saveRecords s = [] /\ restore s = Ok s.
Proof.
  intros Hreach Hone. pose proof (reachable_wf _ Hreach) as Hwf.
  assert (Hrecs : saveRecords s = []).
  { pose proof (recs_ok_length _ _ _ Hwf) as Hlen.
    unfold getSaveCount in Hone. rewrite Hone in Hlen.
    destruct (saveRecords s); [reflexivity|cbn [length] in Hlen; lia]. }
  split; [exact Hrecs|].
  assert (Hcur : currentSaveRec s = Ok None).
  { unfold currentSaveRec. unfold saveRecords in Hrecs.
    destruct (mSaveStack s) as [st|]; [subst st|]; reflexivity. }
  rewrite (restore_not_current _ Hcur). f_equal.
  assert (Hsaved : fSaved (mCanvas s) = []).
  { unfold getSaveCount, sk_getSaveCount in Hone.
    destruct (fSaved (mCanvas s)); [reflexivity|cbn [length] in Hone; lia]. }
  unfold sk_restore. rewrite Hsaved. destruct s; reflexivity.
Qed.

(** X8: [restore] only ever trims the log, and never below the clip index
    of the record it pops: what it returns has as its log a prefix of the
    old one that keeps everything under that index, and the whole of it when
    no record is current. *)
Theorem restore_only_trims_log (s s' : SkiaCanvas) :
  restore s = Ok s' ->
  exists n,
    mClipStack s' = firstn n (mClipStack s)
    /\ (forall r, currentSaveRec s = Ok (Some r) -> (clipIndex r <= n)%nat)
    /\ (currentSaveRec s = Ok None -> mClipStack s' = mClipStack s).
Proof.
  intros Hrun.
  destruct (currentSaveRec s) as [[r|]| |] eqn:Hcur.
  - rewrite (restore_current _ _ Hcur) in Hrun.
    destruct (preserveClip r).
    + destruct (applyPersistentClips_inv _ _ _ Hrun) as (cur' & Hidx & _ & ->).
      rewrite log_popped in Hidx.
      cbn [mClipStack set_mClipStack]. unfold log_after_replay.
      rewrite log_popped.
      destruct cur' as [r'|]; [destruct (preserveClip r')|].
      * exists (length (mClipStack s)). rewrite firstn_all.
        split; [reflexivity|]. split; [|discriminate].
        intros r0 H0. injection H0 as <-. exact Hidx.
      * exists (clipIndex r). split; [reflexivity|]. split; [|discriminate].
        intros r0 H0. injection H0 as <-. apply Nat.le_refl.
      * exists (clipIndex r). split; [reflexivity|]. split; [|discriminate].
        intros r0 H0. injection H0 as <-. apply Nat.le_refl.
    + injection Hrun as <-. rewrite log_popped.
      exists (Nat.max (clipIndex r) (length (mClipStack s))).
      split; [symmetry; apply firstn_all2; lia|]. split; [|discriminate].
      intros r0 H0. injection H0 as <-. lia.
  - rewrite (restore_not_current _ Hcur) in Hrun. injection Hrun as <-.
    exists (length (mClipStack s)). cbn [mClipStack set_mCanvas].
    rewrite firstn_all. repeat split. discriminate.
  - unfold restore in Hrun. rewrite Hcur in Hrun. discriminate.
  - unfold restore in Hrun. rewrite Hcur in Hrun. discriminate.
Qed.

(** ** Layer flags *)

(** X9: the layer flags handed to the backend depend on the clip-to-layer
    bit alone: the result is nothing or the don't-clip flag, and adding any
    flags that leave that bit alone (the has-alpha-layer flag, which the
    source says it ignores on purpose, among them) changes nothing. *)
Theorem layerFlags_reads_ClipToLayer_only (flags : Z) :
  layerFlags flags
  = (if Z.testbit flags 4 then 0 else kDontClipToLayer_Legacy_SaveLayerFlag)
  /\ layerFlags (Z.lor flags SaveFlags.HasAlphaLayer) = layerFlags flags
  /\ forall other,
       Z.land other SaveFlags.ClipToLayer = 0 ->
       layerFlags (Z.lor flags other) = layerFlags flags.
Proof.
  assert (Hadd : forall other,
             Z.land other SaveFlags.ClipToLayer = 0 ->
             layerFlags (Z.lor flags other) = layerFlags flags).
  { intros other H0. unfold layerFlags, hasFlag.
    rewrite Z.land_lor_distr_l, H0, Z.lor_0_r. reflexivity. }
  split; [|split; [apply Hadd; reflexivity | exact Hadd]].
  unfold layerFlags, hasFlag.
  assert (Hbit : Z.land flags SaveFlags.ClipToLayer
                 = if Z.testbit flags 4 then 16 else 0).
  { apply Z.bits_inj'. intros n Hn.
    rewrite Z.land_spec.
    change SaveFlags.ClipToLayer with (2 ^ 4).
    rewrite Z.pow2_bits_eqb by lia.
    destruct (Z.eqb_spec 4 n) as [<-|Hne].
    - destruct (Z.testbit flags 4); reflexivity.
    - rewrite andb_false_r. destruct (Z.testbit flags 4).
      + change 16 with (2 ^ 4). rewrite Z.pow2_bits_eqb by lia.
        symmetry. apply Z.eqb_neq. exact Hne.
      + rewrite Z.bits_0. reflexivity. }
  rewrite Hbit. destruct (Z.testbit flags 4); reflexivity.
Qed.

(** X18: unwinding to the bottom.  On the surface the engine was made on,
    [restoreToCount 1] returns from every reachable state, and leaves the
    backend at depth one, no record and an empty clip log. *)
Theorem restoreToCount_one_unwinds_everything (s : SkiaCanvas) :
  reachable_on_surface s ->
  exists s',
    restoreToCount (Z.to_nat (getSaveCount s - 1)) 1 s = Ok s'
    /\ getSaveCount s' = 1
    /\ saveRecords s' = []
    /\ mClipStack s' = [].
Proof.
  intros Hreach.
  pose proof (reachable_wf _ (on_surface_reachable _ Hreach)) as Hwf.
  pose proof (count_pos (mCanvas s)) as Hpos.
  destruct (restoreToCount_terminates 1 (Z.to_nat (getSaveCount s - 1)) s Hwf
              ltac:(lia) ltac:(unfold getSaveCount; lia))
    as (s' & Hrun & Hcount).
  assert (Hone : getSaveCount s' = 1) by (unfold getSaveCount in *; lia).
  assert (Hreach' : reachable_on_surface s').
  { apply on_surface_step
      with (s := s) (o := OpRestoreToCount (Z.to_nat (getSaveCount s - 1)) 1);
      [exact Hreach | reflexivity | exact Hrun]. }
  pose proof (reachable_wf _ (on_surface_reachable _ Hreach')) as Hwf'.
  assert (Hrecs : saveRecords s' = []).
  { pose proof (recs_ok_length _ _ _ Hwf') as Hlen.
    unfold getSaveCount in Hone. rewrite Hone in Hlen.
    destruct (saveRecords s'); [reflexivity | cbn [length] in Hlen; lia]. }
  exists s'. split; [exact Hrun|]. split; [exact Hone|]. split; [exact Hrecs|].
  destruct (on_surface_log_owned s' Hreach') as [Hempty|(r & Hin & _)];
    [exact Hempty|].
  rewrite Hrecs in Hin. contradiction.
Qed.

(** ** Segments of the log *)

Lemma segment_empty (log : list Clip) (n : nat) : segment log n n = [].
Proof. unfold segment. rewrite Nat.sub_diag. reflexivity. Qed.

Lemma segment_to_end (log : list Clip) (lo : nat) :
  segment log lo (length log) = skipn lo log.
Proof.
  unfold segment. rewrite <- length_skipn. apply firstn_all.
Qed.

Lemma segment_app_within (log extra : list Clip) (lo hi : nat) :
  (hi <= length log)%nat ->
  segment (log ++ extra) lo hi = segment log lo hi.
Proof.
  intros Hhi. unfold segment.
  destruct (Nat.le_gt_cases lo (length log)) as [Hlo|Hlo].
  - rewrite skipn_app.
    replace (lo - length log)%nat with O by lia. cbn [skipn].
    rewrite firstn_app, length_skipn.
    replace (hi - lo - (length log - lo))%nat with O by lia.
    cbn [firstn]. apply app_nil_r.
  - replace (hi - lo)%nat with O by lia. reflexivity.
Qed.

Lemma segment_firstn_within (log : list Clip) (n lo hi : nat) :
  (hi <= n)%nat -> segment (firstn n log) lo hi = segment log lo hi.
Proof.
  intros Hhi.
  destruct (Nat.le_gt_cases n (length log)) as [Hn|Hn].
  - rewrite <- (firstn_skipn n log) at 2.
    symmetry. apply segment_app_within. rewrite length_firstn. lia.
  - rewrite firstn_all2 by lia. reflexivity.
Qed.

Lemma firstn_then_skipn (A : Type) (a b : nat) :
  forall l : list A, firstn a l ++ firstn b (skipn a l) = firstn (a + b) l.
Proof.
  induction a as [|a IH]; intros l; [reflexivity|].
  destruct l as [|x l]; cbn [firstn skipn Nat.add app].
  - rewrite firstn_nil. reflexivity.
  - rewrite IH. reflexivity.
Qed.

Lemma segment_split (log : list Clip) (lo mid hi : nat) :
  (lo <= mid)%nat -> (mid <= hi)%nat ->
  segment log lo mid ++ segment log mid hi = segment log lo hi.
Proof.
  intros Hlo Hhi. unfold segment.
  replace (skipn mid log) with (skipn (mid - lo) (skipn lo log))
    by (rewrite skipn_skipn; f_equal; lia).
  rewrite firstn_then_skipn. f_equal. lia.
Qed.

(** ** The replay invariant *)

Lemma replay_inv_nil (frames : list MCRec) (hi : nat) (log : list Clip) :
  replay_inv [] frames hi log.
Proof. destruct frames; exact I. Qed.

(** Only the clip of the live frame matters, not its transform. *)
Lemma replay_inv_top (f f' : MCRec) (recs : list SaveRec)
    (below : list MCRec) (hi : nat) (log : list Clip) :
  fClip f' = fClip f ->
  replay_inv recs (f :: below) hi log ->
  replay_inv recs (f' :: below) hi log.
Proof.
  intros Hclip. destruct recs as [|r rest]; [intros _; exact I|].
  cbn [replay_inv length].
  destruct (saveCount r =? Z.of_nat (S (length below))); [|exact (fun H => H)].
  destruct (preserveClip r); [|exact (fun H => H)].
  destruct below as [|b below']; [exact (fun H => H)|].
  rewrite Hclip. exact (fun H => H).
Qed.

(** A live frame that belongs to no record can come and go. *)
Lemma replay_inv_skip (f : MCRec) (recs : list SaveRec) (below : list MCRec)
    (hi : nat) (log : list Clip) :
  (forall r rest, recs = r :: rest ->
                  saveCount r <> Z.of_nat (S (length below))) ->
  replay_inv recs (f :: below) hi log <-> replay_inv recs below hi log.
Proof.
  intros Hne. destruct recs as [|r rest].
  - split; intros _; [apply replay_inv_nil | exact I].
  - cbn [replay_inv length].
    destruct (Z.eqb_spec (saveCount r) (Z.of_nat (S (length below))))
      as [Heq|_]; [|reflexivity].
    exfalso. exact (Hne r rest eq_refl Heq).
Qed.

(** The invariant reads the log only below [hi]. *)
Lemma replay_inv_log_ext (log log' : list Clip) (n : nat)
    (frames : list MCRec) :
  (forall lo hi, (hi <= n)%nat -> segment log' lo hi = segment log lo hi) ->
  forall recs hi count,
    (hi <= n)%nat ->
    recs_ok count hi recs = true ->
    replay_inv recs frames hi log -> replay_inv recs frames hi log'.
Proof.
  intros Hseg. induction frames as [|f below IH]; intros recs hi count Hhi Hok;
    [intros _; exact I|].
  destruct recs as [|r rest]; [intros _; exact I|].
  cbn [replay_inv length].
  apply recs_ok_cons in Hok. destruct Hok as (H2 & _ & Hidx & Hrest).
  destruct (saveCount r =? Z.of_nat (S (length below))).
  - intros (Hclause & Hinv). split.
    + destruct (preserveClip r); [|exact Hclause].
      destruct below as [|b below']; [exact I|].
      rewrite Hseg by exact Hhi. exact Hclause.
    + apply (IH rest (clipIndex r) (saveCount r - 1)); [lia|exact Hrest|exact Hinv].
  - apply (IH (r :: rest) hi (saveCount r)); [exact Hhi|].
    apply recs_ok_cons. repeat split; try assumption; lia.
Qed.

Lemma frames_count (c : SkCanvas) :
  Z.of_nat (length (frames_of c)) = sk_getSaveCount c.
Proof. unfold frames_of, sk_getSaveCount. cbn [length]. lia. Qed.

(** The clip of a live frame that belongs to no clip-preserving record can
    change freely. *)
Lemma replay_inv_top_free (f f' : MCRec) (recs : list SaveRec)
    (below : list MCRec) (hi : nat) (log : list Clip) :
  (forall r rest, recs = r :: rest ->
                  saveCount r = Z.of_nat (S (length below)) ->
                  preserveClip r = false) ->
  replay_inv recs (f :: below) hi log ->
  replay_inv recs (f' :: below) hi log.
Proof.
  intros Hfree. destruct recs as [|r rest]; [intros _; exact I|].
  cbn [replay_inv length].
  destruct (Z.eqb_spec (saveCount r) (Z.of_nat (S (length below))))
    as [Heq|_]; [|exact (fun H => H)].
  rewrite (Hfree r rest eq_refl Heq). exact (fun H => H).
Qed.

Lemma wf_top_not_deeper (s : SkiaCanvas) (r : SaveRec) (rest : list SaveRec) :
  wf s = true -> saveRecords s = r :: rest ->
  saveCount r <= Z.of_nat (length (frames_of (mCanvas s))).
Proof.
  intros Hwf Hrecs. unfold wf in Hwf. rewrite Hrecs in Hwf.
  apply recs_ok_cons in Hwf. rewrite frames_count. lia.
Qed.

Lemma replay_ok_same_clip (s : SkiaCanvas) (canvas : SkCanvas) :
  fSaved canvas = fSaved (mCanvas s) ->
  fClip (fTop canvas) = fClip (fTop (mCanvas s)) ->
  replay_ok s -> replay_ok (set_mCanvas canvas s).
Proof.
  intros Hsaved Hclip. unfold replay_ok, frames_of.
  cbn [mCanvas set_mCanvas mClipStack].
  change (saveRecords (set_mCanvas canvas s)) with (saveRecords s).
  rewrite Hsaved. apply replay_inv_top, Hclip.
Qed.

Lemma replay_ok_push (s : SkiaCanvas) (canvas : SkCanvas) :
  fSaved canvas = fTop (mCanvas s) :: fSaved (mCanvas s) ->
  wf s = true -> replay_ok s -> replay_ok (set_mCanvas canvas s).
Proof.
  intros Hsaved Hwf. unfold replay_ok, frames_of.
  cbn [mCanvas set_mCanvas mClipStack].
  change (saveRecords (set_mCanvas canvas s)) with (saveRecords s).
  rewrite Hsaved. intros Hinv. apply replay_inv_skip; [|exact Hinv].
  intros r rest Hrecs.
  pose proof (wf_top_not_deeper s r rest Hwf Hrecs) as Hle.
  unfold frames_of in Hle. cbn [length] in *. lia.
Qed.

Lemma save_replay_ok (flags : Z) (s : SkiaCanvas) :
  wf s = true -> replay_ok s -> replay_ok (snd (save flags s)).
Proof.
  intros Hwf Hinv. unfold save, recordPartialSave.
  cbn [sk_save snd mCanvas set_mCanvas].
  destruct (Z.land flags SaveFlags.MatrixClip =? SaveFlags.MatrixClip).
  - apply replay_ok_push; [reflexivity | exact Hwf | exact Hinv].
  - unfold replay_ok, frames_of.
    cbn [mCanvas set_mCanvas set_mSaveStack mClipStack saveRecords mSaveStack
         fTop fSaved replay_inv length saveCount clipIndex].
    fold (saveRecords s).
    replace (sk_getSaveCount
               {| fTop := {| fMatrix := fMatrix (fTop (mCanvas s));
                             fClip := fClip (fTop (mCanvas s));
                             fLayer := None |};
                  fSaved := fTop (mCanvas s) :: fSaved (mCanvas s) |}
             =? Z.of_nat (S (S (length (fSaved (mCanvas s))))))
      with true
      by (symmetry; apply Z.eqb_eq; unfold sk_getSaveCount;
          cbn [fSaved length]; lia).
    split; [|exact Hinv].
    destruct (preserveClip _); [|reflexivity].
    rewrite segment_empty. reflexivity.
Qed.

Section ReplayCorrect.

(** The backend gives a rectangle back unchanged from the rounded rectangle
    made of it. *)
Hypothesis rect_round_trip :
  forall rect, SkRRect_rect (SkRRect_MakeRect rect) = rect.

Lemma clipped_replay_ok (s : SkiaCanvas) (cur : option SaveRec)
    (shape : ClipShape) (op : SkClipOp) (canvas : SkCanvas) :
  fSaved canvas = fSaved (mCanvas s) ->
  fClip (fTop canvas)
  = Clip_region (Clip_new shape op (getMatrix s)) (fClip (fTop (mCanvas s))) ->
  wf s = true -> currentSaveRec s = Ok cur ->
  replay_ok s -> replay_ok (clipped s cur shape op canvas).
Proof.
  intros Hsaved Hclip Hwf Hcur Hinv.
  unfold replay_ok, clipped, frames_of in *.
  cbn [mCanvas mClipStack set_mCanvas set_mClipStack].
  change (saveRecords (set_mCanvas canvas
            (set_mClipStack (log_after_clip s cur shape op) s)))
    with (saveRecords s).
  rewrite Hsaved. unfold log_after_clip.
  assert (Hfree : logging cur = false ->
            replay_inv (saveRecords s) (fTop canvas :: fSaved (mCanvas s))
              (length (mClipStack s)) (mClipStack s)).
  { intros Hnolog.
    apply (replay_inv_top_free (fTop (mCanvas s))); [|exact Hinv].
    intros r rest Hrecs Hcount.
    destruct cur as [r0|].
    - destruct (currentSaveRec_Some _ _ Hcur) as (rest0 & Hst & _).
      unfold saveRecords in Hrecs. rewrite Hst in Hrecs.
      injection Hrecs as <- <-. exact Hnolog.
    - pose proof (currentSaveRec_None _ _ _ Hcur Hrecs) as Hlt.
      unfold sk_getSaveCount in Hlt. lia. }
  destruct cur as [r|]; [|apply Hfree; reflexivity].
  destruct (preserveClip r) eqn:Hpc; [|apply Hfree; exact Hpc].
  destruct (currentSaveRec_Some _ _ Hcur) as (rest & Hst & Hcount).
  assert (Hrecs : saveRecords s = r :: rest)
    by (unfold saveRecords; rewrite Hst; reflexivity).
  unfold wf in Hwf. rewrite Hrecs in Hwf, Hinv |- *.
  apply recs_ok_cons in Hwf. destruct Hwf as (H2 & _ & Hidx & Hrest).
  cbn [replay_inv length] in Hinv |- *.
  replace (saveCount r =? Z.of_nat (S (length (fSaved (mCanvas s)))))
    with true in *
    by (symmetry; apply Z.eqb_eq; rewrite Hcount; unfold sk_getSaveCount; lia).
  rewrite Hpc in *. destruct Hinv as (Hclause & Hbelow).
  split.
  - destruct (fSaved (mCanvas s)) as [|b below']; [exact I|].
    rewrite segment_to_end in *.
    rewrite skipn_app.
    replace (clipIndex r - length (mClipStack s))%nat with O by lia.
    cbn [skipn]. rewrite fold_left_app. cbn [fold_left].
    rewrite Hclause, Hclip. reflexivity.
  - apply (replay_inv_log_ext (mClipStack s) _ (length (mClipStack s)))
      with (count := saveCount r - 1); try assumption.
    intros lo hi Hhi. apply segment_app_within. exact Hhi.
Qed.

Lemma restore_replay_ok (s s' : SkiaCanvas) :
  wf s = true -> replay_ok s -> restore s = Ok s' -> replay_ok s'.
Proof.
  intros Hwf Hinv Hrun.
  destruct (currentSaveRec_wf _ Hwf) as ([r|] & Hcur).
  - destruct (currentSaveRec_Some _ _ Hcur) as (rest & Hst & Hcount).
    assert (Hrecs : saveRecords s = r :: rest)
      by (unfold saveRecords; rewrite Hst; reflexivity).
    destruct (popped_ok _ _ Hwf Hcur) as (Hcountp & Hidx & Hrest).
    assert (Hrecp : saveRecords (popped s r) = rest)
      by (rewrite records_popped, Hrecs; reflexivity).
    rewrite Hrecp in Hrest.
    pose proof Hwf as Hwf0. unfold wf in Hwf0. rewrite Hrecs in Hwf0.
    apply recs_ok_cons in Hwf0. destruct Hwf0 as (H2 & _ & _ & _).
    destruct (fSaved (mCanvas s)) as [|b below'] eqn:Hsaved;
      [unfold sk_getSaveCount in Hcount; rewrite Hsaved in Hcount;
       cbn [length] in Hcount; lia|].
    assert (Hres : sk_restore (mCanvas s) = mkSkCanvas b below')
      by (unfold sk_restore; rewrite Hsaved; reflexivity).
    assert (Hsavedp : fSaved (mCanvas (popped s r)) = below')
      by (rewrite saved_popped, Hres; reflexivity).
    assert (Hclipp : fClip (fTop (mCanvas (popped s r))) = fClip b)
      by (change (sk_getClip (mCanvas (popped s r)) = fClip b);
          rewrite clip_popped, Hres; reflexivity).
    assert (Hcountb : sk_getSaveCount (mCanvas (popped s r))
                      = Z.of_nat (S (length below'))).
    { unfold sk_getSaveCount. rewrite Hsavedp. lia. }
    unfold replay_ok, frames_of in Hinv. rewrite Hrecs, Hsaved in Hinv.
    cbn [replay_inv length] in Hinv.
    replace (saveCount r =? Z.of_nat (S (S (length below')))) with true in Hinv
      by (symmetry; apply Z.eqb_eq; rewrite Hcount; unfold sk_getSaveCount;
          rewrite Hsaved; cbn [length]; lia).
    destruct Hinv as (Hclause & Hbelow).
    rewrite (restore_current _ _ Hcur) in Hrun.
    destruct (preserveClip r) eqn:Hpc.
    + destruct (applyPersistentClips_inv _ _ _ Hrun)
        as (cur' & _ & Hcur' & ->).
      unfold replay_ok, frames_of.
      cbn [mCanvas mClipStack set_mClipStack replayed set_mCanvas
           sk_setMatrix fTop fSaved fClip].
      change (saveRecords (set_mClipStack
                (log_after_replay (clipIndex r) (popped s r) cur')
                (replayed (clipIndex r) (popped s r))))
        with (saveRecords (popped s r)).
      rewrite Hrecp, saved_replay, Hsavedp.
      unfold log_after_replay. rewrite !log_popped.
      assert (Hnewclip :
                fClip (fTop (fold_left (fun c clip => Clip_apply clip c)
                               (skipn (clipIndex r) (mClipStack s))
                               (mCanvas (popped s r))))
                = fClip (fTop (mCanvas s))).
      { change (sk_getClip (fold_left (fun c clip => Clip_apply clip c)
                               (skipn (clipIndex r) (mClipStack s))
                               (mCanvas (popped s r)))
                = fClip (fTop (mCanvas s))).
        rewrite clip_replay. unfold sk_getClip. rewrite Hclipp.
        rewrite <- segment_to_end. exact Hclause. }
      assert (Herase :
                (forall r' rest', rest = r' :: rest' ->
                   saveCount r' = Z.of_nat (S (length below')) ->
                   preserveClip r' = false) ->
                replay_inv rest
                  ({| fMatrix := getMatrix (popped s r);
                      fClip := fClip (fTop (fold_left
                                 (fun c clip => Clip_apply clip c)
                                 (skipn (clipIndex r) (mClipStack s))
                                 (mCanvas (popped s r))));
                      fLayer := fLayer (fTop (fold_left
                                 (fun c clip => Clip_apply clip c)
                                 (skipn (clipIndex r) (mClipStack s))
                                 (mCanvas (popped s r)))) |} :: below')
                  (length (firstn (clipIndex r) (mClipStack s)))
                  (firstn (clipIndex r) (mClipStack s))).
      { intros Hfree. rewrite length_firstn, Nat.min_l by exact Hidx.
        apply (replay_inv_top_free b); [exact Hfree|].
        apply (replay_inv_log_ext (mClipStack s) _ (clipIndex r))
          with (count := sk_getSaveCount (mCanvas (popped s r)));
          [|apply Nat.le_refl|exact Hrest|exact Hbelow].
        intros lo hi Hhi. apply segment_firstn_within. exact Hhi. }
      destruct cur' as [r'|].
      * destruct (currentSaveRec_Some _ _ Hcur') as (rest' & Hst' & Hcount').
        assert (Hrest' : rest = r' :: rest').
        { rewrite <- Hrecp. unfold saveRecords. rewrite Hst'. reflexivity. }
        destruct (preserveClip r') eqn:Hpc'.
        -- rewrite Hrest' in Hbelow, Hrest |- *.
           apply recs_ok_cons in Hrest. destruct Hrest as (_ & _ & Hle & _).
           cbn [replay_inv length fClip] in Hbelow |- *.
           replace (saveCount r' =? Z.of_nat (S (length below'))) with true in *
             by (symmetry; apply Z.eqb_eq; rewrite Hcount'; exact Hcountb).
           rewrite Hpc' in *. destruct Hbelow as (Hclause' & Hbelow').
           split; [|exact Hbelow'].
           destruct below' as [|b2 below'']; [exact I|].
           rewrite Hnewclip, <- Hclause.
           rewrite <- (segment_split (mClipStack s) (clipIndex r')
                         (clipIndex r) (length (mClipStack s)) Hle Hidx).
           rewrite fold_left_app, Hclause'. reflexivity.
        -- apply Herase. intros r0 rest0 H0 _. rewrite Hrest' in H0.
           injection H0 as <- <-. exact Hpc'.
      * apply Herase. intros r0 rest0 H0 Hc0.
        rewrite <- Hrecp in H0.
        pose proof (currentSaveRec_None _ _ _ Hcur' H0) as Hlt. lia.
    + injection Hrun as <-. unfold replay_ok, frames_of.
      rewrite Hrecp, Hsavedp, log_popped.
      rewrite Hclause.
      apply (replay_inv_top b); [exact Hclipp | exact Hbelow].
  - rewrite (restore_not_current _ Hcur) in Hrun. injection Hrun as <-.
    unfold replay_ok, frames_of in *. cbn [mCanvas set_mCanvas mClipStack].
    change (saveRecords (set_mCanvas (sk_restore (mCanvas s)) s))
      with (saveRecords s).
    unfold sk_restore.
    destruct (fSaved (mCanvas s)) as [|b below'] eqn:Hsaved;
      [rewrite Hsaved; exact Hinv|].
    cbn [fTop fSaved].
    apply (replay_inv_skip (fTop (mCanvas s))); [|exact Hinv].
    intros r rest Hrecs.
    pose proof (currentSaveRec_None _ _ _ Hcur Hrecs) as Hlt.
    unfold sk_getSaveCount in Hlt. rewrite Hsaved in Hlt.
    cbn [length] in *. lia.
Qed.

Lemma restoreToCount_replay_ok (n : Z) (fuel : nat) :
  forall s s',
    wf s = true -> replay_ok s ->
    restoreToCount fuel n s = Ok s' -> replay_ok s'.
Proof.
  induction fuel as [|fuel IH]; intros s s' Hwf Hinv Hrun.
  - cbn [restoreToCount] in Hrun.
    destruct (sk_getSaveCount (mCanvas s) >? n); [discriminate|].
    injection Hrun as <-. exact Hinv.
  - destruct (Z.lt_ge_cases n (getSaveCount s)) as [Hlt|Hge].
    + rewrite (restoreToCount_step _ _ _ Hlt) in Hrun.
      destruct (restore_wf _ Hwf) as (s1 & Hres & Hwf1 & _).
      rewrite Hres in Hrun. cbn [bind] in Hrun.
      apply (IH s1 s' Hwf1); [|exact Hrun].
      apply (restore_replay_ok s s1 Hwf Hinv Hres).
    + rewrite (restoreToCount_done _ _ _ Hge) in Hrun.
      injection Hrun as <-. exact Hinv.
Qed.

Lemma exec_replay_ok (o : Op) (s s' : SkiaCanvas) :
  wf s = true -> replay_ok s -> exec o s = Ok s' -> replay_ok s'.
Proof.
  intros Hwf Hinv Hex.
  destruct o; cbn [exec] in Hex;
    try (injection Hex as <-;
         first [ apply save_replay_ok; assumption
               | apply replay_ok_same_clip; [reflexivity..|exact Hinv]
               | apply replay_inv_nil ]).
  - apply (restore_replay_ok s s' Hwf Hinv Hex).
  - apply (restoreToCount_replay_ok restoreCount fuel s s' Hwf Hinv Hex).
  - injection Hex as <-. unfold saveLayer. cbn [sk_saveLayer snd].
    apply replay_ok_push; [reflexivity | exact Hwf | exact Hinv].
  - injection Hex as <-. unfold saveLayerAlpha.
    destruct (to_unsigned alpha <? 255); unfold saveLayer; cbn [sk_saveLayer snd];
      (apply replay_ok_push; [reflexivity | exact Hwf | exact Hinv]).
  - destruct (currentSaveRec_wf _ Hwf) as (cur & Hcur).
    pose proof (clipRect_ok _ _ left top right bottom op Hcur) as Hex'.
    cbn [exec] in Hex'. rewrite Hex' in Hex. injection Hex as <-.
    apply clipped_replay_ok; try assumption; [reflexivity|].
    cbn [Clip_new Clip_region]. rewrite rect_round_trip. reflexivity.
  - destruct (currentSaveRec_wf _ Hwf) as (cur & Hcur).
    pose proof (clipPath_ok _ _ path op Hcur) as Hex'.
    cbn [exec] in Hex'. rewrite Hex' in Hex. injection Hex as <-.
    destruct (SkPath_isRRect path);
      (apply clipped_replay_ok; try assumption; reflexivity).
Qed.

Lemma reachable_replay_ok (s : SkiaCanvas) : reachable s -> replay_ok s.
Proof.
  induction 1 as [canvas | s o s' Hreach IH Hex].
  - apply replay_inv_nil.
  - apply (exec_replay_ok o s s' (reachable_wf _ Hreach) IH Hex).
Qed.

(** X16: partial restore, in every reachable state.  Where a rectangle
    comes back unchanged from the rounded rectangle it is stored as,
    [restore] returns and closes one backend frame; when a record is
    current, the transform afterwards is the one from just before the call
    if the record preserves the matrix and the saved one if not, and the
    clip afterwards is the one from just before the call if the record
    preserves the clip and the saved one if not, however the frame was
    nested; with no current record the backend's own restore is all that
    happens. *)
Theorem restore_is_partial_restore (s : SkiaCanvas) :
  reachable s ->
  exists s',
    restore s = Ok s'
    /\ fSaved (mCanvas s') = fSaved (sk_restore (mCanvas s))
    /\ (forall r,
          currentSaveRec s = Ok (Some r) ->
          getMatrix s'
          = (if preserveMatrix r then getMatrix s
             else sk_getTotalMatrix (sk_restore (mCanvas s)))
          /\ sk_getClip (mCanvas s')
             = (if preserveClip r then sk_getClip (mCanvas s)
                else sk_getClip (sk_restore (mCanvas s)))
          /\ saveRecords s = r :: saveRecords s')
    /\ (currentSaveRec s = Ok None ->
        s' = set_mCanvas (sk_restore (mCanvas s)) s).
Proof.
  intros Hreach.
  pose proof (reachable_wf _ Hreach) as Hwf.
  pose proof (reachable_replay_ok _ Hreach) as Hinv.
  destruct (restore_wf _ Hwf) as (s' & Hrun & _ & _).
  exists s'. split; [exact Hrun|].
  destruct (currentSaveRec s) as [[r|]| |] eqn:Hcur.
  - destruct (currentSaveRec_Some _ _ Hcur) as (rest & Hst & Hcount).
    assert (Hrecs : saveRecords s = r :: rest)
      by (unfold saveRecords; rewrite Hst; reflexivity).
    destruct (popped_ok _ _ Hwf Hcur) as (_ & Hidx & _).
    rewrite (restore_current _ _ Hcur) in Hrun.
    assert (Hmat : getMatrix (popped s r)
                   = if preserveMatrix r then getMatrix s
                     else sk_getTotalMatrix (sk_restore (mCanvas s))).
    { destruct (preserveMatrix r) eqn:Hpm;
        [apply matrix_popped | apply matrix_popped_restored]; exact Hpm. }
    assert (Hrecp : r :: saveRecords (popped s r) = saveRecords s)
      by (rewrite records_popped, Hrecs; reflexivity).
    destruct (preserveClip r) eqn:Hpc.
    + destruct (applyPersistentClips_inv _ _ _ Hrun) as (cur' & _ & _ & ->).
      split; [|split; [|discriminate]].
      * cbn [mCanvas set_mClipStack replayed set_mCanvas sk_setMatrix fSaved].
        rewrite saved_replay. apply saved_popped.
      * intros r0 H0. injection H0 as <-. rewrite Hpc.
        split; [exact Hmat|]. split; [|symmetry; exact Hrecp].
        change (sk_getClip
                  (fold_left (fun c clip => Clip_apply clip c)
                     (skipn (clipIndex r) (mClipStack (popped s r)))
                     (mCanvas (popped s r)))
                = sk_getClip (mCanvas s)).
        rewrite clip_replay, log_popped, clip_popped.
        unfold replay_ok, frames_of in Hinv. rewrite Hrecs in Hinv.
        cbn [replay_inv length] in Hinv.
        replace (saveCount r =? Z.of_nat (S (length (fSaved (mCanvas s)))))
          with true in Hinv
          by (symmetry; apply Z.eqb_eq; rewrite Hcount;
              unfold sk_getSaveCount; lia).
        rewrite Hpc in Hinv. destruct Hinv as (Hclause & _).
        unfold sk_restore.
        destruct (fSaved (mCanvas s)) as [|b below'] eqn:Hsaved.
        -- exfalso. unfold wf in Hwf. rewrite Hrecs in Hwf.
           apply recs_ok_cons in Hwf. unfold sk_getSaveCount in *.
           rewrite Hsaved in *. cbn [length] in *. lia.
        -- rewrite segment_to_end in Hclause. exact Hclause.
    + injection Hrun as <-.
      split; [apply saved_popped|]. split; [|discriminate].
      intros r0 H0. injection H0 as <-. rewrite Hpc.
      split; [exact Hmat|]. split; [apply clip_popped | symmetry; exact Hrecp].
  - rewrite (restore_not_current _ Hcur) in Hrun. injection Hrun as <-.
    split; [reflexivity|]. split; [discriminate | reflexivity].
  - destruct (currentSaveRec_wf _ Hwf) as (cur & Hcur'). congruence.
  - destruct (currentSaveRec_wf _ Hwf) as (cur & Hcur'). congruence.
Qed.

End ReplayCorrect.

(** ** Entries no record reaches *)

Lemma base_kept_length (n : nat) (base : list Clip) (s : SkiaCanvas) :
  base_kept n base s -> (n <= length (mClipStack s))%nat.
Proof.
  intros (Hpre & Hlen & _). rewrite <- Hlen, <- Hpre, length_firstn. lia.
Qed.

Lemma base_kept_ext (n : nat) (base : list Clip) (s s' : SkiaCanvas) :
  firstn n (mClipStack s') = firstn n (mClipStack s) ->
  (forall r, In r (saveRecords s') ->
             In r (saveRecords s)
             \/ (length (mClipStack s) <= clipIndex r)%nat) ->
  base_kept n base s -> base_kept n base s'.
Proof.
  intros Hlog Hrecs Hbase.
  pose proof (base_kept_length n base s Hbase) as Hn.
  destruct Hbase as (Hpre & Hlen & Hidx).
  split; [rewrite Hlog; exact Hpre|]. split; [exact Hlen|].
  intros r Hin. destruct (Hrecs r Hin) as [Hold|Hnew]; [apply Hidx, Hold|lia].
Qed.

Lemma restore_base_kept (n : nat) (base : list Clip) (s s' : SkiaCanvas) :
  base_kept n base s -> restore s = Ok s' -> base_kept n base s'.
Proof.
  intros Hbase Hrun.
  pose proof (base_kept_length n base s Hbase) as Hn.
  destruct (currentSaveRec s) as [[r|]| |] eqn:Hcur;
    try (unfold restore in Hrun; rewrite Hcur in Hrun; discriminate).
  - destruct (currentSaveRec_Some _ _ Hcur) as (rest & Hst & _).
    assert (Hrecs : saveRecords s = r :: rest)
      by (unfold saveRecords; rewrite Hst; reflexivity).
    assert (Hr : (n <= clipIndex r)%nat).
    { destruct Hbase as (_ & _ & Hidx). apply Hidx. rewrite Hrecs.
      left. reflexivity. }
    assert (Hin : forall s1, saveRecords s1 = rest ->
                  forall r0, In r0 (saveRecords s1) ->
                    In r0 (saveRecords s)
                    \/ (length (mClipStack s) <= clipIndex r0)%nat).
    { intros s1 -> r0 H0. left. rewrite Hrecs. right. exact H0. }
    assert (Hrecp : saveRecords (popped s r) = rest)
      by (rewrite records_popped, Hrecs; reflexivity).
    rewrite (restore_current _ _ Hcur) in Hrun.
    destruct (preserveClip r).
    + destruct (applyPersistentClips_inv _ _ _ Hrun) as (cur' & _ & _ & ->).
      apply (base_kept_ext n base s); [|apply Hin; exact Hrecp|exact Hbase].
      cbn [mClipStack set_mClipStack]. unfold log_after_replay.
      rewrite log_popped.
      destruct cur' as [r'|]; [destruct (preserveClip r')|];
        rewrite ?firstn_firstn, ?Nat.min_l by exact Hr; reflexivity.
    + injection Hrun as <-.
      apply (base_kept_ext n base s); [|apply Hin; exact Hrecp|exact Hbase].
      rewrite log_popped. reflexivity.
  - rewrite (restore_not_current _ Hcur) in Hrun. injection Hrun as <-.
    exact Hbase.
Qed.

Lemma restoreToCount_base_kept (n : nat) (base : list Clip) (target : Z)
    (fuel : nat) :
  forall s s',
    base_kept n base s ->
    restoreToCount fuel target s = Ok s' -> base_kept n base s'.
Proof.
  induction fuel as [|fuel IH]; intros s s' Hbase Hrun.
  - cbn [restoreToCount] in Hrun.
    destruct (sk_getSaveCount (mCanvas s) >? target); [discriminate|].
    injection Hrun as <-. exact Hbase.
  - destruct (Z.lt_ge_cases target (getSaveCount s)) as [Hlt|Hge].
    + rewrite (restoreToCount_step _ _ _ Hlt) in Hrun.
      destruct (restore s) as [s1| |] eqn:Hres; try discriminate.
      cbn [bind] in Hrun.
      apply (IH s1 s'); [|exact Hrun].
      apply (restore_base_kept n base s s1 Hbase Hres).
    + rewrite (restoreToCount_done _ _ _ Hge) in Hrun.
      injection Hrun as <-. exact Hbase.
Qed.

Lemma clipped_base_kept (n : nat) (base : list Clip) (s : SkiaCanvas)
    (cur : option SaveRec) (shape : ClipShape) (op : SkClipOp)
    (canvas : SkCanvas) :
  base_kept n base s -> base_kept n base (clipped s cur shape op canvas).
Proof.
  intros Hbase. pose proof (base_kept_length n base s Hbase) as Hn.
  apply (base_kept_ext n base s); [|intros r Hin; left; exact Hin|exact Hbase].
  unfold clipped, log_after_clip. cbn [mClipStack set_mCanvas set_mClipStack].
  destruct cur as [r|]; [destruct (preserveClip r)|]; try reflexivity.
  rewrite firstn_app. replace (n - length (mClipStack s))%nat with O by lia.
  cbn [firstn]. apply app_nil_r.
Qed.

Lemma exec_base_kept (n : nat) (base : list Clip) (o : Op)
    (s s' : SkiaCanvas) :
  base_kept n base s -> exec o s = Ok s' -> base_kept n base s'.
Proof.
  intros Hbase Hex.
  destruct o; cbn [exec] in Hex;
    try (injection Hex as <-; exact Hbase).
  - injection Hex as <-.
    apply (base_kept_ext n base s); [| |exact Hbase];
      unfold save, recordPartialSave; cbn [sk_save snd mCanvas set_mCanvas];
      destruct (Z.land flags SaveFlags.MatrixClip =? SaveFlags.MatrixClip);
      try reflexivity; intros r Hin; try (left; exact Hin).
    destruct Hin as [<-|Hin]; [right; apply Nat.le_refl | left; exact Hin].
  - apply (restore_base_kept n base s s' Hbase Hex).
  - apply (restoreToCount_base_kept n base restoreCount fuel s s' Hbase Hex).
  - injection Hex as <-. unfold saveLayerAlpha.
    destruct (to_unsigned alpha <? 255); exact Hbase.
  - unfold clipRect, recordClip in Hex.
    destruct (currentSaveRec s) as [cur| |] eqn:Hcur; try discriminate.
    pose proof (clipRect_ok _ _ left top right bottom op Hcur) as Hex'.
    cbn [exec] in Hex'. unfold clipRect, recordClip in Hex'.
    rewrite Hcur in Hex'. rewrite Hex' in Hex. injection Hex as <-.
    apply clipped_base_kept, Hbase.
  - pose proof (fun cur Hcur => clipPath_ok s cur path op Hcur) as Hex'.
    cbn [exec] in Hex'.
    destruct (currentSaveRec s) as [cur| |] eqn:Hcur.
    + rewrite (Hex' cur eq_refl) in Hex. injection Hex as <-.
      destruct (SkPath_isRRect path); apply clipped_base_kept, Hbase.
    + unfold clipPath, recordClip in Hex. rewrite Hcur in Hex.
      destruct (SkPath_isRRect path); discriminate.
    + unfold clipPath, recordClip in Hex. rewrite Hcur in Hex.
      destruct (SkPath_isRRect path); discriminate.
  - injection Hex as <-. destruct Hbase as (Hpre & Hlen & _).
    split; [exact Hpre|]. split; [exact Hlen|]. intros r [].
  - injection Hex as <-. destruct Hbase as (Hpre & Hlen & _).
    split; [exact Hpre|]. split; [exact Hlen|]. intros r [].
Qed.

(** X17: what is in the log while no record is open stays there.  From a
    state with an empty record stack (after a surface swap, say), whatever
    calls follow, those entries remain the first entries of the log, in
    order, and every record pushed later starts above them: no restore ever
    replays or erases them. *)
Theorem log_without_records_is_inert (ops : list Op) :
  forall s s',
    saveRecords s = [] ->
    run ops s = Ok s' ->
    firstn (length (mClipStack s)) (mClipStack s') = mClipStack s
    /\ forall r, In r (saveRecords s') ->
                 (length (mClipStack s) <= clipIndex r)%nat.
Proof.
  intros s s' Hnone Hrun.
  assert (Hbase : base_kept (length (mClipStack s)) (mClipStack s) s).
  { split; [apply firstn_all|]. split; [reflexivity|].
    rewrite Hnone. intros r []. }
  revert Hbase Hrun.
  generalize (mClipStack s) at 2 4 as base.
  generalize (length (mClipStack s)) as n.
  clear Hnone. revert s.
  induction ops as [|o ops IH]; intros s n base Hbase Hrun.
  - cbn [run] in Hrun. injection Hrun as <-.
    destruct Hbase as (Hpre & _ & Hidx). split; assumption.
  - cbn [run] in Hrun.
    destruct (exec o s) as [s1| |] eqn:Hex; try discriminate.
    cbn [bind] in Hrun.
    apply (IH s1 n base); [|exact Hrun].
    apply (exec_base_kept n base o s s1 Hbase Hex).
Qed.

End Properties.


(** * Properties of the draw calls *)

Section DrawingProperties.

Context {sk : Skia}.
Variable nothingToDraw : SkPaint -> bool.
Variable SkIntToScalar : Z -> Scalar.
Variable scalar_zero : Scalar.
Variable scalar_add : Scalar -> Scalar -> Scalar.
Variable scalar_div : Scalar -> Scalar -> Scalar.

(** ** drawPoints and drawLines *)

Lemma read_points_enough (n : nat) :
  forall points,
    (2 * n <= length points)%nat ->
    exists pts,
      read_points n points = Some pts
      /\ length pts = n
      /\ point_floats pts = firstn (2 * n) points.
Proof.
  induction n as [|n IH]; intros points Hlen.
  - exists []. repeat split.
  - destruct points as [|x [|y rest]]; cbn [length] in Hlen; try lia.
    destruct (IH rest ltac:(lia)) as (pts & Hread & Hn & Hfl).
    exists ((x, y) :: pts). cbn [read_points]. rewrite Hread.
    split; [reflexivity|]. split; [cbn [length]; lia|].
    replace (2 * S n)%nat with (S (S (2 * n))) by lia.
    cbn [point_floats flat_map fst snd app firstn].
    fold (point_floats pts). rewrite Hfl. reflexivity.
Qed.

Lemma read_points_short (n : nat) :
  forall points,
    (length points < 2 * n)%nat -> read_points n points = None.
Proof.
  induction n as [|n IH]; intros points Hlen; [lia|].
  destruct points as [|x [|y rest]]; cbn [read_points]; try reflexivity.
  cbn [length] in Hlen. rewrite IH by lia. reflexivity.
Qed.

Lemma shiftr_half (count : Z) : Z.shiftr count 1 = count / 2.
Proof. rewrite Z.shiftr_div_pow2 by lia. reflexivity. Qed.

(** What [drawPoints] comes to, case by case: it issues nothing for fewer than two floats or a paint
    with nothing to draw.  Otherwise it reads exactly the first
    [2 * (count / 2)] floats, pairwise and in order (a trailing odd float
    is never read), and issues one call with [count / 2] points; it reads
    past the end of the array exactly when the array is shorter than that. *)
Lemma drawPoints_reads_pairs_aux (points : list Scalar) (count : Z)
    (paint : SkPaint) (mode : PointMode) :
  ((count < 2 \/ nothingToDraw paint = true) ->
     drawPoints_mode nothingToDraw points count paint mode = Skipped)
  /\ (2 <= count -> nothingToDraw paint = false ->
      2 * (count / 2) <= Z.of_nat (length points) ->
      exists pts,
        drawPoints_mode nothingToDraw points count paint mode
        = Issued (mode, count / 2, pts, paint)
        /\ Z.of_nat (length pts) = count / 2
        /\ point_floats pts = firstn (Z.to_nat (2 * (count / 2))) points)
  /\ (2 <= count -> nothingToDraw paint = false ->
      Z.of_nat (length points) < 2 * (count / 2) ->
      drawPoints_mode nothingToDraw points count paint mode = BadRead).
Proof.
  unfold drawPoints_mode. rewrite shiftr_half.
  split; [|split].
  - intros [Hlt| ->].
    + destruct (Z.ltb_spec count 2); [reflexivity | lia].
    + rewrite orb_true_r. reflexivity.
  - intros Hc Hp Hlen. rewrite Hp.
    destruct (Z.ltb_spec count 2); [lia|]. cbn [orb].
    assert (Hhalf : 0 <= count / 2) by (apply Z.div_pos; lia).
    destruct (read_points_enough (Z.to_nat (count / 2)) points ltac:(lia))
      as (pts & Hread & Hn & Hfl).
    exists pts. rewrite Hread. split; [reflexivity|]. split; [lia|].
    rewrite Hfl. f_equal. lia.
  - intros Hc Hp Hlen. rewrite Hp.
    destruct (Z.ltb_spec count 2); [lia|]. cbn [orb].
    assert (Hhalf : 0 <= count / 2) by (apply Z.div_pos; lia).
    rewrite read_points_short by lia. reflexivity.
Qed.

(** X11: [drawPoints] issues nothing for fewer than two floats or a paint
    with nothing to draw.  Otherwise, given an array of at least [count]
    floats, it stays within the array: it reads the first
    [2 * (count / 2)] floats, pairwise and in order (a trailing odd float
    is never read), and issues one call with [count / 2] points. *)
Theorem drawPoints_reads_pairs (points : list Scalar) (count : Z)
    (paint : SkPaint) (mode : PointMode) :
  ((count < 2 \/ nothingToDraw paint = true) ->
     drawPoints_mode nothingToDraw points count paint mode = Skipped)
  /\ (2 <= count -> nothingToDraw paint = false ->
      count <= Z.of_nat (length points) ->
      exists pts,
        drawPoints_mode nothingToDraw points count paint mode
        = Issued (mode, count / 2, pts, paint)
        /\ Z.of_nat (length pts) = count / 2
        /\ point_floats pts = firstn (Z.to_nat (2 * (count / 2))) points
        /\ 2 * (count / 2) <= count).
Proof.
  split.
  - apply (proj1 (drawPoints_reads_pairs_aux points count paint mode)).
  - intros Hc Hp Hlen.
    assert (Heven : 2 * (count / 2) <= count)
      by (apply Z.mul_div_le; lia).
    destruct (proj1 (proj2 (drawPoints_reads_pairs_aux points count paint mode))
                Hc Hp ltac:(lia)) as (pts & Hrun & Hn & Hfl).
    exists pts. repeat split; assumption.
Qed.

(** X12: [drawLines] issues nothing for fewer than four floats; whatever it
    issues is in lines mode, carries the caller's paint and has at least two
    points, the first [count / 2] of the array. *)
Theorem drawLines_needs_a_segment (points : list Scalar) (count : Z)
    (paint : SkPaint) :
  (count < 4 -> drawLines nothingToDraw points count paint = Skipped)
  /\ forall mode n pts p,
       drawLines nothingToDraw points count paint = Issued (mode, n, pts, p) ->
       mode = kLines_PointMode /\ p = paint /\ n = count / 2 /\ 2 <= n
       /\ Z.of_nat (length pts) = n
       /\ point_floats pts = firstn (Z.to_nat (2 * n)) points.
Proof.
  unfold drawLines. split.
  - intros Hlt. destruct (Z.ltb_spec count 4); [reflexivity | lia].
  - intros mode n pts p.
    destruct (Z.ltb_spec count 4); [discriminate|].
    destruct (nothingToDraw paint) eqn:Hp; [discriminate|]. cbn [orb].
    assert (Hhalf : 2 <= count / 2) by (apply Z.div_le_lower_bound; lia).
    destruct (Z.lt_ge_cases (Z.of_nat (length points)) (2 * (count / 2)))
      as [Hshort|Hlong].
    + rewrite (proj2 (proj2 (drawPoints_reads_pairs_aux points count paint
                 kLines_PointMode)) ltac:(lia) Hp Hshort).
      discriminate.
    + destruct (proj1 (proj2 (drawPoints_reads_pairs_aux points count paint
                 kLines_PointMode)) ltac:(lia) Hp Hlong)
        as (pts' & -> & Hn & Hfl).
      intros Heq. injection Heq as <- <- <- <-.
      repeat split; assumption.
Qed.

(** ** The mesh of drawBitmapMesh *)

(** The loop over the cells of a row, in closed form. *)
Lemma mesh_index_row_closed (meshWidth : Z) (n : nat) :
  forall index,
    mesh_index_row n index meshWidth
    = (flat_map (fun v => map to_uint16 (mesh_cell v meshWidth))
         (map (fun j => index + Z.of_nat j) (seq 0 n)),
       index + Z.of_nat n).
Proof.
  induction n as [|n IH]; intros index.
  - cbn [mesh_index_row seq map flat_map]. f_equal. lia.
  - cbn [mesh_index_row]. rewrite IH.
    rewrite <- cons_seq, <- seq_shift. cbn [map flat_map].
    rewrite map_map, Z.add_0_r. f_equal; [|lia].
    f_equal. f_equal. apply map_ext. intros j. lia.
Qed.

(** The loop over the rows, in closed form. *)
Lemma mesh_index_rows_closed (meshWidth : Z) (n : nat) :
  0 <= meshWidth ->
  forall index,
    mesh_index_rows n index meshWidth
    = flat_map (fun v => map to_uint16 (mesh_cell v meshWidth))
        (flat_map
           (fun i => map (fun j => index + Z.of_nat i * (meshWidth + 1)
                                   + Z.of_nat j)
                       (seq 0 (Z.to_nat meshWidth)))
           (seq 0 n)).
Proof.
  intros Hw. induction n as [|n IH]; intros index.
  - reflexivity.
  - cbn [mesh_index_rows]. rewrite mesh_index_row_closed, IH.
    rewrite <- cons_seq, <- seq_shift. cbn [flat_map].
    rewrite flat_map_app. f_equal.
    + f_equal. apply map_ext. intros j. lia.
    + f_equal. rewrite !flat_map_concat_map, map_map. f_equal.
      apply map_ext. intros i. apply map_ext. intros j.
      rewrite Z2Nat.id by exact Hw. lia.
Qed.

Lemma mesh_cells_In (meshWidth meshHeight v : Z) :
  In v (mesh_cells meshWidth meshHeight) ->
  exists i j,
    (i < Z.to_nat meshHeight)%nat /\ (j < Z.to_nat meshWidth)%nat
    /\ v = mesh_vertex meshWidth i j.
Proof.
  unfold mesh_cells. rewrite in_flat_map. intros (i & Hi & Hv).
  apply in_map_iff in Hv. destruct Hv as (j & <- & Hj).
  apply in_seq in Hi. apply in_seq in Hj.
  exists i, j. repeat split; lia.
Qed.

Lemma mesh_cells_length (meshWidth meshHeight : Z) :
  length (mesh_cells meshWidth meshHeight)
  = (Z.to_nat meshHeight * Z.to_nat meshWidth)%nat.
Proof.
  unfold mesh_cells.
  assert (Hrows : forall rows : list nat,
             length (flat_map
                       (fun i => map (mesh_vertex meshWidth i)
                                   (seq 0 (Z.to_nat meshWidth))) rows)
             = (length rows * Z.to_nat meshWidth)%nat).
  { induction rows as [|i rows IH]; cbn [flat_map length]; [reflexivity|].
    rewrite length_app, length_map, length_seq, IH. lia. }
  rewrite Hrows, length_seq. reflexivity.
Qed.

Lemma cells_indices_length (meshWidth : Z) (cells : list Z) :
  length (flat_map (fun v => map to_uint16 (mesh_cell v meshWidth)) cells)
  = (6 * length cells)%nat.
Proof.
  induction cells as [|v cells IH]; cbn [flat_map length]; [reflexivity|].
  rewrite length_app, IH. cbn [mesh_cell map length]. lia.
Qed.

Lemma to_uint16_le (z : Z) : 0 <= z -> 0 <= to_uint16 z <= z.
Proof.
  intros Hz. unfold to_uint16. split.
  - apply Z.mod_pos_bound. lia.
  - apply Z.mod_le; lia.
Qed.

Lemma to_uint16_small (z : Z) : 0 <= z < 2 ^ 16 -> to_uint16 z = z.
Proof. intros Hz. unfold to_uint16. apply Z.mod_small. exact Hz. Qed.

(** Every index of a cell of the mesh names a vertex of the mesh. *)
Lemma mesh_cell_bound (meshWidth meshHeight : Z) (i j : nat) (e : Z) :
  0 <= meshWidth -> 0 <= meshHeight ->
  (i < Z.to_nat meshHeight)%nat -> (j < Z.to_nat meshWidth)%nat ->
  In e (mesh_cell (mesh_vertex meshWidth i j) meshWidth) ->
  0 <= e < mesh_ptCount meshWidth meshHeight.
Proof.
  intros Hw Hh Hi Hj Hin. unfold mesh_ptCount, mesh_vertex in *.
  assert (Hi' : Z.of_nat i + 1 <= meshHeight) by lia.
  assert (Hj' : Z.of_nat j + 1 <= meshWidth) by lia.
  assert (Hrow : (Z.of_nat i + 1) * (meshWidth + 1)
                 <= meshHeight * (meshWidth + 1))
    by (apply Z.mul_le_mono_nonneg_r; lia).
  assert (Hpos : 0 <= Z.of_nat i * (meshWidth + 1))
    by (apply Z.mul_nonneg_nonneg; lia).
  cbn [mesh_cell In] in Hin.
  destruct Hin as [<-|[<-|[<-|[<-|[<-|[<-|[]]]]]]]; lia.
Qed.

Lemma mesh_indices_cells (meshWidth meshHeight : Z) :
  0 <= meshWidth ->
  mesh_indices meshWidth meshHeight
  = flat_map (fun v => map to_uint16 (mesh_cell v meshWidth))
      (mesh_cells meshWidth meshHeight).
Proof.
  intros Hw. unfold mesh_indices, mesh_cells.
  rewrite (mesh_index_rows_closed meshWidth (Z.to_nat meshHeight) Hw 0).
  reflexivity.
Qed.

(** X13: the index loops of [drawBitmapMesh] in closed form.  For each cell,
    row by row, they store the two triangles on its lower-left vertex
    [v = i * (meshWidth + 1) + j], namely [v, v + meshWidth + 1,
    v + meshWidth + 2] and [v, v + meshWidth + 2, v + 1], each index cut to
    sixteen bits; for a mesh of at most 65536 vertices nothing is cut. *)
Theorem mesh_indices_closed_form (meshWidth meshHeight : Z) :
  0 <= meshWidth -> 0 <= meshHeight ->
  mesh_indices meshWidth meshHeight
  = flat_map (fun v => map to_uint16 (mesh_cell v meshWidth))
      (mesh_cells meshWidth meshHeight)
  /\ (mesh_ptCount meshWidth meshHeight <= 2 ^ 16 ->
      mesh_indices meshWidth meshHeight
      = flat_map (fun v => mesh_cell v meshWidth)
          (mesh_cells meshWidth meshHeight)).
Proof.
  intros Hw Hh.
  pose proof (mesh_indices_cells meshWidth meshHeight Hw) as Hclosed.
  split; [exact Hclosed|].
  intros Hsmall. rewrite Hclosed.
  rewrite !flat_map_concat_map. f_equal. apply map_ext_in.
  intros v Hv. destruct (mesh_cells_In _ _ _ Hv) as (i & j & Hi & Hj & ->).
  rewrite <- (map_id (mesh_cell (mesh_vertex meshWidth i j) meshWidth)) at 2.
  apply map_ext_in. intros e He. apply to_uint16_small.
  pose proof (mesh_cell_bound meshWidth meshHeight i j e Hw Hh Hi Hj He). lia.
Qed.

(** X14: the two checks the source makes on the indices hold, for a mesh
    whose vertex and index counts fit an [int]: the loops write exactly
    [meshWidth * meshHeight * 6] indices, and every one of them is below
    the number of vertices. *)
Theorem mesh_indices_legal (meshWidth meshHeight : Z) :
  0 <= meshWidth -> 0 <= meshHeight ->
  mesh_ptCount meshWidth meshHeight < 2 ^ 31 ->
  mesh_indexCount meshWidth meshHeight < 2 ^ 31 ->
  Z.of_nat (length (mesh_indices meshWidth meshHeight))
  = mesh_indexCount meshWidth meshHeight
  /\ Forall (fun e => 0 <= e < mesh_ptCount meshWidth meshHeight)
       (mesh_indices meshWidth meshHeight).
Proof.
  intros Hw Hh _ _. rewrite (mesh_indices_cells meshWidth meshHeight Hw). split.
  - rewrite cells_indices_length, mesh_cells_length. unfold mesh_indexCount.
    rewrite !Nat2Z.inj_mul, !Z2Nat.id by lia. change (Z.of_nat 6) with 6. lia.
  - apply Forall_forall. intros e He.
    apply in_flat_map in He. destruct He as (v & Hv & He).
    apply in_map_iff in He. destruct He as (e0 & <- & He0).
    destruct (mesh_cells_In _ _ _ Hv) as (i & j & Hi & Hj & ->).
    pose proof (mesh_cell_bound meshWidth meshHeight i j e0 Hw Hh Hi Hj He0)
      as Hb.
    pose proof (to_uint16_le e0 ltac:(lia)). lia.
Qed.

Lemma mesh_tex_row_length (n : nat) :
  forall x y dx, length (mesh_tex_row scalar_add n x y dx) = n.
Proof.
  induction n as [|n IH]; intros x y dx; cbn [mesh_tex_row length];
    [reflexivity|]. rewrite IH. reflexivity.
Qed.

Lemma mesh_tex_rows_length (meshWidth meshHeight : Z) (w h dx dy : Scalar)
    (n : nat) :
  forall i y,
    length (mesh_tex_rows scalar_zero scalar_add n i meshWidth meshHeight
              w h dx dy y)
    = (n * (Z.to_nat meshWidth + 1))%nat.
Proof.
  induction n as [|n IH]; intros i y; cbn [mesh_tex_rows]; [reflexivity|].
  rewrite length_app, mesh_tex_row_length. cbn [length]. rewrite IH. lia.
Qed.

Lemma mesh_tex_row_nth (n : nat) :
  forall x y dx j,
    (j < n)%nat ->
    exists x', nth_error (mesh_tex_row scalar_add n x y dx) j = Some (x', y).
Proof.
  induction n as [|n IH]; intros x y dx j Hj; [lia|].
  cbn [mesh_tex_row]. destruct j as [|j].
  - exists x. reflexivity.
  - cbn [nth_error]. apply IH. lia.
Qed.

(** The point at column [j] of row [k] of what is left to write: in the
    last column its abscissa is [w], and in the last row of the mesh its
    ordinate is [h]. *)
Lemma mesh_tex_rows_nth (meshWidth meshHeight : Z) (w h dx dy : Scalar)
    (n : nat) :
  forall i y k j,
    (k < n)%nat -> (j <= Z.to_nat meshWidth)%nat ->
    exists x' y',
      nth_error
        (mesh_tex_rows scalar_zero scalar_add n i meshWidth meshHeight
           w h dx dy y)
        (k * (Z.to_nat meshWidth + 1) + j)
      = Some (x', y')
      /\ (j = Z.to_nat meshWidth -> x' = w)
      /\ (i + Z.of_nat k = meshHeight -> y' = h).
Proof.
  induction n as [|n IH]; intros i y k j Hk Hj; [lia|].
  cbn [mesh_tex_rows].
  set (y0 := if i =? meshHeight then h else y).
  destruct k as [|k].
  - assert (Hy0 : i + Z.of_nat 0 = meshHeight -> y0 = h).
    { intros Hi. unfold y0.
      destruct (Z.eqb_spec i meshHeight); [reflexivity|lia]. }
    cbn [Nat.mul Nat.add].
    destruct (Nat.eq_dec j (Z.to_nat meshWidth)) as [->|Hne].
    + exists w, y0. split; [|split; [reflexivity|exact Hy0]].
      rewrite nth_error_app2 by (rewrite mesh_tex_row_length; lia).
      rewrite mesh_tex_row_length, Nat.sub_diag. reflexivity.
    + destruct (mesh_tex_row_nth (Z.to_nat meshWidth) scalar_zero y0 dx j
                  ltac:(lia)) as (x' & Hnth).
      exists x', y0. split; [|split; [intros ->; contradiction|exact Hy0]].
      rewrite nth_error_app1 by (rewrite mesh_tex_row_length; lia).
      exact Hnth.
  - destruct (IH (i + 1) (scalar_add y0 dy) k j ltac:(lia) Hj)
      as (x' & y' & Hnth & Hx & Hy).
    exists x', y'. split; [|split; [exact Hx|intros Hi; apply Hy; lia]].
    rewrite nth_error_app2 by (rewrite mesh_tex_row_length; lia).
    rewrite mesh_tex_row_length.
    replace (S k * (Z.to_nat meshWidth + 1) + j - Z.to_nat meshWidth)%nat
      with (S (k * (Z.to_nat meshWidth + 1) + j)) by lia.
    cbn [nth_error]. exact Hnth.
Qed.

(** X15: the texture coordinates of [drawBitmapMesh].  The loops write one
    point per vertex, row by row; whatever the rounding of the running
    sums, the point in the last column of every row has the bitmap's width
    as abscissa and every point of the last row has the bitmap's height as
    ordinate. *)
Theorem mesh_texs_hit_the_edges
    (bitmapWidth bitmapHeight meshWidth meshHeight : Z) :
  0 <= meshWidth -> 0 <= meshHeight ->
  Z.of_nat (length (mesh_texs SkIntToScalar scalar_zero scalar_add scalar_div
                      bitmapWidth bitmapHeight meshWidth meshHeight))
  = mesh_ptCount meshWidth meshHeight
  /\ forall k j,
       (k <= Z.to_nat meshHeight)%nat -> (j <= Z.to_nat meshWidth)%nat ->
       exists x y,
         nth_error
           (mesh_texs SkIntToScalar scalar_zero scalar_add scalar_div
              bitmapWidth bitmapHeight meshWidth meshHeight)
           (k * (Z.to_nat meshWidth + 1) + j)
         = Some (x, y)
         /\ (j = Z.to_nat meshWidth -> x = SkIntToScalar bitmapWidth)
         /\ (k = Z.to_nat meshHeight -> y = SkIntToScalar bitmapHeight).
Proof.
  intros Hw Hh. unfold mesh_texs. split.
  - rewrite mesh_tex_rows_length. unfold mesh_ptCount.
    rewrite Nat2Z.inj_mul, Nat2Z.inj_add, !Z2Nat.id by lia.
    change (Z.of_nat 1) with 1. lia.
  - intros k j Hk Hj.
    destruct (mesh_tex_rows_nth meshWidth meshHeight
                (SkIntToScalar bitmapWidth) (SkIntToScalar bitmapHeight)
                (scalar_div (SkIntToScalar bitmapWidth) (SkIntToScalar meshWidth))
                (scalar_div (SkIntToScalar bitmapHeight) (SkIntToScalar meshHeight))
                (Z.to_nat (meshHeight + 1)) 0 scalar_zero k j ltac:(lia) Hj)
      as (x & y & Hnth & Hx & Hy).
    exists x, y. split; [exact Hnth|]. split; [exact Hx|].
    intros ->. apply Hy. lia.
Qed.

(** ** Drawing a bitmap under a matrix *)

(** X10: [drawBitmap] with a matrix issues one backend draw of the given
    bitmap, at the origin, with the given paint, on a backend whose total
    transform is the current one followed by the matrix, whose clip is the
    current one and whose save depth is one more than the current one; the
    engine it leaves is the one it was given: transform, clip, depth,
    records and log untouched. *)
Theorem drawBitmap_matrix_leaves_state (bitmap : SkBitmap) (matrix : SkMatrix)
    (paint : option SkPaint) (s : SkiaCanvas) :
  snd (drawBitmap_matrix scalar_zero bitmap matrix paint s) = s
  /\ call_bitmap (fst (drawBitmap_matrix scalar_zero bitmap matrix paint s))
     = bitmap
  /\ call_left (fst (drawBitmap_matrix scalar_zero bitmap matrix paint s))
     = scalar_zero
  /\ call_top (fst (drawBitmap_matrix scalar_zero bitmap matrix paint s))
     = scalar_zero
  /\ call_paint (fst (drawBitmap_matrix scalar_zero bitmap matrix paint s))
     = paint
  /\ sk_getTotalMatrix
       (call_canvas (fst (drawBitmap_matrix scalar_zero bitmap matrix paint s)))
     = SkMatrix_concat (getMatrix s) matrix
  /\ sk_getClip
       (call_canvas (fst (drawBitmap_matrix scalar_zero bitmap matrix paint s)))
     = sk_getClip (mCanvas s)
  /\ sk_getSaveCount
       (call_canvas (fst (drawBitmap_matrix scalar_zero bitmap matrix paint s)))
     = getSaveCount s + 1.
Proof.
  unfold drawBitmap_matrix. cbn [fst snd].
  split.
  - rewrite (restore_over _ (mCanvas s)) by reflexivity.
    destruct s; reflexivity.
  - cbn [call_bitmap call_left call_top call_paint call_canvas].
    do 6 (split; [reflexivity|]).
    unfold getSaveCount, sk_getSaveCount, sk_concat, sk_setMatrix, sk_save.
    cbn [snd fSaved]. change (length (fTop (mCanvas s) :: fSaved (mCanvas s)))
      with (S (length (fSaved (mCanvas s)))).
    rewrite Nat2Z.inj_succ. lia.
Qed.

End DrawingProperties.

(** * The theorems at work on the small backend *)

Import Toy.

Lemma in_clip_frame_reachable : reachable in_clip_frame.
Proof.
  apply reachable_step with (s := after [OpSave SaveFlags.Matrix] fresh)
                            (o := clipRectOp rectA kIntersect); [|reflexivity].
  apply reachable_step with (s := fresh) (o := OpSave SaveFlags.Matrix);
    [|reflexivity].
  apply reachable_new.
Qed.

(** C1 as stated fails: after the scenario the clip is the pre-save clip
    narrowed by A and B, not the pre-save clip. *)
Lemma clips_of_clip_preserving_frame_stay_in_effect :
  hasFlag SaveFlags.Matrix SaveFlags.Clip = false
  /\ exists s',
       run scenario fresh = Ok s'
       /\ sk_getClip (mCanvas s') = mkRect 10 10 30 30
       /\ sk_getClip (mCanvas fresh) = mkRect 0 0 100 100
       /\ sk_getClip (mCanvas s') <> sk_getClip (mCanvas fresh).
Proof.
  split; [reflexivity|]. eexists. split; [reflexivity|].
  repeat split. discriminate.
Qed.

Lemma rect_round_trip_toy :
  forall rect : Rect, SkRRect_rect (SkRRect_MakeRect rect) = rect.
Proof. intros rect. reflexivity. Qed.

Lemma clips_in_clip_preserving_frame_survive_restore_witness :
  currentSaveRec fresh = Ok None
  /\ hasFlag SaveFlags.Matrix SaveFlags.Clip = false
  /\ (forall rect : Rect, SkRRect_rect (SkRRect_MakeRect rect) = rect)
  /\ exists s3 s',
       run [OpSave SaveFlags.Matrix; clipRectOp rectA kIntersect;
            clipRectOp rectB kIntersect] fresh = Ok s3
       /\ run scenario fresh = Ok s'
       /\ sk_getClip (mCanvas s')
          = intersect rectB (intersect rectA (sk_getClip (mCanvas fresh)))
       /\ sk_getClip (mCanvas s') = sk_getClip (mCanvas s3).
Proof.
  split; [reflexivity|]. split; [reflexivity|].
  split; [exact rect_round_trip_toy|].
  destruct (clips_in_clip_preserving_frame_survive_restore
              fresh None SaveFlags.Matrix 0 0 50 50 10 10 30 30
              kIntersect kIntersect eq_refl eq_refl)
    as (s3 & s' & Hrun3 & _ & Hrun & _ & _ & Hround & _).
  destruct (Hround rect_round_trip_toy) as (Hdirect & Hsame).
  exists s3, s'. split; [exact Hrun3|]. split; [exact Hrun|].
  split; [exact Hdirect | exact Hsame].
Defined.

Lemma moved_in_clip_frame_reachable : reachable moved_in_clip_frame.
Proof.
  apply reachable_step with (s := in_clip_frame) (o := @OpTranslate skia 5 7);
    [apply in_clip_frame_reachable | reflexivity].
Qed.

(** C2 as stated fails twice over: after [setBitmap] on a reachable state
    with a bitmap that is not null, the transform is the prior one and the
    record stack is gone, but the clip region is not the prior one and the
    clip log is not empty. *)
Lemma setBitmap_leaves_clip_log :
  reachable moved_in_clip_frame
  /\ SkBitmap_isNull small_bitmap = false
  /\ getMatrix (setBitmap small_bitmap moved_in_clip_frame)
     = getMatrix moved_in_clip_frame
  /\ mSaveStack (setBitmap small_bitmap moved_in_clip_frame) = None
  /\ sk_getClip (mCanvas moved_in_clip_frame) = mkRect 0 0 50 50
  /\ sk_getClip (mCanvas (setBitmap small_bitmap moved_in_clip_frame))
     = mkRect 5 7 55 57
  /\ sk_getClip (mCanvas (setBitmap small_bitmap moved_in_clip_frame))
     <> sk_getClip (mCanvas moved_in_clip_frame)
  /\ length (mClipStack (setBitmap small_bitmap moved_in_clip_frame)) = 1%nat
  /\ mClipStack (setBitmap small_bitmap moved_in_clip_frame) <> []
  /\ ~ (getMatrix (setBitmap small_bitmap moved_in_clip_frame)
          = getMatrix moved_in_clip_frame
        /\ sk_getClip (mCanvas (setBitmap small_bitmap moved_in_clip_frame))
           = sk_getClip (mCanvas moved_in_clip_frame)
        /\ mSaveStack (setBitmap small_bitmap moved_in_clip_frame) = None
        /\ mClipStack (setBitmap small_bitmap moved_in_clip_frame) = []).
Proof.
  split; [apply moved_in_clip_frame_reachable|].
  do 5 (split; [reflexivity|]).
  split; [discriminate|]. split; [reflexivity|].
  split; [discriminate|].
  intros (_ & _ & _ & Hlog). discriminate Hlog.
Qed.

Lemma setBitmap_drops_records_keeps_log_witness :
  SkBitmap_isNull small_bitmap = false
  /\ getMatrix (setBitmap small_bitmap moved_in_clip_frame) = (5, 7)
  /\ sk_getClip (mCanvas (setBitmap small_bitmap moved_in_clip_frame))
     = mkRect 5 7 55 57
  /\ getSaveCount (setBitmap small_bitmap moved_in_clip_frame) = 1
  /\ mSaveStack (setBitmap small_bitmap moved_in_clip_frame) = None
  /\ mClipStack (setBitmap small_bitmap moved_in_clip_frame)
     = mClipStack moved_in_clip_frame.
Proof.
  split; [reflexivity|].
  destruct (setBitmap_drops_records_keeps_log small_bitmap
              moved_in_clip_frame eq_refl)
    as (Hm & Hclip & Hcount & Hst & Hlog).
  split; [rewrite Hm; reflexivity|].
  split; [rewrite Hclip; reflexivity|].
  split; [exact Hcount|]. split; [exact Hst | exact Hlog].
Defined.

(** C3 as stated fails in both directions: in a frame whose record
    preserves the clip the call appends to the log, and in a frame whose
    record does not preserve it nothing is appended. *)
Lemma clip_logged_when_record_preserves_clip :
  (exists r s',
      currentSaveRec (after [OpSave SaveFlags.Matrix] fresh) = Ok (Some r)
      /\ preserveClip r = true
      /\ recordClip (ShapeRect rectA) kIntersect
           (after [OpSave SaveFlags.Matrix] fresh) = Ok s'
      /\ mClipStack s'
         = mClipStack (after [OpSave SaveFlags.Matrix] fresh)
           ++ [Clip_new (ShapeRect rectA) kIntersect (0, 0)]
      /\ ~ (mClipStack s'
            = mClipStack (after [OpSave SaveFlags.Matrix] fresh)
              ++ [Clip_new (ShapeRect rectA) kIntersect (0, 0)]
            <-> exists r',
                  currentSaveRec (after [OpSave SaveFlags.Matrix] fresh)
                  = Ok (Some r')
                  /\ preserveClip r' = false))
  /\ (exists r s',
      currentSaveRec (after [OpSave SaveFlags.Clip] fresh) = Ok (Some r)
      /\ preserveClip r = false
      /\ recordClip (ShapeRect rectA) kIntersect
           (after [OpSave SaveFlags.Clip] fresh) = Ok s'
      /\ mClipStack s' = mClipStack (after [OpSave SaveFlags.Clip] fresh)).
Proof.
  split.
  - do 2 eexists. do 4 (split; [reflexivity|]).
    intros [Hif _]. destruct (Hif eq_refl) as (r' & Hcur & Hpc).
    injection Hcur as <-. discriminate Hpc.
  - do 2 eexists. repeat split.
Qed.

Lemma clip_call_logs_when_clip_preserved_witness :
  (forall r, hd_error (saveRecords under_full_frame) = Some r ->
             saveCount r <= getSaveCount under_full_frame)
  /\ hd_error (saveRecords under_full_frame) = Some (mkSaveRec 2 1 0)
  /\ preserveClip (mkSaveRec 2 1 0) = true
  /\ getSaveCount under_full_frame = 3
  /\ (exists s',
        recordClip (ShapeRect rectA) kIntersect under_full_frame = Ok s'
        /\ mClipStack s' = mClipStack under_full_frame)
  /\ (forall r, hd_error (saveRecords (after [OpSave SaveFlags.Matrix] fresh))
                = Some r ->
                saveCount r
                <= getSaveCount (after [OpSave SaveFlags.Matrix] fresh))
  /\ exists s',
       recordClip (ShapeRect rectA) kIntersect
         (after [OpSave SaveFlags.Matrix] fresh) = Ok s'
       /\ length (mClipStack s') = 1%nat.
Proof.
  assert (H1 : forall r, hd_error (saveRecords under_full_frame) = Some r ->
                         saveCount r <= getSaveCount under_full_frame).
  { intros r Hr. injection Hr as <-. discriminate. }
  assert (H2 : forall r,
             hd_error (saveRecords (after [OpSave SaveFlags.Matrix] fresh))
             = Some r ->
             saveCount r
             <= getSaveCount (after [OpSave SaveFlags.Matrix] fresh)).
  { intros r Hr. injection Hr as <-. discriminate. }
  split; [exact H1|]. do 3 (split; [reflexivity|]).
  split; [|split; [exact H2|]].
  - destruct (proj1 (clip_call_logs_when_clip_preserved under_full_frame H1)
                (ShapeRect rectA) kIntersect) as (s' & Hrec & Hlog & _).
    exists s'. split; [exact Hrec | exact Hlog].
  - destruct (proj1 (clip_call_logs_when_clip_preserved
                       (after [OpSave SaveFlags.Matrix] fresh) H2)
                (ShapeRect rectA) kIntersect) as (s' & Hrec & Hlog & _).
    exists s'. split; [exact Hrec|]. rewrite Hlog. reflexivity.
Defined.

Lemma applyPersistentClips_erases_unless_current_preserves_witness :
  (0 <= length (mClipStack nested_popped))%nat
  /\ (forall r, hd_error (saveRecords nested_popped) = Some r ->
                saveCount r <= getSaveCount nested_popped)
  /\ hd_error (saveRecords nested_popped) = Some (mkSaveRec 2 1 0)
  /\ preserveClip (mkSaveRec 2 1 0) = true
  /\ getSaveCount nested_popped = 3
  /\ length (mClipStack nested_popped) = 1%nat
  /\ restore nested = applyPersistentClips 0 nested_popped
  /\ (exists s',
        applyPersistentClips 0 nested_popped = Ok s' /\ mClipStack s' = [])
  /\ (0 <= length (mClipStack in_clip_frame))%nat
  /\ (forall r, hd_error (saveRecords in_clip_frame) = Some r ->
                saveCount r <= getSaveCount in_clip_frame)
  /\ exists s',
       applyPersistentClips 0 in_clip_frame = Ok s'
       /\ mClipStack s' = mClipStack in_clip_frame.
Proof.
  assert (H1 : forall r, hd_error (saveRecords nested_popped) = Some r ->
                         saveCount r <= getSaveCount nested_popped).
  { intros r Hr. injection Hr as <-. discriminate. }
  assert (H2 : forall r, hd_error (saveRecords in_clip_frame) = Some r ->
                         saveCount r <= getSaveCount in_clip_frame).
  { intros r Hr. injection Hr as <-. discriminate. }
  split; [apply Nat.le_0_l|]. split; [exact H1|].
  do 5 (split; [reflexivity|]).
  split; [|split; [apply Nat.le_0_l|split; [exact H2|]]].
  - destruct (applyPersistentClips_erases_unless_current_preserves
                0 nested_popped (Nat.le_0_l _) H1) as (s' & Hrun & _ & Hlog).
    exists s'. split; [exact Hrun | exact Hlog].
  - destruct (applyPersistentClips_erases_unless_current_preserves
                0 in_clip_frame (Nat.le_0_l _) H2) as (s' & Hrun & _ & Hlog).
    exists s'. split; [exact Hrun | exact Hlog].
Defined.

Lemma applyPersistentClips_replays_under_frozen_transforms_witness :
  (0 <= length (mClipStack in_clip_frame))%nat
  /\ currentSaveRec in_clip_frame = Ok (Some (mkSaveRec 2 1 0))
  /\ exists s',
       applyPersistentClips 0 in_clip_frame = Ok s'
       /\ getMatrix s' = getMatrix in_clip_frame.
Proof.
  split; [apply Nat.le_0_l|]. split; [reflexivity|].
  destruct (applyPersistentClips_replays_under_frozen_transforms
              0 in_clip_frame (Some (mkSaveRec 2 1 0))
              (Nat.le_0_l _) eq_refl)
    as (s' & Hrun & _ & _ & _ & Hm & _).
  exists s'. split; [exact Hrun | exact Hm].
Defined.

Lemma restore_keeps_preserved_matrix_witness :
  currentSaveRec in_matrix_frame = Ok (Some (mkSaveRec 2 2 0))
  /\ preserveMatrix (mkSaveRec 2 2 0) = true
  /\ wf in_matrix_frame = true
  /\ exists s',
       restore in_matrix_frame = Ok s'
       /\ getMatrix s' = getMatrix in_matrix_frame.
Proof.
  split; [reflexivity|]. split; [reflexivity|]. split; [reflexivity|].
  destruct (restore_keeps_preserved_matrix in_matrix_frame (mkSaveRec 2 2 0)
              eq_refl eq_refl) as (Hafter & Hreturns).
  destruct (Hreturns eq_refl) as (s' & Hrun & _).
  exists s'. split; [exact Hrun | apply (Hafter s' Hrun)].
Defined.

Lemma restoreToCount_restores_only_above_target_witness :
  getSaveCount two_deep <= 3
  /\ restoreToCount 0 3 two_deep = Ok two_deep
  /\ wf two_deep = true
  /\ 1 <= 1
  /\ exists s',
       restoreToCount (Z.to_nat (getSaveCount two_deep - 1)) 1 two_deep = Ok s'
       /\ getSaveCount s' = Z.min (getSaveCount two_deep) 1.
Proof.
  assert (Hle : getSaveCount two_deep <= 3) by (vm_compute; discriminate).
  split; [exact Hle|].
  split; [exact (proj1 (restoreToCount_restores_only_above_target 3 two_deep)
                   Hle O)|].
  split; [reflexivity|]. split; [apply Z.le_refl|].
  exact (proj2 (proj2 (proj2
           (restoreToCount_restores_only_above_target 1 two_deep)))
           eq_refl (Z.le_refl 1)).
Defined.

Lemma assertions_unreachable_witness :
  reachable in_clip_frame
  /\ forall o f, exec o in_clip_frame <> Fatal f.
Proof.
  split; [apply in_clip_frame_reachable|].
  exact (proj2 (proj2 (proj2
           (assertions_unreachable in_clip_frame in_clip_frame_reachable)))).
Defined.

Lemma saveLayerAlpha_unsigned_compare_witness :
  - 2 ^ 31 <= -1 < 2 ^ 31
  /\ saveLayerAlpha 0 0 10 10 (-1) 0 fresh = saveLayer 0 0 10 10 None 0 fresh
  /\ saveLayerAlpha 0 0 10 10 128 0 fresh
     = saveLayer 0 0 10 10 (Some 128) 0 fresh.
Proof.
  assert (H1 : - 2 ^ 31 <= -1 < 2 ^ 31) by (split; [discriminate | reflexivity]).
  assert (H2 : - 2 ^ 31 <= 128 < 2 ^ 31) by (split; [discriminate | reflexivity]).
  split; [exact H1|]. split.
  - apply (proj1 (saveLayerAlpha_unsigned_compare (sk := skia) 0 0 10 10 (-1) 0 fresh H1)).
    left. reflexivity.
  - apply (proj2 (saveLayerAlpha_unsigned_compare (sk := skia) 0 0 10 10 128 0 fresh H2)).
    split; [discriminate | reflexivity].
Defined.

(** ** Frames, invariants and draw calls on the small backend *)

Lemma in_clip_restoring_frame_on_surface :
  reachable_on_surface in_clip_restoring_frame.
Proof.
  apply on_surface_step with (s := fresh) (o := OpSave SaveFlags.Clip);
    [apply on_surface_new | reflexivity | reflexivity].
Qed.

Lemma save_restore_frame_witness :
  forallb flat inside = true
  /\ currentSaveRec fresh = Ok None
  /\ exists s',
       run (OpSave 0 :: inside ++ [OpRestore]) fresh = Ok s'
       /\ getMatrix s' = (5, 7)
       /\ sk_getClip (mCanvas s') = mkRect 5 7 55 57.
Proof.
  split; [reflexivity|]. split; [reflexivity|].
  destruct (save_restore_frame 0 inside None fresh eq_refl eq_refl)
    as (s' & Hrun & Hm & Hc & _).
  exists s'. split; [exact Hrun|]. split; [exact Hm | exact Hc].
Defined.

Lemma full_frame_restores_state_witness :
  opens_full_frame (OpSaveLayerAlpha 0 0 10 10 128 0) = true
  /\ forallb flat inside = true
  /\ currentSaveRec in_clip_frame = Ok (Some (mkSaveRec 2 1 0))
  /\ run (OpSaveLayerAlpha 0 0 10 10 128 0 :: inside ++ [OpRestore])
       in_clip_frame
     = Ok in_clip_frame.
Proof.
  split; [reflexivity|]. split; [reflexivity|]. split; [reflexivity|].
  exact (full_frame_restores_state (OpSaveLayerAlpha 0 0 10 10 128 0) inside
           (Some (mkSaveRec 2 1 0)) in_clip_frame eq_refl eq_refl eq_refl).
Defined.

Lemma restore_keeps_preserved_clip_witness :
  forallb flat inside = true
  /\ currentSaveRec fresh = Ok None
  /\ hasFlag SaveFlags.Matrix SaveFlags.Clip = false
  /\ exists s2 s',
       run (OpSave SaveFlags.Matrix :: inside) fresh = Ok s2
       /\ restore s2 = Ok s'
       /\ sk_getClip (mCanvas s') = sk_getClip (mCanvas s2).
Proof.
  split; [reflexivity|]. split; [reflexivity|]. split; [reflexivity|].
  destruct (restore_keeps_preserved_clip SaveFlags.Matrix inside None fresh
              rect_round_trip_toy eq_refl eq_refl eq_refl)
    as (s2 & s' & Hrun & Hres & Hclip & _).
  exists s2, s'. split; [exact Hrun|]. split; [exact Hres | exact Hclip].
Defined.

Lemma restoreToCount_closes_saved_frame_witness :
  forallb flat inside = true
  /\ currentSaveRec fresh = Ok None
  /\ exists s2 s',
       run (OpSave 0 :: inside) fresh = Ok s2
       /\ restoreToCount 1 (fst (save 0 fresh)) s2 = Ok s'
       /\ getSaveCount s' = getSaveCount fresh.
Proof.
  split; [reflexivity|]. split; [reflexivity|].
  destruct (restoreToCount_closes_saved_frame 0 inside None fresh
              eq_refl eq_refl)
    as (s2 & s' & Hrun & _ & Hloop & Hcount & _).
  exists s2, s'. split; [exact Hrun|]. split; [exact (Hloop O) | exact Hcount].
Defined.

Lemma log_empty_without_clip_preserving_record_witness :
  reachable_on_surface in_clip_restoring_frame
  /\ (forall r, In r (saveRecords in_clip_restoring_frame) ->
                preserveClip r = false)
  /\ mClipStack in_clip_restoring_frame = [].
Proof.
  assert (Hnone : forall r, In r (saveRecords in_clip_restoring_frame) ->
                            preserveClip r = false).
  { intros r [<-|[]]. reflexivity. }
  split; [apply in_clip_restoring_frame_on_surface|].
  split; [exact Hnone|].
  exact (log_empty_without_clip_preserving_record in_clip_restoring_frame
           in_clip_restoring_frame_on_surface Hnone).
Defined.

Lemma records_fewer_than_frames_witness :
  reachable in_clip_frame
  /\ Z.of_nat (length (saveRecords in_clip_frame)) < getSaveCount in_clip_frame.
Proof.
  split; [apply in_clip_frame_reachable|].
  exact (proj1 (records_fewer_than_frames in_clip_frame
                  in_clip_frame_reachable)).
Defined.

Lemma restore_at_bottom_is_noop_witness :
  reachable fresh /\ getSaveCount fresh = 1 /\ restore fresh = Ok fresh.
Proof.
  assert (Hreach : reachable fresh) by apply reachable_new.
  split; [exact Hreach|]. split; [reflexivity|].
  exact (proj2 (restore_at_bottom_is_noop fresh Hreach eq_refl)).
Defined.

Lemma restore_only_trims_log_witness :
  restore in_clip_frame = Ok (after [OpRestore] in_clip_frame)
  /\ exists n,
       mClipStack (after [OpRestore] in_clip_frame)
       = firstn n (mClipStack in_clip_frame).
Proof.
  split; [reflexivity|].
  destruct (restore_only_trims_log in_clip_frame
              (after [OpRestore] in_clip_frame) eq_refl) as (n & Hlog & _).
  exists n. exact Hlog.
Defined.

Lemma layerFlags_reads_ClipToLayer_only_witness :
  Z.land SaveFlags.Matrix SaveFlags.ClipToLayer = 0
  /\ layerFlags (Z.lor SaveFlags.ClipToLayer SaveFlags.Matrix)
     = layerFlags SaveFlags.ClipToLayer.
Proof.
  split; [reflexivity|].
  exact (proj2 (proj2 (layerFlags_reads_ClipToLayer_only SaveFlags.ClipToLayer))
           SaveFlags.Matrix eq_refl).
Defined.

Lemma restore_is_partial_restore_witness :
  reachable in_clip_frame
  /\ exists s',
       restore in_clip_frame = Ok s'
       /\ sk_getClip (mCanvas s') = sk_getClip (mCanvas in_clip_frame).
Proof.
  split; [apply in_clip_frame_reachable|].
  destruct (restore_is_partial_restore (sk := skia) rect_round_trip_toy in_clip_frame
              in_clip_frame_reachable) as (s' & Hrun & _ & Hcur & _).
  exists s'. split; [exact Hrun|].
  exact (proj1 (proj2 (Hcur (mkSaveRec 2 1 0) eq_refl))).
Defined.

Lemma drawPoints_reads_pairs_witness :
  2 <= 5
  /\ nothing_to_draw 255 = false
  /\ 5 <= Z.of_nat (length [1; 2; 3; 4; 5])
  /\ exists pts,
       drawPoints_mode nothing_to_draw [1; 2; 3; 4; 5] 5 255 kPoints_PointMode
       = Issued (kPoints_PointMode, 2, pts, 255)
       /\ point_floats pts = [1; 2; 3; 4].
Proof.
  assert (H5 : 2 <= 5) by discriminate.
  assert (Hlen : 5 <= Z.of_nat (length [1; 2; 3; 4; 5])) by discriminate.
  split; [exact H5|]. split; [reflexivity|]. split; [exact Hlen|].
  destruct (proj2 (drawPoints_reads_pairs (sk := skia) nothing_to_draw
                     [1; 2; 3; 4; 5] 5 255 kPoints_PointMode)
              H5 eq_refl Hlen) as (pts & Hrun & _ & Hfl & _).
  exists pts. split; [exact Hrun | exact Hfl].
Defined.

Lemma drawLines_needs_a_segment_witness :
  3 < 4
  /\ drawLines nothing_to_draw [1; 2; 3] 3 255 = Skipped
  /\ drawLines nothing_to_draw [1; 2; 3; 4] 4 255
     = Issued (kLines_PointMode, 2, [(1, 2); (3, 4)], 255)
  /\ 2 <= 2.
Proof.
  assert (H3 : 3 < 4) by reflexivity.
  split; [exact H3|].
  split; [exact (proj1 (drawLines_needs_a_segment (sk := skia) nothing_to_draw
                          [1; 2; 3] 3 255) H3)|].
  split; [reflexivity|].
  exact (proj1 (proj2 (proj2 (proj2
           (proj2 (drawLines_needs_a_segment (sk := skia) nothing_to_draw
                     [1; 2; 3; 4] 4 255)
              kLines_PointMode 2 [(1, 2); (3, 4)] 255 eq_refl))))).
Defined.

Lemma mesh_indices_closed_form_witness :
  0 <= 2 /\ 0 <= 1 /\ mesh_ptCount 2 1 <= 2 ^ 16
  /\ mesh_indices 2 1 = [0; 3; 4; 0; 4; 1; 1; 4; 5; 1; 5; 2].
Proof.
  assert (H2 : 0 <= 2) by discriminate.
  assert (H1 : 0 <= 1) by discriminate.
  assert (Hs : mesh_ptCount 2 1 <= 2 ^ 16) by discriminate.
  split; [exact H2|]. split; [exact H1|]. split; [exact Hs|].
  exact (proj2 (mesh_indices_closed_form 2 1 H2 H1) Hs).
Defined.

Lemma mesh_indices_legal_witness :
  0 <= 2 /\ 0 <= 1
  /\ mesh_ptCount 2 1 < 2 ^ 31 /\ mesh_indexCount 2 1 < 2 ^ 31
  /\ Z.of_nat (length (mesh_indices 2 1)) = mesh_indexCount 2 1.
Proof.
  assert (H2 : 0 <= 2) by discriminate.
  assert (H1 : 0 <= 1) by discriminate.
  assert (Hp : mesh_ptCount 2 1 < 2 ^ 31) by reflexivity.
  assert (Hi : mesh_indexCount 2 1 < 2 ^ 31) by reflexivity.
  split; [exact H2|]. split; [exact H1|]. split; [exact Hp|]. split; [exact Hi|].
  exact (proj1 (mesh_indices_legal 2 1 H2 H1 Hp Hi)).
Defined.

Lemma mesh_texs_hit_the_edges_witness :
  0 <= 3 /\ 0 <= 1
  /\ Z.of_nat (length (mesh_texs (sk := skia) (fun z => z) 0 Z.add Z.div
                         100 50 3 1))
     = mesh_ptCount 3 1.
Proof.
  assert (H3 : 0 <= 3) by discriminate.
  assert (H1 : 0 <= 1) by discriminate.
  split; [exact H3|]. split; [exact H1|].
  exact (proj1 (mesh_texs_hit_the_edges (sk := skia) (fun z => z) 0 Z.add Z.div
                  100 50 3 1 H3 H1)).
Defined.

Lemma log_without_records_is_inert_witness :
  saveRecords after_swap = []
  /\ length (mClipStack after_swap) = 1%nat
  /\ exists s',
       run scenario after_swap = Ok s'
       /\ firstn 1 (mClipStack s') = mClipStack after_swap.
Proof.
  split; [reflexivity|]. split; [reflexivity|].
  exists (after scenario after_swap).
  assert (Hrun : run scenario after_swap = Ok (after scenario after_swap))
    by reflexivity.
  split; [exact Hrun|].
  exact (proj1 (log_without_records_is_inert scenario after_swap
                  (after scenario after_swap) eq_refl Hrun)).
Defined.

Lemma restoreToCount_one_unwinds_everything_witness :
  reachable_on_surface in_clip_restoring_frame
  /\ exists s',
       restoreToCount 1 1 in_clip_restoring_frame = Ok s'
       /\ getSaveCount s' = 1 /\ mClipStack s' = [].
Proof.
  split; [apply in_clip_restoring_frame_on_surface|].
  destruct (restoreToCount_one_unwinds_everything in_clip_restoring_frame
              in_clip_restoring_frame_on_surface)
    as (s' & Hrun & Hone & _ & Hlog).
  exists s'. split; [exact Hrun|]. split; [exact Hone | exact Hlog].
Defined.
